(** * EliteDentaLAI: the client-side service modules, embedded and verified

    Part I embeds the TypeScript sources of the repository:

    - [JS]                the fragment of the JavaScript library the services
                          rely on: [toLowerCase], [includes], [trim], [join],
                          [sort], property lookup on an object literal;
    - [EmergencyTriage]   [src/services/emergencyTriage.ts];
    - [JSDate]            the [Date] operations of the recall service;
    - [RecallAutomator]   [src/services/recallAutomator.ts];
    - [DentalConfig]      the constants of [config/dental] the service reads;
    - [DentalService]     [src/services/dentalService.ts]: [initialize],
                          [logError] and [scheduleRecall];
    - [UseVapi]           the handler of the [error] event in the voice hook;
    - [RegExp]            the regular expressions of the redaction rules and
                          their global [match] and [replace];
    - [HIPAAShield]       the redaction filter [HIPAAShield.redactPHI] and
                          [validateHIPAACompliance];
    - [NoShowDefender]    [src/services/noShowDefender.ts];
    - [TriageBooking], [RecallCampaign]
                          the booking of the triage and the recall campaign;
    - [FuzzyMatch], [DentalProcedures], [DentalEmergency]
                          [src/services/dentalService.ts]: [fuzzyMatch],
                          [identifyProcedure], [getProcedureInfo] and
                          [handleEmergency] with the functions it calls;
    - [Transcript]        the transcript kept by the voice hook;
    - [VapiIntegration]   the message handler of [src/vapi-integration.js].

    Part II states and proves the properties.

    Strings are sequences of code units below 256 (Latin-1): Rocq's [string].
    The numbers the services compute with are integers that an IEEE double
    holds exactly; they are modelled in [Z]. Ratios and probabilities are
    doubles, modelled by primitive floats. Static fields of a class and the
    state of the hook are passed explicitly; a clock value read by the code
    is an argument [now]. *)

From Stdlib Require Import String Ascii ZArith List Lia Bool.
From Stdlib Require Import Permutation Sorted DecimalString.
From Stdlib Require Import PrimFloat.
From Stdlib Require Uint63.
From stdpp Require Import gmap strings.
Import ListNotations.

Open Scope string_scope.
Open Scope Z_scope.

(* Decimal literals of doubles stand for the nearest double, as in the source. *)
#[local] Set Warnings "-inexact-float".

(* ================================================================== *)
(** * Part I: the embedding                                            *)
(* ================================================================== *)

(** ** The JavaScript string primitives used by the services *)

Module JS.

Definition code (c : ascii) : N := N_of_ascii c.

Definition between (lo hi : N) (c : ascii) : bool :=
  ((lo <=? code c) && (code c <=? hi))%N.

(** [String.prototype.toLowerCase] on one code unit: [A-Z] and the
    Latin-1 capitals U+00C0..U+00DE (the sign U+00D7 apart) move up by 32. *)
Definition lowerChar (c : ascii) : ascii :=
  if between 65 90 c || (between 192 222 c && negb (code c =? 215)%N)
  then ascii_of_N (code c + 32)
  else c.

Fixpoint toLowerCase (s : string) : string :=
  match s with
  | EmptyString => EmptyString
  | String c s' => String (lowerChar c) (toLowerCase s')
  end.

(** [s.startsWith(p)] *)
Fixpoint startsWith (s p : string) {struct p} : bool :=
  match p with
  | EmptyString => true
  | String a p' =>
      match s with
      | EmptyString => false
      | String b s' => Ascii.eqb a b && startsWith s' p'
      end
  end.

(** [s.includes(kw)]: [kw] starts at some position of [s]. *)
Fixpoint includes (s kw : string) : bool :=
  startsWith s kw ||
  match s with
  | EmptyString => false
  | String _ s' => includes s' kw
  end.

(** What [includes] decides: [kw] occurs in [s] as a substring. *)
Definition occursIn (kw s : string) : Prop :=
  exists pre post, s = pre ++ kw ++ post.

(** Some word of [words] occurs in [s]. *)
Definition mentions (s : string) (words : list string) : Prop :=
  exists w, In w words /\ occursIn w s.

(** White space and line terminators, as [trim] sees them. *)
Definition isWhiteSpace (c : ascii) : bool :=
  between 9 13 c || (code c =? 32)%N || (code c =? 160)%N.

Fixpoint trimStart (s : string) : string :=
  match s with
  | EmptyString => EmptyString
  | String c s' => if isWhiteSpace c then trimStart s' else s
  end.

Fixpoint trimEnd (s : string) : string :=
  match s with
  | EmptyString => EmptyString
  | String c s' =>
      match trimEnd s' with
      | EmptyString => if isWhiteSpace c then EmptyString else String c EmptyString
      | t => String c t
      end
  end.

(** [s.trim()] *)
Definition trim (s : string) : string := trimEnd (trimStart s).

(** [parts.join(sep)] *)
Fixpoint join (sep : string) (parts : list string) : string :=
  match parts with
  | [] => EmptyString
  | [x] => x
  | x :: rest => x ++ sep ++ join sep rest
  end.

(** How a block ends: with a value, or with a thrown [Error] and its message. *)
Inductive Completion (A : Type) :=
| Return (v : A)
| Throw (message : string).
Arguments Return {A} v.
Arguments Throw {A} message.

(** [n.toString()] for an integer [n]. *)
Definition numberToString (n : Z) : string :=
  NilZero.string_of_int (Z.to_int n).

(** [Array.prototype.sort(cmp)]. The language fixes the result for a
    consistent comparator: the elements in ascending order, those that
    compare equal in their original order. Insertion from the right is one
    algorithm that computes it; only the sign of [cmp a b] is looked at. *)
Fixpoint insertSorted {A : Type} (cmp : A -> A -> Z) (x : A) (l : list A) : list A :=
  match l with
  | [] => [x]
  | y :: l' => if cmp x y <=? 0 then x :: y :: l' else y :: insertSorted cmp x l'
  end.

Definition sort {A : Type} (cmp : A -> A -> Z) (l : list A) : list A :=
  List.fold_right (insertSorted cmp) [] l.

(** The order a comparator stands for: [a] may come before [b]. *)
Definition cmp_le {A : Type} (cmp : A -> A -> Z) (a b : A) : Prop := cmp a b <= 0.

(** Property names every object literal inherits from [Object.prototype]. *)
Definition objectPrototypeKeys : list string :=
  [ "constructor"; "__defineGetter__"; "__defineSetter__"; "hasOwnProperty";
    "__lookupGetter__"; "__lookupSetter__"; "isPrototypeOf";
    "propertyIsEnumerable"; "toString"; "valueOf"; "__proto__"; "toLocaleString" ].

(** What [o[key]] finds on an object literal [o] used as a table: an own
    entry, a member of [Object.prototype] (a function or object, never a
    table entry), or [undefined]. *)
Inductive Property (V : Type) :=
| Own (v : V)
| Inherited
| Undefined.
Arguments Own {V} v.
Arguments Inherited {V}.
Arguments Undefined {V}.

Definition getProperty {V : Type} (o : gmap string V) (key : string) : Property V :=
  match o !! key with
  | Some v => Own v
  | None =>
      if List.existsb (String.eqb key) objectPrototypeKeys then Inherited else Undefined
  end.

End JS.

(** ** src/services/emergencyTriage.ts *)

Module EmergencyTriage.
Import JS.

Definition emergencyKeywords : list string :=
  [ "pain"; "broken"; "emergency"; "swollen"; "bleeding";
    "urgent"; "hurt"; "ache"; "throbbing"; "severe";
    "unbearable"; "excruciating"; "can't sleep"; "can't eat" ].

Record PainLevelKeywords := {
  severe : list string;
  moderate : list string;
  mild : list string
}.

Definition painLevelKeywords : PainLevelKeywords := {|
  severe := [ "unbearable"; "excruciating"; "worst"; "can't"; "crying" ];
  moderate := [ "bad"; "hurts"; "painful"; "aching"; "throbbing" ];
  mild := [ "slight"; "little"; "minor"; "uncomfortable" ]
|}.

Record Analysis := {
  isEmergency : bool;
  painLevel : Z;
  symptoms : list string;
  urgencyScore : Z
}.

(** [foundKeywords]: the configured keywords the lowercased utterance
    includes, in the order of the configuration. *)
Definition foundKeywords (lowerUtterance : string) : list string :=
  List.filter (fun keyword => includes lowerUtterance keyword) emergencyKeywords.

Definition some_included (lowerUtterance : string) (words : list string) : bool :=
  List.existsb (fun word => includes lowerUtterance word) words.

(** The pain level on the 1-10 scale, [5] being the default. *)
Definition painLevelOf (lowerUtterance : string) : Z :=
  if some_included lowerUtterance (severe painLevelKeywords) then 9
  else if some_included lowerUtterance (moderate painLevelKeywords) then 6
  else if some_included lowerUtterance (mild painLevelKeywords) then 3
  else 5.

Definition analyzeEmergency (utterance : string) : Analysis :=
  let lowerUtterance := toLowerCase utterance in
  let found := foundKeywords lowerUtterance in
  let emergency := 0 <? Z.of_nat (List.length found) in
  if negb emergency then
    {| isEmergency := false; painLevel := 0; symptoms := []; urgencyScore := 0 |}
  else
    let pain := painLevelOf lowerUtterance in
    let score := Z.of_nat (List.length found) * 15 in
    let score := score + pain * 8 in
    let score :=
      if includes lowerUtterance "since last night" || includes lowerUtterance "all night"
      then score + 20 else score in
    let score := Z.min score 100 in
    {| isEmergency := true; painLevel := pain; symptoms := found; urgencyScore := score |}.

(** The wait window of [bookEmergencyAppointment], in hours. *)
Definition hoursToAdd (analysis : Analysis) : Z :=
  if 80 <? urgencyScore analysis then 2
  else if 50 <? urgencyScore analysis then 6 else 24.

Definition handleEmergencyUtterance (utterance : string) : bool :=
  isEmergency (analyzeEmergency utterance).

End EmergencyTriage.

(** ** Dates

    A [Date] is held by its local time value (milliseconds on the local
    clock since the epoch), [None] being the Invalid Date. [getMonth] and
    [setMonth] work on the local time value; the offset between the local
    clock and UTC belongs to the host and is not part of the model. *)

Module JSDate.

Definition Date := option Z.

Definition msPerDay : Z := 86400000.

Definition Day (t : Z) : Z := t / msPerDay.
Definition TimeWithinDay (t : Z) : Z := t mod msPerDay.
Definition MakeDate (day time : Z) : Z := day * msPerDay + time.

(** [DayFromYear] of the language definition: the day number of 1 January. *)
Definition DayFromYear (y : Z) : Z :=
  365 * (y - 1970) + (y - 1969) / 4 - (y - 1901) / 100 + (y - 1601) / 400.

(** Day number of the civil date [y]-[m]-[d], [m] in 1..12. *)
Definition daysFromCivil (y m d : Z) : Z :=
  let y := if m <=? 2 then y - 1 else y in
  let era := y / 400 in
  let yoe := y - era * 400 in
  let doy := (153 * (if 2 <? m then m - 3 else m + 9) + 2) / 5 + d - 1 in
  let doe := yoe * 365 + yoe / 4 - yoe / 100 + doy in
  era * 146097 + doe - 719468.

(** Year, month (1..12) and day of the month of a day number:
    [YearFromTime], [MonthFromTime] + 1 and [DateFromTime]. *)
Definition civilFromDays (z : Z) : Z * Z * Z :=
  let z := z + 719468 in
  let era := z / 146097 in
  let doe := z - era * 146097 in
  let yoe := (doe - doe / 1460 + doe / 36524 - doe / 146096) / 365 in
  let y := yoe + era * 400 in
  let doy := doe - (365 * yoe + yoe / 4 - yoe / 100) in
  let mp := (5 * doy + 2) / 153 in
  let d := doy - (153 * mp + 2) / 5 + 1 in
  let m := if mp <? 10 then mp + 3 else mp - 9 in
  (if m <=? 2 then y + 1 else y, m, d).

Definition YearFromTime (t : Z) : Z := fst (fst (civilFromDays (Day t))).
Definition MonthFromTime (t : Z) : Z := snd (fst (civilFromDays (Day t))) - 1.
Definition DateFromTime (t : Z) : Z := snd (civilFromDays (Day t)).

(** [MakeDay]: months beyond 0..11 carry into the year, days beyond the
    month carry into the following months. *)
Definition MakeDay (year month date : Z) : Z :=
  let ym := year + month / 12 in
  let mn := month mod 12 in
  daysFromCivil ym (mn + 1) 1 + date - 1.

Definition TimeClip (t : Z) : Date :=
  if Z.abs t <=? 8640000000000000 then Some t else None.

(** The date with the given local calendar fields ([month] in 1..12) and
    time within the day. *)
Definition localDate (year month date time : Z) : Date :=
  Some (MakeDate (daysFromCivil year month date) time).

(** [new Date(d)] for a [Date] [d]: a copy. *)
Definition copy (d : Date) : Date := d.

(** [d.getMonth()]: 0..11, [None] standing for [NaN]. *)
Definition getMonth (d : Date) : option Z :=
  match d with
  | Some t => Some (MonthFromTime t)
  | None => None
  end.

(** [d.setMonth(month)]: the new value of [d]. *)
Definition setMonth (d : Date) (month : option Z) : Date :=
  match d, month with
  | Some t, Some m =>
      TimeClip (MakeDate (MakeDay (YearFromTime t) m (DateFromTime t)) (TimeWithinDay t))
  | _, _ => None
  end.

Definition msPerHour : Z := 3600000.
Definition msPerMinute : Z := 60000.
Definition msPerSecond : Z := 1000.

Definition HourFromTime (t : Z) : Z := (t / msPerHour) mod 24.
Definition MinFromTime (t : Z) : Z := (t / msPerMinute) mod 60.
Definition SecFromTime (t : Z) : Z := (t / msPerSecond) mod 60.
Definition msFromTime (t : Z) : Z := t mod msPerSecond.

Definition MakeTime (hour min sec ms : Z) : Z :=
  hour * msPerHour + min * msPerMinute + sec * msPerSecond + ms.

(** [new Date()] when the local clock shows [now]. *)
Definition current (now : Z) : Date := Some now.

(** [d.getTime()], [None] standing for [NaN]. Time values are only
    subtracted and compared with each other; with a constant offset between
    the local clock and UTC the results are those on the local clock. *)
Definition getTime (d : Date) : option Z := d.

(** [d.getHours()] and [d.getDate()]. *)
Definition getHours (d : Date) : option Z := option_map HourFromTime d.
Definition getDate (d : Date) : option Z := option_map DateFromTime d.

(** [d.setHours(hour)]: the minutes, seconds and milliseconds stay. *)
Definition setHours (d : Date) (hour : option Z) : Date :=
  match d, hour with
  | Some t, Some h =>
      TimeClip (MakeDate (Day t) (MakeTime h (MinFromTime t) (SecFromTime t) (msFromTime t)))
  | _, _ => None
  end.

(** [d.setHours(hour, min, sec, ms)] *)
Definition setHours4 (d : Date) (hour min sec ms : Z) : Date :=
  match d with
  | Some t => TimeClip (MakeDate (Day t) (MakeTime hour min sec ms))
  | None => None
  end.

(** [d.setDate(date)] *)
Definition setDate (d : Date) (date : option Z) : Date :=
  match d, date with
  | Some t, Some dt =>
      TimeClip (MakeDate (MakeDay (YearFromTime t) (MonthFromTime t) dt) (TimeWithinDay t))
  | _, _ => None
  end.

(** The calendar of the language definition, by which [civilFromDays] is
    checked: the length of a year, and the month (0..11) and the day of the
    month of a day within a year by the table of month starts. *)
Definition DaysInYear (y : Z) : Z :=
  if (y mod 4 =? 0) && (negb (y mod 100 =? 0) || (y mod 400 =? 0)) then 366 else 365.

Definition monthStarts (leap : Z) : list Z :=
  [ 0; 31; 59 + leap; 90 + leap; 120 + leap; 151 + leap; 181 + leap;
    212 + leap; 243 + leap; 273 + leap; 304 + leap; 334 + leap ].

Definition tableMonth (dayWithinYear leap : Z) : Z :=
  Z.of_nat (List.length (List.filter (fun start => start <=? dayWithinYear) (monthStarts leap))) - 1.

Definition tableDate (dayWithinYear leap : Z) : Z :=
  dayWithinYear
  - List.nth (Z.to_nat (tableMonth dayWithinYear leap)) (monthStarts leap) 0 + 1.

(** On the day number [day], [civilFromDays] gives the year, month and day
    of the table, and [daysFromCivil] leads back. *)
Definition civilAgrees (day : Z) : bool :=
  let '(y, m, d) := civilFromDays day in
  let leap := DaysInYear y - 365 in
  (DayFromYear y <=? day) && (day <? DayFromYear (y + 1))
  && (DayFromYear (y + 1) - DayFromYear y =? DaysInYear y)
  && (m - 1 =? tableMonth (day - DayFromYear y) leap)
  && (d =? tableDate (day - DayFromYear y) leap)
  && (daysFromCivil y m d =? day).

Fixpoint civilAgreesFrom (from : Z) (count : nat) : bool :=
  match count with
  | O => true
  | S n => civilAgrees from && civilAgreesFrom (from + 1) n
  end.

End JSDate.

(** ** src/services/emergencyTriage.ts: [bookEmergencyAppointment] *)

Module TriageBooking.
Import JS JSDate EmergencyTriage.

Inductive ContactMethod := sms | call.

Record PatientInfo := {
  info_symptoms : string;
  info_painLevel : Z;
  contactMethod : ContactMethod
}.

(** An [EmergencyBooking]; its [type] is the constant ['URGENT']. *)
Record EmergencyBooking := {
  maxWait : Z;                      (* hours *)
  patientInfo : PatientInfo;
  appointmentTime : Date
}.

(** [bookEmergencyAppointment] when the local clock shows [now]. The triage
    guide it sends is a console message and leaves no trace in the booking. *)
Definition bookEmergencyAppointment (now : Z) (analysis : Analysis) : EmergencyBooking :=
  let appointmentTime := current now in
  let hours := hoursToAdd analysis in
  let appointmentTime :=
    setHours appointmentTime (option_map (fun h => h + hours) (getHours appointmentTime)) in
  {| maxWait := hours;
     patientInfo := {|
       info_symptoms := join ", " (symptoms analysis);
       info_painLevel := painLevel analysis;
       contactMethod := if 70 <? urgencyScore analysis then call else sms |};
     appointmentTime := appointmentTime |}.

End TriageBooking.

(** ** src/services/recallAutomator.ts *)

Module RecallAutomator.
Import JS JSDate.

Inductive RecallPriority := high | medium | low.

Record RecallConfig := {
  interval : Z;                     (* months *)
  autoBook : bool;
  reminderDays : list Z;
  priority : RecallPriority
}.

Inductive RecallStatus := due | overdue | scheduled | contacted.
Inductive ContactMethod := sms | email | call.

Record PatientRecall := {
  id : string;
  patientName : string;
  lastVisit : Date;
  procedure : string;
  nextDue : Date;
  status : RecallStatus;
  contactAttempts : Z;
  preferredContact : ContactMethod;
  estimatedRevenue : Z
}.

Definition recallConfigs : gmap string RecallConfig :=
  list_to_map
    [ ("cleaning", {| interval := 6; autoBook := true;
                      reminderDays := [30; 14; 7; 1]; priority := medium |});
      ("crown", {| interval := 12; autoBook := false;
                   reminderDays := [60; 30; 14]; priority := low |});
      ("implant", {| interval := 24; autoBook := true;
                     reminderDays := [90; 60; 30; 14]; priority := high |});
      ("periodontal", {| interval := 3; autoBook := true;
                         reminderDays := [14; 7; 3; 1]; priority := high |});
      ("filling", {| interval := 24; autoBook := false;
                     reminderDays := [60; 30; 14]; priority := low |});
      ("extraction", {| interval := 1; autoBook := true;
                        reminderDays := [7; 3; 1]; priority := high |}) ].

Definition defaultRecallConfig : RecallConfig :=
  {| interval := 6; autoBook := false; reminderDays := [30; 14; 7]; priority := medium |}.

(** [getRecallConfig]: [recallConfigs[procedure] || default]. A name that
    [Object.prototype] knows yields that (truthy) member, which has none of
    the fields of a [RecallConfig]: [None]. *)
Definition getRecallConfig (procedure : string) : option RecallConfig :=
  match getProperty recallConfigs procedure with
  | Own config => Some config
  | Inherited => None
  | Undefined => Some defaultRecallConfig
  end.

(** The argument of [addPatientRecall]. *)
Record PatientData := {
  data_patientName : string;
  data_procedure : string;
  data_lastVisit : Date;
  data_preferredContact : ContactMethod;
  data_estimatedRevenue : option Z
}.

(** [a + b] on numbers, [None] standing for [NaN] or [undefined]. *)
Definition addNumbers (a b : option Z) : option Z :=
  match a, b with
  | Some x, Some y => Some (x + y)
  | _, _ => None
  end.

(** [addPatientRecall] on the list of recalls; [now] is [Date.now()]. *)
Definition addPatientRecall (patientRecalls : list PatientRecall) (now : Z)
  (patientData : PatientData) : list PatientRecall :=
  let config := getRecallConfig (data_procedure patientData) in
  let nextDue0 := copy (data_lastVisit patientData) in
  let nextDue1 :=
    setMonth nextDue0 (addNumbers (getMonth nextDue0) (option_map interval config)) in
  let newRecall := {|
    id := numberToString now;
    patientName := data_patientName patientData;
    lastVisit := data_lastVisit patientData;
    procedure := data_procedure patientData;
    nextDue := nextDue1;
    status := due;
    contactAttempts := 0;
    preferredContact := data_preferredContact patientData;
    estimatedRevenue :=
      match data_estimatedRevenue patientData with
      | Some v => if v =? 0 then 200 else v
      | None => 200
      end
  |} in
  patientRecalls ++ [newRecall].

(** The comparator of the two listings: by due date, earliest first. A
    [NaN] difference counts as 0 for [sort]. *)
Definition byNextDue (a b : PatientRecall) : Z :=
  match getTime (nextDue a), getTime (nextDue b) with
  | Some x, Some y => x - y
  | _, _ => 0
  end.

(** The test of [getDueRecalls]: [Math.floor] of the days from the due date
    to today is -30 or more. A comparison with [NaN] fails. *)
Definition dueWithin30Days (today : Z) (recall : PatientRecall) : bool :=
  match getTime (nextDue recall) with
  | Some dueAt => -30 <=? (today - dueAt) / msPerDay
  | None => false
  end.

(** The test of [getOverdueRecalls]. *)
Definition pastDue (today : Z) (recall : PatientRecall) : bool :=
  match getTime (nextDue recall) with
  | Some dueAt => dueAt <? today
  | None => false
  end.

(** [getDueRecalls] and [getOverdueRecalls]; [today] is the time value of
    [new Date()]. *)
Definition getDueRecalls (patientRecalls : list PatientRecall) (today : Z)
  : list PatientRecall :=
  sort byNextDue (List.filter (dueWithin30Days today) patientRecalls).

Definition getOverdueRecalls (patientRecalls : list PatientRecall) (today : Z)
  : list PatientRecall :=
  sort byNextDue (List.filter (pastDue today) patientRecalls).

(** The due time of a recall, 0 for an invalid date, and the order by it. *)
Definition dueTime (r : PatientRecall) : Z :=
  match nextDue r with Some t => t | None => 0 end.

Definition byDueTime (a b : PatientRecall) : Z := dueTime a - dueTime b.

(** [a] is due no later than [b], both dates being valid. *)
Definition dueNoLater (a b : PatientRecall) : Prop :=
  exists x y, nextDue a = Some x /\ nextDue b = Some y /\ x <= y.

End RecallAutomator.

(** ** config/dental *)

Module DentalConfig.

Definition recallSettings_intervals : gmap string Z :=
  list_to_map
    [ ("cleaning", 6); ("perio", 3); ("implant", 12); ("crown", 12);
      ("filling", 24); ("surgery", 1); ("consultation", 12); ("periodontal", 3) ].

Definition emergencyKeywords : list string :=
  [ "pain"; "emergency"; "broken"; "swollen"; "bleeding";
    "urgent"; "hurt"; "ache"; "throbbing"; "severe";
    "unbearable"; "excruciating"; "can't sleep"; "can't eat";
    "knocked out"; "chipped"; "cracked"; "loose tooth";
    "abscess"; "infection"; "pus"; "fever" ].

End DentalConfig.

(** ** src/services/dentalService.ts: initialisation and [scheduleRecall] *)

Module DentalService.
Import JS DentalConfig.

Inductive Severity := low | medium | high.

Record ErrorEntry := {
  timestamp : Z;
  error : string;
  context : string;
  severity : Severity
}.

(** The static fields of the class, and the delays of the calls of
    [initialize] handed to [setTimeout]. *)
Record State := {
  initialized : bool;
  errorLog : list ErrorEntry;
  initializationAttempts : Z;
  retryTimers : list Z
}.

Definition maxInitAttempts : Z := 3.

Definition initialState : State :=
  {| initialized := false; errorLog := []; initializationAttempts := 0; retryTimers := [] |}.

(** [logError]; [now] is the clock read by [new Date()]. Only the last 100
    entries are kept. *)
Definition logError (st : State) (now : Z) (context error : string)
  (severity : Severity) : State :=
  let errorEntry :=
    {| timestamp := now; error := error; context := context; severity := severity |} in
  let log := (errorLog st ++ [errorEntry])%list in
  let log :=
    if (100 <? List.length log)%nat then List.skipn (List.length log - 100) log else log in
  {| initialized := initialized st; errorLog := log;
     initializationAttempts := initializationAttempts st;
     retryTimers := retryTimers st |}.

(** [typeof keyword === 'string'] on an element of [emergencyKeywords]. *)
Definition isString (keyword : string) : bool := true.

(** The validation in the [try] block of [initialize]. The tests on
    [procedureConfig], [emergencyKeywords], [recallSettings] and
    [recallSettings.intervals] ask for the presence and the kind (object,
    array) of a constant of the configuration module, which the constants
    have by definition; the last test filters the keywords that are not
    strings. *)
Definition validateConfig : Completion unit :=
  let invalidKeywords := List.filter (fun keyword => negb (isString keyword)) emergencyKeywords in
  if (0 <? List.length invalidKeywords)%nat
  then Throw ("Invalid emergency keywords found: " ++ join ", " invalidKeywords)
  else Return tt.

Definition initialize (st : State) (now : Z) : bool * State :=
  if initialized st then (true, st)
  else
    let st :=
      {| initialized := initialized st; errorLog := errorLog st;
         initializationAttempts := initializationAttempts st + 1;
         retryTimers := retryTimers st |} in
    match validateConfig with
    | Return _ =>
        (true,
         {| initialized := true; errorLog := errorLog st;
            initializationAttempts := initializationAttempts st;
            retryTimers := retryTimers st |})
    | Throw errorMessage =>
        let st := logError st now "Initialization failed" errorMessage high in
        let st :=
          if initializationAttempts st <? maxInitAttempts then
            {| initialized := initialized st; errorLog := errorLog st;
               initializationAttempts := initializationAttempts st;
               retryTimers := (retryTimers st ++ [1000 * initializationAttempts st])%list |}
          else st in
        (false, st)
    end.

(** The text [`${interval}`] of a member of [Object.prototype]. *)
Definition inheritedText : string := "[object]".

(** The [try] block of [scheduleRecall]. *)
Definition scheduleRecall_try (st : State) (now : Z) (procedure : string)
  : Completion Z * State :=
  let '(ready, st) := if initialized st then (true, st) else initialize st now in
  if negb ready then (Throw "Service not properly initialized", st)
  else if String.eqb procedure EmptyString then
    (Throw "Invalid procedure parameter: must be a non-empty string", st)
  else
    let normalizedProcedure := trim (toLowerCase procedure) in
    if (String.length normalizedProcedure =? 0)%nat then
      (Throw "Procedure cannot be empty", st)
    else
      match getProperty recallSettings_intervals normalizedProcedure with
      | Undefined =>
          (Return 6, logError st now "scheduleRecall" ("Unknown procedure: " ++ procedure) low)
      | Inherited =>
          (Throw ("Invalid interval for procedure " ++ procedure ++ ": " ++ inheritedText), st)
      | Own interval =>
          if interval <=? 0 then
            (Throw ("Invalid interval for procedure " ++ procedure ++ ": "
                    ++ numberToString interval), st)
          else (Return interval, st)
      end.

(** [scheduleRecall]: the [catch] clause logs the message and answers with
    the default. *)
Definition scheduleRecall (st : State) (now : Z) (procedure : string)
  : Completion Z * State :=
  match scheduleRecall_try st now procedure with
  | (Return interval, st) => (Return interval, st)
  | (Throw errorMessage, st) =>
      (Return 6, logError st now "scheduleRecall" errorMessage medium)
  end.

(** The interval the table configures for a procedure name, if any. *)
Definition configuredInterval (procedure : string) : option Z :=
  recallSettings_intervals !! trim (toLowerCase procedure).

(** [clearErrorLog] *)
Definition clearErrorLog (st : State) : State :=
  {| initialized := initialized st; errorLog := [];
     initializationAttempts := initializationAttempts st;
     retryTimers := retryTimers st |}.

Inductive HealthStatus := healthy | degraded | critical.

Record SystemHealth := {
  status : HealthStatus;
  errors : list ErrorEntry;
  uptime : Z;
  lastError : option Z;
  errorsByCategory : option (gmap string Z);
  initializationStatus : bool;
  configurationValid : bool
}.

(** The tally [acc[context] = (acc[context] || 0) + 1] over an object
    literal: a context that names a member of [Object.prototype] finds that
    member instead of a count, and the tally is no table of numbers: [None]. *)
Definition tallyStep (acc : option (gmap string Z)) (context : string)
  : option (gmap string Z) :=
  match acc with
  | Some counts =>
      match getProperty counts context with
      | Own n => Some (<[context := n + 1]> counts)
      | Undefined => Some (<[context := 1]> counts)
      | Inherited => None
      end
  | None => None
  end.

Definition tally (contexts : list string) : option (gmap string Z) :=
  List.fold_left tallyStep contexts (Some ∅).

Definition isHigh (e : ErrorEntry) : bool :=
  match severity e with high => true | _ => false end.

Definition isMedium (e : ErrorEntry) : bool :=
  match severity e with medium => true | _ => false end.

(** An entry of the last minute before [now]. *)
Definition recent (now : Z) (log : ErrorEntry) : bool := now - timestamp log <? 60000.

(** [getSystemHealth]; [now] is [Date.now()]. Nothing in its [try] block
    throws; the configuration constants are present. *)
Definition getSystemHealth (st : State) (now : Z) : SystemHealth :=
  let recentErrors := List.filter (recent now) (errorLog st) in
  let criticalErrors := List.filter isHigh recentErrors in
  let mediumErrors := List.filter isMedium recentErrors in
  let status :=
    if (0 <? List.length criticalErrors)%nat || (10 <? List.length recentErrors)%nat
    then critical
    else if (2 <? List.length mediumErrors)%nat || (5 <? List.length recentErrors)%nat
    then degraded
    else healthy in
  {| status := status;
     errors := List.skipn (List.length (errorLog st) - 20) (errorLog st);
     uptime :=
       if initialized st then
         match errorLog st with
         | first :: _ => if timestamp first =? 0 then 0 else now - timestamp first
         | [] => 0
         end
       else 0;
     lastError := option_map timestamp (List.last (List.map Some (errorLog st)) None);
     errorsByCategory := tally (List.map context (errorLog st));
     initializationStatus := initialized st;
     configurationValid := true |}.

(** How often [context] occurs among [contexts]. *)
Definition occurrences (context : string) (contexts : list string) : Z :=
  Z.of_nat (List.length (List.filter (String.eqb context) contexts)).

(** The log after [logError], from the log before: the new entry at the
    end, the oldest entries dropped beyond 100. *)
Definition logged (log : list ErrorEntry) (entry : ErrorEntry) : list ErrorEntry :=
  let log := (log ++ [entry])%list in
  if (100 <? List.length log)%nat then List.skipn (List.length log - 100) log else log.

End DentalService.

(** ** hooks/useVapi: the handler of the SDK's [error] event *)

Module UseVapi.
Import JS.

Inductive CallStatus := idle | connecting | connected | ended | failedCall.
Inductive ConnectionHealth := healthy | degraded | failed.

(** The members of the error object the handler reads; [None] is
    [undefined] (also when the object itself is missing). *)
Record VapiError := {
  errorMsg : option string;         (* error?.errorMsg *)
  inner_type : option string;       (* error?.error?.type *)
  inner_msg : option string;        (* error?.error?.msg *)
  type : option string;             (* error?.type *)
  message : option string;          (* error?.message *)
  text : option string              (* error?.toString() *)
}.

Inductive TimerAction :=
| ResetToIdle                       (* setCall(status: 'idle') *)
| RetryConnection                   (* retryConnection(), when vapiRef is set *)
| ResetToIdleAndClearError.         (* setCall(status: 'idle'); setError(null) *)

Record Timer := { delay : Z; action : TimerAction }.

(** The state of the hook the handler touches: React state, the
    [reconnectAttemptsRef] counter, and the timers handed to [setTimeout],
    oldest first. *)
Record State := {
  callStatus : CallStatus;
  callEndTime : option Z;
  isCallActive : bool;
  isLoading : bool;
  error : option string;
  connectionHealth : ConnectionHealth;
  reconnectAttempts : Z;
  timers : list Timer
}.

Definition maxReconnectAttempts : Z := 3.

Definition equals (expected : string) (value : option string) : bool :=
  match value with
  | Some v => String.eqb v expected
  | None => false
  end.

(** [a || b] on strings: the empty string and [undefined] are falsy. *)
Definition orElse (a : option string) (b : option string) : option string :=
  match a with
  | Some v => if String.eqb v EmptyString then b else a
  | None => b
  end.

Definition meetingEnded (e : VapiError) : bool :=
  equals "Meeting has ended" (errorMsg e) || equals "ejected" (inner_type e)
  || equals "no-room" (inner_type e) || equals "Meeting has ended" (inner_msg e).

(** The message shown and the [shouldRetry] flag of an error. *)
Definition classify (e : VapiError) : string * bool :=
  if equals "daily-call-join-error" (type e) then
    ("Failed to join voice session. Please try again.", true)
  else if equals "start-method-error" (type e) then
    ("Failed to start voice assistant. Please check your connection.", false)
  else
    (match orElse (message e) (orElse (errorMsg e) (orElse (text e) (Some "Unknown VAPI error"))) with
     | Some m => m
     | None => "Unknown VAPI error"
     end, true).

Definition addTimer (st : State) (t : Timer) : list Timer := (timers st ++ [t])%list.

(** The handler registered with [vapi.on('error', ...)]; [active] is the
    value of [isCallActive] in the closure of the handler, and [now] the
    clock read by [new Date()]. *)
Definition onError (active : bool) (st : State) (now : Z) (e : VapiError) : State :=
  if meetingEnded e then
    {| callStatus := ended; callEndTime := Some now; isCallActive := false;
       isLoading := false; error := error st; connectionHealth := healthy;
       reconnectAttempts := reconnectAttempts st;
       timers := addTimer st {| delay := 2000; action := ResetToIdle |} |}
  else
    let '(errorMessage, shouldRetry) := classify e in
    let st := {| callStatus := failedCall; callEndTime := callEndTime st;
                 isCallActive := isCallActive st; isLoading := false;
                 error := Some errorMessage; connectionHealth := failed;
                 reconnectAttempts := reconnectAttempts st; timers := timers st |} in
    if shouldRetry && (reconnectAttempts st <? maxReconnectAttempts) && active then
      let attempts := reconnectAttempts st + 1 in
      {| callStatus := callStatus st; callEndTime := callEndTime st;
         isCallActive := isCallActive st; isLoading := isLoading st;
         error := error st; connectionHealth := connectionHealth st;
         reconnectAttempts := attempts;
         timers := addTimer st {| delay := 2000 * attempts; action := RetryConnection |} |}
    else if negb shouldRetry then
      {| callStatus := callStatus st; callEndTime := callEndTime st;
         isCallActive := isCallActive st; isLoading := isLoading st;
         error := error st; connectionHealth := connectionHealth st;
         reconnectAttempts := reconnectAttempts st;
         timers := addTimer st {| delay := 3000; action := ResetToIdleAndClearError |} |}
    else st.

(** The handler of [call-start]: a new session, the counter starts over. *)
Definition onCallStart (st : State) (now : Z) : State :=
  {| callStatus := connecting; callEndTime := callEndTime st; isCallActive := true;
     isLoading := false; error := None; connectionHealth := healthy;
     reconnectAttempts := 0; timers := timers st |}.

(** The effect that registers the handlers has an empty dependency list:
    the closure of the handlers is that of the first render, where
    [isCallActive] has its initial value. *)
Definition mountedIsCallActive : bool := false.

(** The state of the hook after the first render. *)
Definition mounted : State :=
  {| callStatus := idle; callEndTime := None; isCallActive := false; isLoading := false;
     error := None; connectionHealth := healthy; reconnectAttempts := 0; timers := [] |}.

(** A session in which the errors [events] arrive, each with the clock value
    at its arrival, and no call starts in between. *)
Fixpoint errors (active : bool) (st : State) (events : list (Z * VapiError)) : State :=
  match events with
  | [] => st
  | (now, e) :: rest => errors active (onError active st now e) rest
  end.

Definition isRetry (t : Timer) : bool :=
  match action t with RetryConnection => true | _ => false end.

(** The delays of the reconnection attempts scheduled so far, oldest first. *)
Definition retryDelays (st : State) : list Z :=
  List.map delay (List.filter isRetry (timers st)).

(** The backoff schedule: [2000 * (from + 1)], ..., [2000 * (from + count)]. *)
Definition backoff (from : Z) (count : nat) : list Z :=
  List.map (fun n => 2000 * (from + Z.of_nat n)) (List.seq 1 count).

(** The error the SDK reports when the session cannot be joined. *)
Definition joinError : VapiError :=
  {| errorMsg := None; inner_type := None; inner_msg := None;
     type := Some "daily-call-join-error"; message := None;
     text := Some "[object Object]" |}.

(** A call in progress, as the hook holds it after [call-start]. *)
Definition inCall : State := onCallStart mounted 1700000000000.

End UseVapi.

(** ** Regular expressions

    The patterns of the redaction rules are sequences of word boundaries and
    of character classes under a greedy quantifier, without groups or
    alternatives; all carry the flag [g], two also [i]. [matchTerms] is the
    backtracking matcher of the language on this fragment. *)

Module RegExp.
Import JS.

Inductive CharSet :=
| Digit                               (* \d *)
| Space                               (* \s *)
| Range (lo hi : ascii)               (* lo-hi *)
| Char (c : ascii).                   (* a literal character *)

Inductive Term :=
| WordBoundary                                                   (* \b *)
| Repeat (cls : list CharSet) (min : nat) (max : option nat).    (* [cls]{min,max} *)

Record RegExp := {
  terms : list Term;
  ignoreCase : bool
}.

Definition lit (c : ascii) : Term := Repeat [Char c] 1 (Some 1%nat).
Definition exactly (n : nat) (cls : list CharSet) : Term := Repeat cls n (Some n).
Definition upTo (m n : nat) (cls : list CharSet) : Term := Repeat cls m (Some n).
Definition optional (cls : list CharSet) : Term := Repeat cls 0 (Some 1%nat).
Definition atLeast (n : nat) (cls : list CharSet) : Term := Repeat cls n None.

Definition isWordChar (c : ascii) : bool :=
  between 97 122 c || between 65 90 c || between 48 57 c || (code c =? 95)%N.

(** The canonical form of a code unit under the flag [i]: its capital. *)
Definition canonicalize (c : ascii) : ascii :=
  if between 97 122 c || (between 224 254 c && negb (code c =? 247)%N)
  then ascii_of_N (code c - 32)
  else c.

Definition inSet (a : CharSet) (c : ascii) : bool :=
  match a with
  | Digit => between 48 57 c
  | Space => isWhiteSpace c
  | Range lo hi => between (code lo) (code hi) c
  | Char x => Ascii.eqb x c
  end.

(** Under [i] a character is accepted when the set has a member with the
    same canonical form: the character, its capital or its small letter. *)
Definition accepts (ic : bool) (cls : list CharSet) (c : ascii) : bool :=
  List.existsb
    (fun a => inSet a c || (ic && (inSet a (canonicalize c) || inSet a (lowerChar c))))
    cls.

(** [\b] between the character before the position and the one at it. *)
Definition atBoundary (prev : option ascii) (s : string) : bool :=
  xorb (match prev with Some c => isWordChar c | None => false end)
       (match s with String c _ => isWordChar c | EmptyString => false end).

Definition allowsMore (max : option nat) : bool :=
  match max with Some O => false | _ => true end.

(** A class under a greedy quantifier followed by the continuation [k]: one
    more character is tried first, the continuation when that fails and the
    minimum is reached. The result is the length matched. *)
Fixpoint repeat (ic : bool) (cls : list CharSet) (min : nat) (max : option nat)
    (k : option ascii -> string -> option nat)
    (prev : option ascii) (s : string) {struct s} : option nat :=
  let finish := match min with O => k prev s | S _ => None end in
  match s with
  | String c s' =>
      if allowsMore max && accepts ic cls c then
        match repeat ic cls (Nat.pred min) (option_map Nat.pred max) k (Some c) s' with
        | Some n => Some (S n)
        | None => finish
        end
      else finish
  | EmptyString => finish
  end.

(** The length of the match of [ts] at the start of [s], which follows the
    character [prev]. *)
Fixpoint matchTerms (ic : bool) (ts : list Term) (prev : option ascii) (s : string)
    {struct ts} : option nat :=
  match ts with
  | [] => Some O
  | WordBoundary :: rest =>
      if atBoundary prev s then matchTerms ic rest prev s else None
  | Repeat cls min max :: rest =>
      repeat ic cls min max (matchTerms ic rest) prev s
  end.

Definition matchAt (re : RegExp) (prev : option ascii) (s : string) : option nat :=
  matchTerms (ignoreCase re) (terms re) prev s.

(** The scan of a global pattern over a string: the characters outside the
    matches and the matches, in order. [skip] counts the characters still
    inside the current match; after an empty match the scan moves on by one
    character. *)
Inductive Piece :=
| Kept (c : ascii)
| Matched (m : string).

Fixpoint scan (re : RegExp) (skip : nat) (prev : option ascii) (s : string)
    {struct s} : list Piece :=
  match skip with
  | S k =>
      match s with
      | String c s' => scan re k (Some c) s'
      | EmptyString => []
      end
  | O =>
      match matchAt re prev s with
      | Some (S n) =>
          Matched (substring 0 (S n) s) ::
          match s with
          | String c s' => scan re n (Some c) s'
          | EmptyString => []
          end
      | Some O =>
          Matched EmptyString ::
          match s with
          | String c s' => Kept c :: scan re O (Some c) s'
          | EmptyString => []
          end
      | None =>
          match s with
          | String c s' => Kept c :: scan re O (Some c) s'
          | EmptyString => []
          end
      end
  end.

Fixpoint matchesOf (ps : list Piece) : list string :=
  match ps with
  | [] => []
  | Kept _ :: rest => matchesOf rest
  | Matched m :: rest => m :: matchesOf rest
  end.

Fixpoint substitute (replacement : string) (ps : list Piece) : string :=
  match ps with
  | [] => EmptyString
  | Kept c :: rest => String c (substitute replacement rest)
  | Matched _ :: rest => replacement ++ substitute replacement rest
  end.

(** [text.match(re)] for a global [re]: the matches, [[]] standing for
    [null]. *)
Definition matchAll (re : RegExp) (text : string) : list string :=
  matchesOf (scan re O None text).

(** [text.replace(re, replacement)] for a global [re] and a replacement
    without [$]. *)
Definition replaceAll (re : RegExp) (text replacement : string) : string :=
  substitute replacement (scan re O None text).

(** The last character of a string, if any. *)
Fixpoint lastChar (prev : option ascii) (s : string) : option ascii :=
  match s with
  | EmptyString => prev
  | String c s' => lastChar (Some c) s'
  end.

(** [re] has a match in [text]: at some position of it. *)
Definition hasMatch (re : RegExp) (text : string) : Prop :=
  exists before rest n,
    text = before ++ rest /\ matchAt re (lastChar None before) rest = Some n.

End RegExp.

(** ** utils/hipaaShield: [redactPHI] *)

Module HIPAAShield.
Import JS RegExp.

Record Rule := {
  pattern : RegExp;
  replace : string
}.

Definition digits (n : nat) : Term := exactly n [Digit].
Definition dash : Term := lit "-".
Definition capitals : CharSet := Range "A" "Z".
Definition smalls : CharSet := Range "a" "z".
Definition figures : CharSet := Range "0" "9".
Definition g (ts : list Term) : RegExp := {| terms := ts; ignoreCase := false |}.
Definition gi (ts : list Term) : RegExp := {| terms := ts; ignoreCase := true |}.

Definition redactionRules : list Rule :=
  [ (* Social Security Numbers *)
    {| pattern := g [WordBoundary; digits 3; dash; digits 2; dash; digits 4; WordBoundary];
       replace := "[SSN-REDACTED]" |};
    {| pattern := g [WordBoundary; digits 9; WordBoundary];
       replace := "[SSN-REDACTED]" |};
    (* Insurance IDs *)
    {| pattern := g [WordBoundary; exactly 2 [capitals]; digits 10; WordBoundary];
       replace := "[INSURANCE-REDACTED]" |};
    {| pattern := g [WordBoundary; exactly 3 [capitals]; digits 9; WordBoundary];
       replace := "[INSURANCE-REDACTED]" |};
    (* Phone Numbers *)
    {| pattern := g [WordBoundary; digits 3; dash; digits 3; dash; digits 4; WordBoundary];
       replace := "[PHONE-REDACTED]" |};
    {| pattern := g [WordBoundary; lit "("; digits 3; lit ")"; optional [Space];
                     digits 3; dash; digits 4; WordBoundary];
       replace := "[PHONE-REDACTED]" |};
    (* Credit Card Numbers *)
    {| pattern := g [WordBoundary; digits 4; optional [Space; Char "-"];
                     digits 4; optional [Space; Char "-"];
                     digits 4; optional [Space; Char "-"]; digits 4; WordBoundary];
       replace := "[CARD-REDACTED]" |};
    (* Email Addresses *)
    {| pattern := g [WordBoundary;
                     atLeast 1 [capitals; smalls; figures; Char "."; Char "_"; Char "%";
                                Char "+"; Char "-"];
                     lit "@";
                     atLeast 1 [capitals; smalls; figures; Char "."; Char "-"];
                     lit ".";
                     atLeast 2 [capitals; Char "|"; smalls];
                     WordBoundary];
       replace := "[EMAIL-REDACTED]" |};
    (* Dates of Birth *)
    {| pattern := g [WordBoundary; upTo 1 2 [Digit]; lit "/"; upTo 1 2 [Digit]; lit "/";
                     digits 4; WordBoundary];
       replace := "[DOB-REDACTED]" |};
    {| pattern := g [WordBoundary; upTo 1 2 [Digit]; dash; upTo 1 2 [Digit]; dash;
                     digits 4; WordBoundary];
       replace := "[DOB-REDACTED]" |};
    (* Medical Record Numbers *)
    {| pattern := gi [WordBoundary; lit "M"; lit "R"; lit "N"; optional [Space; Char ":"];
                      atLeast 1 [Digit]];
       replace := "[MRN-REDACTED]" |};
    {| pattern := gi [WordBoundary; lit "M"; lit "R"; optional [Space; Char ":"];
                      atLeast 1 [Digit]];
       replace := "[MRN-REDACTED]" |} ].

Record AuditEntry := {
  timestamp : Z;
  action : string;
  dataType : string;
  redacted : bool;
  originalLength : Z;
  redactedLength : Z
}.

Record Redaction := {
  redactedText : string;
  redactionCount : Z;
  dataTypesFound : list string
}.

(** The data type a rule stands for, read off its replacement token. *)
Definition dataTypeOf (replacement : string) : string :=
  if includes replacement "SSN" then "ssn"
  else if includes replacement "INSURANCE" then "insurance"
  else if includes replacement "PHONE" then "phone"
  else if includes replacement "CARD" then "credit_card"
  else if includes replacement "EMAIL" then "email"
  else if includes replacement "DOB" then "date_of_birth"
  else if includes replacement "MRN" then "medical_record"
  else "unknown".

(** The body of the [forEach] over the rules: the matches are counted on the
    original [text], the replacement is made in the text redacted so far. *)
Definition applyRule (text : string) (acc : Redaction) (rule : Rule) : Redaction :=
  match matchAll (pattern rule) text with
  | [] => acc
  | matches =>
      let dataType := dataTypeOf (replace rule) in
      {| redactedText := replaceAll (pattern rule) (redactedText acc) (replace rule);
         redactionCount := redactionCount acc + Z.of_nat (List.length matches);
         dataTypesFound :=
           if List.existsb (String.eqb dataType) (dataTypesFound acc)
           then dataTypesFound acc
           else (dataTypesFound acc ++ [dataType])%list |}
  end.

(** The [forEach] over the rules, from the text as it came in. *)
Definition applyRules (text : string) : Redaction :=
  List.fold_left (applyRule text) redactionRules
    {| redactedText := text; redactionCount := 0; dataTypesFound := [] |}.

(** [redactPHI] on the audit log; [now] is the clock read by [new Date()]. *)
Definition redactPHI (auditLog : list AuditEntry) (now : Z) (text : string)
  : Redaction * list AuditEntry :=
  let result := applyRules text in
  let entry := {|
    timestamp := now;
    action := "phi_redaction";
    dataType := join ", " (dataTypesFound result);
    redacted := 0 <? redactionCount result;
    originalLength := Z.of_nat (String.length text);
    redactedLength := Z.of_nat (String.length (redactedText result))
  |} in
  (result, (auditLog ++ [entry])%list).

(** The result of [validateHIPAACompliance]. *)
Record Compliance := {
  isCompliant : bool;
  violations : list string;
  recommendations : list string
}.

(** [validateHIPAACompliance]: the transcript is redacted (and the audit log
    written) and the findings are turned into violations. *)
Definition validateHIPAACompliance (auditLog : list AuditEntry) (now : Z) (transcript : string)
  : Compliance * list AuditEntry :=
  let '(redactionResult, auditLog) := redactPHI auditLog now transcript in
  let found (dataType : string) :=
    List.existsb (String.eqb dataType) (dataTypesFound redactionResult) in
  let violations1 :=
    if 0 <? redactionCount redactionResult
    then [ numberToString (redactionCount redactionResult) ++ " PHI elements detected and redacted" ]
    else [] in
  let recommendations1 :=
    if 0 <? redactionCount redactionResult
    then [ "Review staff training on PHI handling" ] else [] in
  let violations2 := if found "ssn" then [ "Social Security Number detected" ] else [] in
  let recommendations2 :=
    if found "ssn" then [ "Implement SSN collection protocols" ] else [] in
  let violations3 :=
    if found "credit_card" then [ "Credit card information detected" ] else [] in
  let recommendations3 :=
    if found "credit_card" then [ "Use secure payment processing only" ] else [] in
  let violations := (violations1 ++ violations2 ++ violations3)%list in
  ({| isCompliant := (List.length violations =? 0)%nat;
      violations := violations;
      recommendations := (recommendations1 ++ recommendations2 ++ recommendations3)%list |},
   auditLog).

(** The data types the rules stand for. *)
Definition dataTypes : list string :=
  [ "ssn"; "insurance"; "phone"; "credit_card"; "email"; "date_of_birth"; "medical_record" ].

(** What the loop over the rules keeps: the count is not negative and is 0
    exactly while no data type was found; the data types found are distinct
    and are names of [dataTypes]. *)
Definition consistent (acc : Redaction) : Prop :=
  0 <= redactionCount acc /\
  (redactionCount acc = 0 <-> dataTypesFound acc = []) /\
  List.NoDup (dataTypesFound acc) /\
  (forall t, In t (dataTypesFound acc) -> In t dataTypes).

End HIPAAShield.

(** ** src/services/noShowDefender.ts *)

Module NoShowDefender.
Import JS.

Inductive Priority := emergency | new_patient | regular.

Record WaitlistPatient := {
  id : string;
  name : string;
  phone : string;
  preferredTimes : list string;
  priority : Priority;
  addedAt : Z                     (* [Date.getTime()], milliseconds *)
}.

Record NoShowDefenderConfig := {
  reminders_sms_24h : bool;
  reminders_sms_2h : bool;
  reminders_voice_1h : bool;
  waitlist_autoFill : bool;
  waitlist_priority : list string
}.

(** The two static fields of the class. *)
Record State := {
  config : NoShowDefenderConfig;
  waitlist : list WaitlistPatient
}.

Definition initialConfig : NoShowDefenderConfig := {|
  reminders_sms_24h := true;
  reminders_sms_2h := true;
  reminders_voice_1h := true;
  waitlist_autoFill := true;
  waitlist_priority := [ "emergency"; "new_patient"; "regular" ]
|}.

(** The seeded waitlist; [loaded] is [Date.now()] when the class is loaded. *)
Definition initialWaitlist (loaded : Z) : list WaitlistPatient :=
  [ {| id := "1"; name := "Sarah Johnson"; phone := "555-0123";
       preferredTimes := [ "morning"; "afternoon" ]; priority := emergency;
       addedAt := loaded - 2 * 60 * 60 * 1000 |};
    {| id := "2"; name := "Mike Chen"; phone := "555-0456";
       preferredTimes := [ "afternoon" ]; priority := new_patient;
       addedAt := loaded - 24 * 60 * 60 * 1000 |};
    {| id := "3"; name := "Emma Davis"; phone := "555-0789";
       preferredTimes := [ "morning" ]; priority := regular;
       addedAt := loaded - 3 * 60 * 60 * 1000 |} ].

Definition initialState (loaded : Z) : State :=
  {| config := initialConfig; waitlist := initialWaitlist loaded |}.

Record CancellationResult := {
  filled : bool;
  patient : option WaitlistPatient;
  revenueRecovered : Z
}.

Definition priorityOrder (p : Priority) : Z :=
  match p with emergency => 0 | new_patient => 1 | regular => 2 end.

(** The comparator handed to [sort]. *)
Definition compare (a b : WaitlistPatient) : Z :=
  let aPriority := priorityOrder (priority a) in
  let bPriority := priorityOrder (priority b) in
  if negb (aPriority =? bPriority) then aPriority - bPriority
  else addedAt a - addedAt b.

Definition patientAvailable (timeSlot : string) (p : WaitlistPatient) : bool :=
  List.existsb (fun time => includes timeSlot time) (preferredTimes p).

Definition slotValues : list (string * Z) :=
  [ ("morning", 380); ("afternoon", 420); ("evening", 350); ("emergency", 580) ].

Definition calculateRevenueRecovered (slot : string) : Z :=
  match List.find (fun entry => includes (toLowerCase slot) (fst entry)) slotValues with
  | Some (_, value) => value
  | None => 400
  end.

(** [handleCancellation]. The sort is in place, so the waitlist is left
    sorted on every path behind the [autoFill] guard; the loop with its
    early return is [List.find] on the sorted waitlist. The console output
    and the confirmation SMS (a console message) are not part of the state. *)
Definition handleCancellation (st : State) (appointmentSlot : string)
  : CancellationResult * State :=
  if negb (waitlist_autoFill (config st)) then
    ({| filled := false; patient := None; revenueRecovered := 0 |}, st)
  else
    let sortedWaitlist := sort compare (waitlist st) in
    let timeSlot := toLowerCase appointmentSlot in
    match List.find (patientAvailable timeSlot) sortedWaitlist with
    | Some chosen =>
        let remaining :=
          List.filter (fun p => negb (String.eqb (id p) (id chosen))) sortedWaitlist in
        ({| filled := true; patient := Some chosen;
            revenueRecovered := calculateRevenueRecovered appointmentSlot |},
         {| config := config st; waitlist := remaining |})
    | None =>
        ({| filled := false; patient := None; revenueRecovered := 0 |},
         {| config := config st; waitlist := sortedWaitlist |})
    end.

(** The argument of [addToWaitlist]: a patient without [id] and [addedAt]. *)
Record NewPatient := {
  new_name : string;
  new_phone : string;
  new_preferredTimes : list string;
  new_priority : Priority
}.

(** [addToWaitlist]; [now] is the clock read by [Date.now()] and
    [new Date()]. *)
Definition addToWaitlist (st : State) (now : Z) (p : NewPatient) : State :=
  let newPatient := {|
    id := numberToString now;
    name := new_name p;
    phone := new_phone p;
    preferredTimes := new_preferredTimes p;
    priority := new_priority p;
    addedAt := now
  |} in
  {| config := config st; waitlist := waitlist st ++ [newPatient] |}.

(** An entry is eligible for a slot when one of its preferred times occurs
    in the lowercased slot description. *)
Definition eligible (appointmentSlot : string) (p : WaitlistPatient) : Prop :=
  mentions (toLowerCase appointmentSlot) (preferredTimes p).

(** Removal is by [id]: the entries that survive the booking of [chosen]. *)
Definition otherIds (chosen : WaitlistPatient) (l : list WaitlistPatient)
  : list WaitlistPatient :=
  List.filter (fun p => negb (String.eqb (id p) (id chosen))) l.

(** Two callers that join the seeded waitlist within one millisecond:
    [addToWaitlist] derives both ids from the same clock value. *)
Definition ana : NewPatient := {|
  new_name := "Ana Ruiz"; new_phone := "555-0101";
  new_preferredTimes := [ "evening" ]; new_priority := regular |}.

Definition ben : NewPatient := {|
  new_name := "Ben Ito"; new_phone := "555-0102";
  new_preferredTimes := [ "evening" ]; new_priority := regular |}.

Definition sameMillisecond : State :=
  addToWaitlist
    (addToWaitlist (initialState 1700000000000) 1700000360000 ana)
    1700000360000 ben.

(** [simulateCancellation]: one of three slots is cancelled; [pick] is the
    index [Math.floor(Math.random() * slots.length)], below 3. *)
Definition slots : list string :=
  [ "Tomorrow 10:00 AM - Cleaning"; "Today 2:30 PM - Consultation";
    "Tomorrow 9:00 AM - Emergency" ].

Definition simulateCancellation (st : State) (pick : nat) : State :=
  match List.nth_error slots pick with
  | Some randomSlot => snd (handleCancellation st randomSlot)
  | None => st
  end.

(** The times of the day a slot is valued by. *)
Definition timesOfDay : list string := [ "morning"; "afternoon"; "evening" ].

End NoShowDefender.

(** ** src/services/recallAutomator.ts: [processRecallCampaign] *)

Module RecallCampaign.
Import JS JSDate RecallAutomator.

Definition successRates (m : ContactMethod) : float :=
  match m with sms => 0.75 | email => 0.45 | call => 0.65 end%float.

Definition priorityMultiplier (p : RecallPriority) : float :=
  match p with high => 1.2 | medium => 1.0 | low => 0.8 end%float.

(** [contactPatient]; [random] is the value of [Math.random()]. For a
    procedure name that [Object.prototype] knows the rate is [NaN] and the
    comparison fails. The recall message is a console message. *)
Definition contactPatient (recall : PatientRecall) (random : float) : bool :=
  match getRecallConfig (procedure recall) with
  | Some config =>
      let baseSuccessRate := successRates (preferredContact recall) in
      let product := (baseSuccessRate * priorityMultiplier (priority config))%float in
      let finalSuccessRate := if (product <? 0.95)%float then product else 0.95%float in
      (random <? finalSuccessRate)%float
  | None => false
  end.

Record CampaignResult := {
  result_patientName : string;
  method : ContactMethod;
  success : bool;
  revenue : Z
}.

Record Campaign := {
  campaign_contacted : Z;
  campaign_scheduled : Z;
  potentialRevenue : Z;
  campaignResults : list CampaignResult
}.

(** The recalls paired with their positions, which stand for the identity
    of the objects: [filter] and [sort] hand on the objects themselves. *)
Fixpoint indexedFrom (k : nat) (l : list PatientRecall) : list (nat * PatientRecall) :=
  match l with
  | [] => []
  | r :: l' => (k, r) :: indexedFrom (S k) l'
  end.

(** The objects of [getDueRecalls], in its order. *)
Definition dueRecalls (patientRecalls : list PatientRecall) (today : Z) : list nat :=
  List.map fst
    (sort (fun a b => byNextDue (snd a) (snd b))
       (List.filter (fun ir => dueWithin30Days today (snd ir)) (indexedFrom 0 patientRecalls))).

(** The recall after a contact: one more attempt, scheduled on success. *)
Definition afterContact (success : bool) (recall : PatientRecall) : PatientRecall :=
  {| id := id recall; patientName := patientName recall; lastVisit := lastVisit recall;
     procedure := procedure recall; nextDue := nextDue recall;
     status := if success then scheduled else status recall;
     contactAttempts := contactAttempts recall + 1;
     preferredContact := preferredContact recall;
     estimatedRevenue := estimatedRevenue recall |}.

(** The loop of [processRecallCampaign] over the due objects; [draws n] is
    the value of the [n]-th call of [Math.random()], one per contact. *)
Fixpoint campaignLoop (due : list nat) (draws : nat -> float)
    (store : list PatientRecall) (acc : Campaign) : Campaign * list PatientRecall :=
  match due with
  | [] => (acc, store)
  | i :: rest =>
      match store !! i with
      | Some recall =>
          if contactAttempts recall <? 3 then
            let success := contactPatient recall (draws (Z.to_nat (campaign_contacted acc))) in
            let acc := {|
              campaign_contacted := campaign_contacted acc + 1;
              campaign_scheduled :=
                if success then campaign_scheduled acc + 1 else campaign_scheduled acc;
              potentialRevenue :=
                if success then potentialRevenue acc + estimatedRevenue recall
                else potentialRevenue acc;
              campaignResults :=
                (campaignResults acc ++
                 [ {| result_patientName := patientName recall;
                      method := preferredContact recall;
                      success := success;
                      revenue := if success then estimatedRevenue recall else 0 |} ])%list
            |} in
            campaignLoop rest draws (<[i := afterContact success recall]> store) acc
          else campaignLoop rest draws store acc
      | None => campaignLoop rest draws store acc
      end
  end.

(** [processRecallCampaign]: the result and the recalls after it. *)
Definition processRecallCampaign (patientRecalls : list PatientRecall) (today : Z)
    (draws : nat -> float) : Campaign * list PatientRecall :=
  campaignLoop (dueRecalls patientRecalls today) draws patientRecalls
    {| campaign_contacted := 0; campaign_scheduled := 0; potentialRevenue := 0;
       campaignResults := [] |}.

(** A recall the campaign contacts: due, and contacted less than 3 times. *)
Definition contactable (today : Z) (recall : PatientRecall) : bool :=
  dueWithin30Days today recall && (contactAttempts recall <? 3).

(** Whether the object at position [i] has attempts left. *)
Definition attemptsLeft (store : list PatientRecall) (i : nat) : bool :=
  match store !! i with
  | Some recall => contactAttempts recall <? 3
  | None => false
  end.

Definition successes (results : list CampaignResult) : Z :=
  Z.of_nat (List.length (List.filter success results)).

Definition totalRevenue (results : list CampaignResult) : Z :=
  List.fold_right (fun r sum => revenue r + sum) 0 results.

(** The recalls of the class as the source seeds them. *)
Definition seededRecalls : list PatientRecall :=
  [ {| id := "1"; patientName := "Sarah Johnson"; lastVisit := localDate 2024 2 15 0;
       procedure := "cleaning"; nextDue := localDate 2024 8 15 0; status := overdue;
       contactAttempts := 2; preferredContact := sms; estimatedRevenue := 180 |};
    {| id := "2"; patientName := "Mike Chen"; lastVisit := localDate 2024 1 20 0;
       procedure := "crown"; nextDue := localDate 2025 1 20 0; status := due;
       contactAttempts := 0; preferredContact := email; estimatedRevenue := 1200 |};
    {| id := "3"; patientName := "Emma Davis"; lastVisit := localDate 2023 12 10 0;
       procedure := "periodontal"; nextDue := localDate 2024 3 10 0; status := overdue;
       contactAttempts := 3; preferredContact := call; estimatedRevenue := 350 |};
    {| id := "4"; patientName := "John Smith"; lastVisit := localDate 2024 7 1 0;
       procedure := "cleaning"; nextDue := localDate 2025 1 1 0; status := due;
       contactAttempts := 0; preferredContact := sms; estimatedRevenue := 180 |} ].

End RecallCampaign.

(** ** src/services/dentalService.ts: fuzzy matching *)

Module FuzzyMatch.
Import JS.

Definition indicator (a b : ascii) : Z := if Ascii.eqb a b then 0 else 1.

(** Row 0 of the matrix, from column [k]: [k], [k + 1], ... *)
Fixpoint countFrom (k : Z) (str1 : string) : list Z :=
  k :: match str1 with
       | EmptyString => []
       | String _ rest => countFrom (k + 1) rest
       end.

(** The cells [matrix[j][i]], [matrix[j][i + 1]], ... of a row from the row
    above: [above] is [matrix[j - 1]] from column [i - 1], [left] is
    [matrix[j][i - 1]], [str1] is read from position [i - 1] and [c2] is
    [str2[j - 1]]. *)
Fixpoint fillRow (str1 : string) (c2 : ascii) (above : list Z) (left : Z) : list Z :=
  match str1, above with
  | String c1 rest, diagonal :: ((up :: _) as above') =>
      let cell := Z.min (Z.min (left + 1) (up + 1)) (diagonal + indicator c1 c2) in
      cell :: fillRow rest c2 above' cell
  | _, _ => []
  end.

(** The rows [j], [j + 1], ... of the matrix, one per character of [str2];
    the result is the last row. *)
Fixpoint matrixRows (str1 str2 : string) (above : list Z) (j : Z) : list Z :=
  match str2 with
  | EmptyString => above
  | String c2 rest => matrixRows str1 rest (j :: fillRow str1 c2 above j) (j + 1)
  end.

(** [levenshteinDistance]: the last cell of the last row. *)
Definition levenshteinDistance (str1 str2 : string) : Z :=
  List.last (matrixRows str1 str2 (countFrom 0 str1) 1) 0.

Definition len (s : string) : Z := Z.of_nat (String.length s).

(** The number [n] as a double; lengths and distances are far below 2^53. *)
Definition toFloat (n : Z) : float :=
  if n <? 0 then (- PrimFloat.of_uint63 (Uint63.of_Z (- n)))%float
  else PrimFloat.of_uint63 (Uint63.of_Z n).

(** [fuzzyMatch]: the share of the longer string that the edits leave. *)
Definition fuzzyMatch (str1 str2 : string) : float :=
  if String.eqb str1 EmptyString || String.eqb str2 EmptyString then 0%float
  else
    let longer := if len str2 <? len str1 then str1 else str2 in
    let shorter := if len str2 <? len str1 then str2 else str1 in
    if len longer =? 0 then 1%float
    else
      let editDistance := levenshteinDistance longer shorter in
      (toFloat (len longer - editDistance) / toFloat (len longer))%float.

(** The edit distance by its recurrence, read from the front of the
    strings: what the matrix tabulates. *)
Fixpoint editDistance (s t : string) : Z :=
  match s with
  | EmptyString => len t
  | String a s' =>
      (fix against (t : string) : Z :=
         match t with
         | EmptyString => len (String a s')
         | String b t' =>
             Z.min (Z.min (editDistance s' (String b t') + 1) (against t' + 1))
                   (editDistance s' t' + indicator a b)
         end) t
  end.

Fixpoint reverseOnto (s acc : string) : string :=
  match s with
  | EmptyString => acc
  | String c s' => reverseOnto s' (String c acc)
  end.

Definition reverse (s : string) : string := reverseOnto s EmptyString.

(** Row [q] of the matrix from the column of [p]: the distances of [p] and
    of its extensions by the characters of [str1], to [q]; [p] and [q] are
    the prefixes read so far, last character first. *)
Fixpoint rowOf (p str1 q : string) : list Z :=
  editDistance p q ::
  match str1 with
  | EmptyString => []
  | String c rest => rowOf (String c p) rest q
  end.

End FuzzyMatch.

(** ** config/dental and src/services/dentalService.ts: procedures *)

Module DentalProcedures.
Import JS DentalService FuzzyMatch.

Record ProcedureConfig := {
  duration : Z;
  cost : Z;
  description : string;
  keywords : list string;
  providers : option (list string);
  priority : option string;
  requires : option (list string)
}.

(** [procedureConfig], in the order of its keys. *)
Definition procedureConfig : list (string * ProcedureConfig) :=
  [ ("cleaning",
     {| duration := 45; cost := 120;
        description := "Regular dental cleaning and examination";
        keywords := [ "cleaning"; "hygiene"; "polish"; "scale" ];
        providers := Some [ "hygienist" ]; priority := None; requires := None |});
    ("emergency",
     {| duration := 60; cost := 200;
        description := "Emergency dental care";
        keywords := [ "pain"; "broken"; "urgent"; "swollen"; "bleeding"; "hurt"; "ache" ];
        providers := None; priority := Some "high"; requires := None |});
    ("surgery",
     {| duration := 120; cost := 800;
        description := "Oral surgery procedures";
        keywords := [ "surgery"; "extraction"; "implant"; "oral surgery" ];
        providers := None; priority := None; requires := Some [ "xray" ] |});
    ("consultation",
     {| duration := 30; cost := 80;
        description := "Initial consultation";
        keywords := [ "consultation"; "checkup"; "exam"; "evaluation" ];
        providers := Some [ "dentist" ]; priority := None; requires := None |});
    ("filling",
     {| duration := 60; cost := 150;
        description := "Dental filling procedure";
        keywords := [ "filling"; "cavity"; "restoration"; "decay" ];
        providers := Some [ "dentist" ]; priority := None; requires := None |});
    ("crown",
     {| duration := 90; cost := 1200;
        description := "Dental crown procedure";
        keywords := [ "crown"; "cap"; "cover"; "restoration" ];
        providers := Some [ "dentist" ]; priority := None; requires := None |});
    ("periodontal",
     {| duration := 75; cost := 350;
        description := "Periodontal treatment";
        keywords := [ "gum"; "periodontal"; "deep cleaning"; "scaling"; "root planing" ];
        providers := Some [ "periodontist"; "hygienist" ]; priority := None;
        requires := None |}) ].

(** [Object.keys(procedureConfig)] *)
Definition procedures : list string := List.map fst procedureConfig.

(** [procedureConfig[key]] among the own entries. *)
Definition ownConfig (key : string) : option ProcedureConfig :=
  option_map snd (List.find (fun entry => String.eqb (fst entry) key) procedureConfig).

(** A keyword is hit when it occurs in the utterance, or when the whole
    utterance is close to it: [fuzzyMatch] above the threshold. *)
Definition keywordHit (threshold : float) (cleanUtterance keyword : string) : bool :=
  includes cleanUtterance (toLowerCase keyword)
  || (threshold <? fuzzyMatch cleanUtterance (toLowerCase keyword))%float.

(** [identifyProcedure]; [now] is the clock of [logError]. The tests on
    [procedureConfig] and on the [keywords] of its entries ask for what the
    constant has. *)
Definition identifyProcedure (st : State) (now : Z) (utterance : string)
  : option string * State :=
  if String.eqb utterance EmptyString then
    (None, logError st now "identifyProcedure" "Invalid utterance parameter" low)
  else
    let cleanUtterance := toLowerCase (trim utterance) in
    if (String.length cleanUtterance =? 0)%nat then (None, st)
    else
      match List.find (fun procedure => includes cleanUtterance (toLowerCase procedure))
                      procedures with
      | Some procedure => (Some procedure, st)
      | None =>
          match List.find
                  (fun entry => List.existsb (keywordHit 0.85 cleanUtterance)
                                  (keywords (snd entry)))
                  procedureConfig with
          | Some entry => (Some (fst entry), st)
          | None => (None, st)
          end
      end.

(** What [getProcedureInfo] returns: a configuration, [Object.prototype]
    itself (for the name [__proto__], an object that passes both tests), or
    [null]; a function inherited from [Object.prototype] fails the test
    [typeof config !== 'object']. *)
Inductive ProcedureInfo :=
| Config (config : ProcedureConfig)
| ObjectPrototype
| Null.

Definition getProcedureInfo (st : State) (now : Z) (procedure : string)
  : ProcedureInfo * State :=
  if String.eqb procedure EmptyString then
    (Null, logError st now "getProcedureInfo" "Invalid procedure parameter" low)
  else
    let normalizedProcedure := trim (toLowerCase procedure) in
    match ownConfig normalizedProcedure with
    | Some config => (Config config, st)
    | None =>
        if List.existsb (String.eqb normalizedProcedure) objectPrototypeKeys then
          if String.eqb normalizedProcedure "__proto__" then (ObjectPrototype, st)
          else (Null, logError st now "getProcedureInfo"
                        ("Invalid config for procedure: " ++ procedure) medium)
        else (Null, logError st now "getProcedureInfo"
                      ("Procedure not found: " ++ procedure) low)
    end.

End DentalProcedures.

(** ** src/services/dentalService.ts: [handleEmergency] *)

Module DentalEmergency.
Import JS JSDate DentalConfig DentalService FuzzyMatch DentalProcedures.

(** What a call of an outside service does. *)
Inductive Thrown :=
| ErrorObject (message : string)
| OtherValue.

Inductive Service :=
| Missing
| Responds
| Throws (thrown : Thrown).

(** The browser as the service sees it: [window], if defined, with its
    [dentalPMS] and [smsService]. What these services and the queue in
    [localStorage] receive is not read back by the service and is left out. *)
Record Window := {
  dentalPMS : Service;
  smsService : Service
}.

Definition Environment := option Window.

(** No service of the environment throws. *)
Definition quiet (env : Environment) : bool :=
  match env with
  | Some window =>
      match dentalPMS window, smsService window with
      | Throws _, _ | _, Throws _ => false
      | _, _ => true
      end
  | None => true
  end.

Definition messageOf (thrown : Thrown) (fallback : string) : string :=
  match thrown with
  | ErrorObject message => message
  | OtherValue => fallback
  end.

Inductive UrgencyLevel := highUrgency | mediumUrgency.

Record AppointmentDetails := {
  appointmentTime : Date;
  urgencyLevel : UrgencyLevel;
  symptoms : list string;
  estimatedDuration : Z;
  patientInstructions : list string
}.

Definition highUrgencyKeywords : list string :=
  [ "unbearable"; "excruciating"; "severe"; "can't sleep"; "bleeding" ].

(** [generateEmergencyInstructions] *)
Definition generateEmergencyInstructions (keywords : list string) : list string :=
  let mention (word : string) := List.existsb (fun k => includes k word) keywords in
  ((if mention "pain"
    then [ "Take 600mg ibuprofen + 500mg acetaminophen for pain relief";
           "Apply cold compress for 15 minutes on, 15 minutes off" ] else [])
   ++ (if mention "swollen"
       then [ "Keep head elevated when lying down";
              "Avoid hot compresses on swollen areas" ] else [])
   ++ (if mention "bleeding"
       then [ "Apply gentle pressure with clean gauze";
              "Avoid spitting or rinsing vigorously" ] else [])
   ++ [ "Avoid chewing on affected area"; "Rinse gently with warm salt water" ])%list.

(** [notifyPracticeManagementSystem] *)
Definition notifyPracticeManagementSystem (st : State) (env : Environment) (now : Z) : State :=
  match env with
  | Some window =>
      match dentalPMS window with
      | Throws thrown =>
          logError st now "PMS notification"
            (messageOf thrown "Unknown error in PMS notification") medium
      | _ => st
      end
  | None => st
  end.

(** [sendSMSMessage] with the message of [sendEmergencySMS], which is not
    empty; without an SMS service the message is queued in [localStorage]. *)
Definition sendSMSMessage (st : State) (env : Environment) (now : Z) : State :=
  match env with
  | Some window =>
      match smsService window with
      | Throws thrown =>
          logError st now "SMS sending" (messageOf thrown "Unknown error in SMS sending") medium
      | _ => st
      end
  | None => st
  end.

(** [sendEmergencySMS] *)
Definition sendEmergencySMS (st : State) (env : Environment) (now : Z)
    (appointmentDetails : option AppointmentDetails) : State :=
  match appointmentDetails with
  | None => logError st now "sendEmergencySMS" "Invalid appointment details for SMS" medium
  | Some details =>
      match appointmentTime details with
      | Some _ => sendSMSMessage st env now
      | None => logError st now "sendEmergencySMS" "Invalid appointment time for SMS" medium
      end
  end.

(** The message of the [RangeError] of [toISOString] on an Invalid Date (V8). *)
Definition invalidTimeMessage : string := "Invalid time value".

(** The slot of [bookEmergencyAppointment]: [hoursToAdd] hours from now,
    moved to 8:00 of the following day when its hour is before 8 or after 20. *)
Definition emergencySlot (now hoursToAdd : Z) : Completion Date :=
  let emergencySlot := current now in
  let emergencySlot :=
    setHours emergencySlot (option_map (fun h => h + hoursToAdd) (getHours emergencySlot)) in
  match getHours emergencySlot with
  | None => Throw "Failed to calculate emergency appointment time"
  | Some hour =>
      let emergencySlot :=
        if (hour <? 8) || (20 <? hour) then
          let emergencySlot :=
            setDate emergencySlot (option_map (fun d => d + 1) (getDate emergencySlot)) in
          setHours4 emergencySlot 8 0 0 0
        else emergencySlot in
      match emergencySlot with
      | Some _ => Return emergencySlot
      | None => Throw invalidTimeMessage
      end
  end.

(** The time the slot settles on, from the time [ahead] that lies
    [hoursToAdd] hours after the clock: [ahead] itself within the business
    hours, 8:00 of the day after [ahead] otherwise. *)
Definition settled (ahead : Z) : Z :=
  if (HourFromTime ahead <? 8) || (20 <? HourFromTime ahead)
  then MakeDate (Day ahead + 1) (8 * msPerHour)
  else ahead.

Record BookingResult := {
  success : bool;
  appointmentDetails : option AppointmentDetails;
  bookingError : option string
}.

Definition urgencyOf (keywords : list string) : UrgencyLevel :=
  if List.existsb
       (fun keyword => List.existsb (fun urgent => includes keyword urgent) highUrgencyKeywords)
       keywords
  then highUrgency else mediumUrgency.

Definition hoursToAdd (urgency : UrgencyLevel) : Z :=
  match urgency with highUrgency => 2 | mediumUrgency => 6 end.

(** [bookEmergencyAppointment]; the utterance it is handed is not used. *)
Definition bookEmergencyAppointment (st : State) (env : Environment) (now : Z)
    (keywords : list string) : BookingResult * State :=
  let urgency := urgencyOf keywords in
  match emergencySlot now (hoursToAdd urgency) with
  | Return emergencySlot =>
      let details := {|
        appointmentTime := emergencySlot;
        urgencyLevel := urgency;
        symptoms := keywords;
        estimatedDuration := 60;
        patientInstructions := generateEmergencyInstructions keywords
      |} in
      ({| success := true; appointmentDetails := Some details; bookingError := None |},
       notifyPracticeManagementSystem st env now)
  | Throw errorMessage =>
      ({| success := false; appointmentDetails := None; bookingError := Some errorMessage |},
       logError st now "bookEmergencyAppointment" errorMessage high)
  end.

(** The keywords of the configuration that the utterance hits. *)
Definition keywordMatches (cleanUtterance : string) : list string :=
  List.filter (keywordHit 0.8 cleanUtterance) DentalConfig.emergencyKeywords.

(** A word without white space at its start, and at its end. *)
Definition startsBlack (word : string) : bool :=
  match word with
  | EmptyString => false
  | String c _ => negb (isWhiteSpace c)
  end.

Fixpoint endsBlack (word : string) : bool :=
  match word with
  | EmptyString => false
  | String c EmptyString => negb (isWhiteSpace c)
  | String _ rest => endsBlack rest
  end.

(** [handleEmergency]; the clock shows [now] throughout the call. The test
    on [emergencyKeywords] asks for a non-empty array, which the constant
    is; nothing throws inside the filter, whose [catch] clause is not
    reached; and [bookEmergencyAppointment] catches what it throws. *)
Definition handleEmergency (st : State) (env : Environment) (now : Z) (utterance : string)
  : bool * State :=
  let '(ready, st) := if initialized st then (true, st) else initialize st now in
  if negb ready then
    (false, logError st now "handleEmergency" "Service not properly initialized" high)
  else if String.eqb utterance EmptyString then
    (false, logError st now "handleEmergency"
              "Invalid utterance parameter: must be a non-empty string" medium)
  else
    let cleanUtterance := toLowerCase (trim utterance) in
    if (String.length cleanUtterance =? 0)%nat then
      (false, logError st now "handleEmergency" "Empty utterance provided" low)
    else
      let keywordMatches := keywordMatches cleanUtterance in
      if (0 <? List.length keywordMatches)%nat then
        let '(emergencyResult, st) := bookEmergencyAppointment st env now keywordMatches in
        if success emergencyResult then
          (true, sendEmergencySMS st env now (appointmentDetails emergencyResult))
        else
          (false, logError st now "Emergency booking"
                    (match bookingError emergencyResult with
                     | Some message => if String.eqb message EmptyString
                                       then "Unknown booking error" else message
                     | None => "Unknown booking error"
                     end) high)
      else (false, st).

End DentalEmergency.

(** ** hooks/useVapi: the transcript *)

Module Transcript.
Import JS UseVapi.

Inductive Speaker := user | assistant.

Record TranscriptEntry := {
  id : string;
  speaker : Speaker;
  text : string;
  timestamp : Z;
  confidence : float
}.

(** The members of a message of type [transcript] the handler reads. *)
Record Message := {
  role : option string;
  transcript : option string;
  message_text : option string;
  message_confidence : option float
}.

(** [message.confidence || 1]: zero and [NaN] are falsy. *)
Definition confidenceOf (value : option float) : float :=
  match value with
  | Some c => if (c =? 0)%float || PrimFloat.is_nan c then 1%float else c
  | None => 1%float
  end.

(** The entry made of a message; [now] is the clock and [suffix] the text
    drawn from [Math.random()]. *)
Definition newEntry (now : Z) (suffix : string) (message : Message) : TranscriptEntry :=
  {| id := numberToString now ++ "-" ++ suffix;
     speaker := if equals "user" (role message) then user else assistant;
     text :=
       match orElse (transcript message) (orElse (message_text message) (Some EmptyString)) with
       | Some t => t
       | None => EmptyString
       end;
     timestamp := now;
     confidence := confidenceOf (message_confidence message) |}.

Definition sameSpeaker (a b : Speaker) : bool :=
  match a, b with
  | user, user | assistant, assistant => true
  | _, _ => false
  end.

(** The test of the handler for a duplicate of [newEntry] among the entries. *)
Definition isDuplicateOf (newEntry entry : TranscriptEntry) : bool :=
  String.eqb (text entry) (text newEntry)
  && sameSpeaker (speaker entry) (speaker newEntry)
  && (Z.abs (timestamp entry - timestamp newEntry) <? 1000).

(** [updated.slice(-50)] *)
Definition lastFifty {A : Type} (updated : list A) : list A :=
  List.skipn (List.length updated - 50) updated.

(** The update handed to [setTranscript]. *)
Definition addEntry (prev : list TranscriptEntry) (newEntry : TranscriptEntry)
  : list TranscriptEntry :=
  if List.existsb (isDuplicateOf newEntry) prev then prev
  else lastFifty (prev ++ [newEntry])%list.

(** The transcript after the messages of a call, each with the clock at its
    arrival and its random suffix; [startCall] empties the transcript. *)
Definition received (messages : list (Z * string * Message)) : list TranscriptEntry :=
  List.fold_left
    (fun prev '(now, suffix, message) => addEntry prev (newEntry now suffix message))
    messages [].

(** No entry repeats an earlier one: same text and speaker within a second. *)
Definition noRepeats (entries : list TranscriptEntry) : Prop :=
  List.ForallOrdPairs (fun earlier later => isDuplicateOf later earlier = false) entries.

End Transcript.

(** ** src/vapi-integration.js: the handler of the [message] event *)

Module VapiIntegration.
Import JS UseVapi EmergencyTriage RegExp HIPAAShield.

(** The members of a message the handler reads. *)
Record Message := {
  type : option string;
  role : option string;
  transcript : string
}.

(** The handler registered with [vapi.on('message', ...)]: the transcript of
    the user is redacted and the redacted text goes to the triage. The
    result tells whether the triage booked an emergency. *)
Definition onMessage (auditLog : list AuditEntry) (now : Z) (message : Message)
  : bool * list AuditEntry :=
  if equals "transcript" (type message) && equals "user" (role message) then
    let '(redactionResult, auditLog) := redactPHI auditLog now (transcript message) in
    (handleEmergencyUtterance (redactedText redactionResult), auditLog)
  else (false, auditLog).

(** The character [c] does not occur in [word]. *)
Fixpoint avoids (c : ascii) (word : string) : bool :=
  match word with
  | EmptyString => true
  | String a rest => negb (Ascii.eqb a c) && avoids c rest
  end.

End VapiIntegration.

(* ================================================================== *)
(** * Part II: properties                                              *)
(* ================================================================== *)

Section StringFacts.
Import JS.

Lemma startsWith_spec (s p : string) :
  startsWith s p = true <-> exists t, s = p ++ t.
Proof.
  revert s. induction p as [|a p IH]; intros s; simpl.
  - split; [intros _; now exists s | reflexivity].
  - destruct s as [|b s].
    + split; [discriminate | intros [t Ht]; discriminate].
    + rewrite andb_true_iff, Ascii.eqb_eq, IH. split.
      * intros [-> [t ->]]. now exists t.
      * intros [t Ht]. injection Ht as -> ->. split; [reflexivity | now exists t].
Qed.

Lemma includes_spec (s kw : string) :
  includes s kw = true <-> occursIn kw s.
Proof.
  unfold occursIn. induction s as [|b s IH]; simpl.
  - rewrite orb_false_r, startsWith_spec. split.
    + intros [t Ht]. now exists EmptyString, t.
    + intros [pre [post H]]. destruct pre; [now exists post | discriminate].
  - rewrite orb_true_iff, startsWith_spec, IH. split.
    + intros [[t Ht] | [pre [post Ht]]].
      * now exists EmptyString, t.
      * exists (String b pre), post. simpl. now rewrite Ht.
    + intros [pre [post H]]. destruct pre as [|c pre]; simpl in H.
      * left. now exists post.
      * right. injection H as _ ->. now exists pre, post.
Qed.

Lemma includes_false_spec (s kw : string) :
  includes s kw = false <-> ~ occursIn kw s.
Proof.
  rewrite <- includes_spec. destruct (includes s kw); split; congruence.
Qed.

Example toLowerCase_mixed : toLowerCase "My Tooth HURTS" = "my tooth hurts".
Proof. reflexivity. Qed.

Example includes_inner : includes "no pain at all" "pain" = true.
Proof. reflexivity. Qed.

Example trim_both_ends : trim "  Deep Cleaning  " = "Deep Cleaning".
Proof. reflexivity. Qed.

End StringFacts.

Section TriageFacts.
Import JS EmergencyTriage.

Lemma some_included_spec (lower : string) (words : list string) :
  some_included lower words = true <-> exists w, In w words /\ occursIn w lower.
Proof.
  unfold some_included. rewrite existsb_exists.
  split; intros [w [Hin Hw]]; exists w; split; auto; now apply includes_spec.
Qed.

Lemma some_included_false (lower : string) (words : list string) :
  some_included lower words = false -> ~ mentions lower words.
Proof.
  intros H Hm. apply some_included_spec in Hm. congruence.
Qed.

Lemma foundKeywords_nonempty (lower : string) :
  foundKeywords lower <> [] <-> exists kw, In kw emergencyKeywords /\ occursIn kw lower.
Proof.
  unfold foundKeywords. split.
  - intros Hne. destruct (List.filter _ _) as [|kw rest] eqn:E; [congruence|].
    assert (Hin : In kw (List.filter (fun keyword => includes lower keyword) emergencyKeywords))
      by (rewrite E; now left).
    apply filter_In in Hin as [Hin Hinc]. exists kw. split; [assumption | now apply includes_spec].
  - intros [kw [Hin Hocc]] E.
    assert (H : In kw (List.filter (fun keyword => includes lower keyword) emergencyKeywords)).
    { apply filter_In. split; [assumption | now apply includes_spec]. }
    rewrite E in H. destruct H.
Qed.

Lemma analyzeEmergency_isEmergency (u : string) :
  isEmergency (analyzeEmergency u) = true <-> foundKeywords (toLowerCase u) <> [].
Proof.
  unfold analyzeEmergency.
  destruct (foundKeywords (toLowerCase u)) as [|kw rest]; simpl.
  - split; [discriminate | congruence].
  - split; [discriminate | reflexivity].
Qed.

(** C1. [analyzeEmergency] reports an emergency exactly when the lowercased
    utterance contains one of the configured emergency keywords as a
    substring; when it contains none, the pain level and the urgency score
    are 0 and the list of symptoms is empty. *)
Theorem analyzeEmergency_keyword_iff (u : string) :
  (isEmergency (analyzeEmergency u) = true <->
     exists kw, In kw emergencyKeywords /\ occursIn kw (toLowerCase u)) /\
  ((forall kw, In kw emergencyKeywords -> ~ occursIn kw (toLowerCase u)) ->
     isEmergency (analyzeEmergency u) = false /\
     painLevel (analyzeEmergency u) = 0 /\
     urgencyScore (analyzeEmergency u) = 0 /\
     symptoms (analyzeEmergency u) = []).
Proof.
  split.
  - rewrite analyzeEmergency_isEmergency. apply foundKeywords_nonempty.
  - intros Hnone.
    assert (E : foundKeywords (toLowerCase u) = []).
    { destruct (foundKeywords (toLowerCase u)) as [|kw rest] eqn:E; [reflexivity|].
      exfalso. assert (Hne : foundKeywords (toLowerCase u) <> []) by (rewrite E; discriminate).
      apply foundKeywords_nonempty in Hne as [k [Hin Hocc]]. exact (Hnone k Hin Hocc). }
    unfold analyzeEmergency. rewrite E. simpl. repeat split.
Qed.

Lemma analyzeEmergency_keyword_iff_witness :
  (forall kw, In kw emergencyKeywords -> ~ occursIn kw (toLowerCase "Hello, I would like a CLEANING")) /\
  isEmergency (analyzeEmergency "Hello, I would like a CLEANING") = false /\
  painLevel (analyzeEmergency "Hello, I would like a CLEANING") = 0 /\
  urgencyScore (analyzeEmergency "Hello, I would like a CLEANING") = 0 /\
  symptoms (analyzeEmergency "Hello, I would like a CLEANING") = [].
Proof.
  assert (Hnone : forall kw, In kw emergencyKeywords ->
                    ~ occursIn kw (toLowerCase "Hello, I would like a CLEANING")).
  { intros kw Hin. apply includes_false_spec.
    simpl in Hin. repeat (destruct Hin as [<- | Hin]; [reflexivity|]). destruct Hin. }
  split; [exact Hnone|].
  exact (proj2 (analyzeEmergency_keyword_iff "Hello, I would like a CLEANING") Hnone).
Defined.

Lemma painLevelOf_cases (lower : string) :
  (painLevelOf lower = 9 /\ mentions lower (severe painLevelKeywords)) \/
  (painLevelOf lower = 6 /\ ~ mentions lower (severe painLevelKeywords) /\
     mentions lower (moderate painLevelKeywords)) \/
  (painLevelOf lower = 3 /\ ~ mentions lower (severe painLevelKeywords) /\
     ~ mentions lower (moderate painLevelKeywords) /\
     mentions lower (mild painLevelKeywords)) \/
  (painLevelOf lower = 5 /\ ~ mentions lower (severe painLevelKeywords) /\
     ~ mentions lower (moderate painLevelKeywords) /\
     ~ mentions lower (mild painLevelKeywords)).
Proof.
  unfold painLevelOf.
  destruct (some_included lower (severe painLevelKeywords)) eqn:Hs.
  { left. split; [reflexivity | now apply some_included_spec]. }
  apply some_included_false in Hs.
  destruct (some_included lower (moderate painLevelKeywords)) eqn:Hm.
  { right; left. repeat split; [assumption | now apply some_included_spec]. }
  apply some_included_false in Hm.
  destruct (some_included lower (mild painLevelKeywords)) eqn:Hl.
  { right; right; left. repeat split; [assumption .. | now apply some_included_spec]. }
  apply some_included_false in Hl.
  right; right; right. repeat split; assumption.
Qed.

Lemma analyzeEmergency_painLevel_eq (u : string) :
  isEmergency (analyzeEmergency u) = true ->
  painLevel (analyzeEmergency u) = painLevelOf (toLowerCase u).
Proof.
  unfold analyzeEmergency.
  destruct (foundKeywords (toLowerCase u)); simpl; [discriminate | reflexivity].
Qed.

(** C4, as the code has it. When [analyzeEmergency] classifies the utterance
    as an emergency, the pain level is one of 3, 5, 6 and 9: 9 when a severe
    keyword occurs in the lowercased utterance, else 6 when a moderate one
    does, else 3 when a mild one does, and the default 5 when no keyword of
    the three sets occurs; the three keyword sets are pairwise disjoint. *)
Theorem analyzeEmergency_painLevel_tiers (u : string) :
  isEmergency (analyzeEmergency u) = true ->
  let lower := toLowerCase u in
  let pain := painLevel (analyzeEmergency u) in
  ((pain = 9 /\ mentions lower (severe painLevelKeywords)) \/
   (pain = 6 /\ ~ mentions lower (severe painLevelKeywords) /\
      mentions lower (moderate painLevelKeywords)) \/
   (pain = 3 /\ ~ mentions lower (severe painLevelKeywords) /\
      ~ mentions lower (moderate painLevelKeywords) /\
      mentions lower (mild painLevelKeywords)) \/
   (pain = 5 /\ ~ mentions lower (severe painLevelKeywords) /\
      ~ mentions lower (moderate painLevelKeywords) /\
      ~ mentions lower (mild painLevelKeywords))) /\
  List.NoDup (severe painLevelKeywords ++ moderate painLevelKeywords ++ mild painLevelKeywords).
Proof.
  intros He lower pain. split.
  - subst pain lower. rewrite (analyzeEmergency_painLevel_eq u He).
    apply painLevelOf_cases.
  - apply NoDup_ListNoDup, (bool_decide_unpack _). vm_compute. reflexivity.
Qed.

Lemma analyzeEmergency_painLevel_tiers_witness :
  isEmergency (analyzeEmergency "My tooth hurts a little") = true /\
  painLevel (analyzeEmergency "My tooth hurts a little") = 6.
Proof.
  split; [reflexivity|].
  destruct (analyzeEmergency_painLevel_tiers "My tooth hurts a little" eq_refl)
    as [[[H _] | [[H _] | [[H _] | [H _]]]] _];
    first [exact H | discriminate H].
Defined.

(** C4, as the spec words it, fails: an utterance with an emergency keyword
    and no keyword of the severe, moderate or mild set gets the default
    pain level 5, which is none of 3, 6 and 9. *)
Lemma analyzeEmergency_default_pain_5 :
  isEmergency (analyzeEmergency "I have pain") = true /\
  painLevel (analyzeEmergency "I have pain") = 5 /\
  ~ In (painLevel (analyzeEmergency "I have pain")) [3; 6; 9].
Proof.
  repeat split. vm_compute. intros [H | [H | [H | []]]]; discriminate H.
Qed.

Lemma painLevelOf_bounds (lower : string) : 3 <= painLevelOf lower <= 9.
Proof.
  unfold painLevelOf.
  repeat match goal with |- context [if ?b then _ else _] => destruct b end; lia.
Qed.

(** C5. The urgency score returned by [analyzeEmergency] lies in [0, 100]
    for every utterance. *)
Theorem analyzeEmergency_urgencyScore_range (u : string) :
  0 <= urgencyScore (analyzeEmergency u) <= 100.
Proof.
  unfold analyzeEmergency.
  destruct (0 <? Z.of_nat (List.length (foundKeywords (toLowerCase u)))); simpl; [|lia].
  pose proof (painLevelOf_bounds (toLowerCase u)) as Hp.
  pose proof (Nat2Z.is_nonneg (List.length (foundKeywords (toLowerCase u)))) as Hn.
  destruct (includes (toLowerCase u) "since last night" || includes (toLowerCase u) "all night");
    lia.
Qed.

End TriageFacts.

(** ** Sorting with a comparator *)

Section SortFacts.
Import JS.
Context {A : Type} (cmp : A -> A -> Z).

Lemma insertSorted_perm (x : A) (l : list A) :
  Permutation (insertSorted cmp x l) (x :: l).
Proof.
  induction l as [|y l IH]; simpl; [reflexivity|].
  destruct (cmp x y <=? 0); [reflexivity|].
  rewrite IH. apply perm_swap.
Qed.

Lemma sort_perm (l : list A) : Permutation (sort cmp l) l.
Proof.
  unfold sort. induction l as [|x l IH]; simpl; [reflexivity|].
  rewrite insertSorted_perm. now constructor.
Qed.

Lemma sort_In (l : list A) (x : A) : In x (sort cmp l) <-> In x l.
Proof.
  split; apply Permutation_in; [| symmetry]; apply sort_perm.
Qed.

Lemma filter_perm (f : A -> bool) (l l' : list A) :
  Permutation l l' -> Permutation (List.filter f l) (List.filter f l').
Proof.
  induction 1 as [| x l l' _ IH | x y l | l l' l'' _ IH1 _ IH2]; simpl.
  - reflexivity.
  - destruct (f x); [now constructor | assumption].
  - destruct (f x), (f y); try reflexivity. apply perm_swap.
  - now transitivity (List.filter f l').
Qed.

(** The comparator is consistent: a total preorder. *)
Hypothesis cmp_total : forall a b, cmp a b <= 0 \/ cmp b a <= 0.
Hypothesis cmp_trans : forall a b c, cmp a b <= 0 -> cmp b c <= 0 -> cmp a c <= 0.

Lemma insertSorted_sorted (x : A) (l : list A) :
  Sorted (cmp_le cmp) l -> Sorted (cmp_le cmp) (insertSorted cmp x l).
Proof.
  induction l as [|y l IH]; intros Hs; simpl.
  - repeat constructor.
  - destruct (cmp x y <=? 0) eqn:E.
    + constructor; [assumption|]. constructor. unfold cmp_le. lia.
    + apply Sorted_inv in Hs as [Hs Hhd].
      constructor; [now apply IH|].
      assert (Hyx : cmp_le cmp y x).
      { unfold cmp_le. destruct (cmp_total x y); lia. }
      destruct l as [|z l]; simpl.
      * now constructor.
      * destruct (cmp x z <=? 0); constructor; [assumption|].
        now inversion Hhd.
Qed.

Lemma sort_sorted (l : list A) : StronglySorted (cmp_le cmp) (sort cmp l).
Proof.
  apply Sorted_StronglySorted.
  - intros a b c. apply cmp_trans.
  - unfold sort. induction l as [|x l IH]; simpl; [constructor|].
    now apply insertSorted_sorted.
Qed.

(** The first hit of a scan over a sorted list is below every other hit. *)
Lemma find_sorted_least (f : A -> bool) (l : list A) (p : A) :
  StronglySorted (cmp_le cmp) l -> List.find f l = Some p ->
  forall q, In q l -> f q = true -> cmp_le cmp p q.
Proof.
  induction l as [|x l IH]; intros Hs Hfind q Hin Hq; [destruct Hin|].
  apply StronglySorted_inv in Hs as [Hs Hall]. simpl in Hfind.
  destruct (f x) eqn:Hx.
  - injection Hfind as <-. destruct Hin as [<- | Hin].
    + unfold cmp_le. destruct (cmp_total x x); assumption.
    + exact (proj1 (List.Forall_forall _ _) Hall q Hin).
  - destruct Hin as [<- | Hin]; [congruence|]. now apply IH.
Qed.

End SortFacts.

(** ** The waitlist *)

Section WaitlistFacts.
Import JS NoShowDefender.

Lemma compare_le (a b : WaitlistPatient) :
  compare a b <= 0 <->
  priorityOrder (priority a) < priorityOrder (priority b) \/
  (priorityOrder (priority a) = priorityOrder (priority b) /\ addedAt a <= addedAt b).
Proof.
  unfold compare.
  destruct (priorityOrder (priority a) =? priorityOrder (priority b)) eqn:E; simpl; lia.
Qed.

Lemma compare_total (a b : WaitlistPatient) : compare a b <= 0 \/ compare b a <= 0.
Proof. rewrite !compare_le. lia. Qed.

Lemma compare_trans (a b c : WaitlistPatient) :
  compare a b <= 0 -> compare b c <= 0 -> compare a c <= 0.
Proof. rewrite !compare_le. lia. Qed.

Lemma priorityOrder_inj (p q : Priority) : priorityOrder p = priorityOrder q -> p = q.
Proof. destruct p, q; simpl; intros H; congruence || discriminate H. Qed.

Lemma patientAvailable_spec (slot : string) (p : WaitlistPatient) :
  patientAvailable (toLowerCase slot) p = true <-> eligible slot p.
Proof.
  unfold patientAvailable, eligible, mentions. rewrite existsb_exists.
  split; intros [t [Hin Ht]]; exists t; split; auto; now apply includes_spec.
Qed.

(** C3. Whenever [handleCancellation] fills the slot, the returned patient
    is an entry of the waitlist that is eligible for the slot, no eligible
    entry has a better priority tier (emergency before new_patient before
    regular), and no eligible entry of the same tier was added earlier. *)
Theorem handleCancellation_picks_best (st : State) (appointmentSlot : string) :
  filled (fst (handleCancellation st appointmentSlot)) = true ->
  exists p,
    patient (fst (handleCancellation st appointmentSlot)) = Some p /\
    In p (waitlist st) /\
    eligible appointmentSlot p /\
    forall q, In q (waitlist st) -> eligible appointmentSlot q ->
      priorityOrder (priority p) <= priorityOrder (priority q) /\
      (priority q = priority p -> addedAt p <= addedAt q).
Proof.
  unfold handleCancellation.
  destruct (waitlist_autoFill (config st)); simpl; [|discriminate].
  destruct (List.find _ _) as [p|] eqn:Hfind; simpl; [intros _ | discriminate].
  exists p. split; [reflexivity|].
  pose proof (List.find_some _ _ Hfind) as [Hin Hav].
  split; [now apply (sort_In compare)|].
  split; [now apply patientAvailable_spec|].
  intros q Hq Hel.
  assert (Hle : compare p q <= 0).
  { apply (find_sorted_least compare compare_total) with (2 := Hfind).
    - apply sort_sorted; [apply compare_total | apply compare_trans].
    - now apply sort_In.
    - now apply patientAvailable_spec. }
  apply compare_le in Hle. split; [lia|].
  intros Heq. rewrite Heq in Hle. lia.
Qed.

Lemma handleCancellation_picks_best_witness :
  exists p,
    patient (fst (handleCancellation (initialState 1700000000000) "Tomorrow MORNING 10:00")) = Some p /\
    name p = "Sarah Johnson".
Proof.
  destruct (handleCancellation_picks_best (initialState 1700000000000) "Tomorrow MORNING 10:00" eq_refl)
    as [p [Hp _]].
  exists p. split; [exact Hp|].
  vm_compute in Hp. injection Hp as <-. reflexivity.
Defined.

Lemma filter_all (f : WaitlistPatient -> bool) (l : list WaitlistPatient) :
  (forall q, In q l -> f q = true) -> List.filter f l = l.
Proof.
  induction l as [|x l IH]; intros H; simpl; [reflexivity|].
  rewrite (H x (or_introl eq_refl)). f_equal. apply IH. intros q Hq. apply H. now right.
Qed.

(** With pairwise distinct ids, removal by id takes out one entry. *)
Lemma otherIds_unique (l : list WaitlistPatient) (p : WaitlistPatient) :
  List.NoDup (List.map id l) -> In p l -> Permutation l (p :: otherIds p l).
Proof.
  unfold otherIds. induction l as [|x l IH]; intros Hnd Hin; [destruct Hin|].
  simpl in Hnd. inversion Hnd as [|? ? Hx Hnd']; subst. simpl.
  destruct Hin as [-> | Hin].
  - rewrite String.eqb_refl. simpl. rewrite filter_all; [reflexivity|].
    intros q Hq. apply negb_true_iff, String.eqb_neq. intros E.
    apply Hx. rewrite <- E. now apply in_map.
  - assert (Hne : id x <> id p).
    { intros E. apply Hx. rewrite E. now apply in_map. }
    apply String.eqb_neq in Hne. rewrite Hne. simpl.
    rewrite (IH Hnd' Hin) at 1. apply perm_swap.
Qed.

(** C9, as the code has it. [handleCancellation] leaves the configuration
    alone. When it does not fill the slot the waitlist keeps its entries
    (it may be reordered by the sort). When it fills the slot, the entries
    removed are those whose id is the returned patient's id and every entry
    with another id remains; with pairwise distinct ids that is exactly one
    entry, the returned patient's. *)
Theorem handleCancellation_frame (st : State) (appointmentSlot : string) :
  let r := fst (handleCancellation st appointmentSlot) in
  let st' := snd (handleCancellation st appointmentSlot) in
  config st' = config st /\
  (filled r = false ->
     patient r = None /\ Permutation (waitlist st') (waitlist st)) /\
  (filled r = true ->
     exists p, patient r = Some p /\ In p (waitlist st) /\
       Permutation (waitlist st') (otherIds p (waitlist st)) /\
       (List.NoDup (List.map id (waitlist st)) ->
          Permutation (waitlist st) (p :: waitlist st'))).
Proof.
  unfold handleCancellation.
  destruct (waitlist_autoFill (config st)) eqn:Hauto; simpl.
  2:{ split; [reflexivity|]. split; [|discriminate]. intros _. split; reflexivity. }
  destruct (List.find _ _) as [p|] eqn:Hfind; simpl.
  - split; [reflexivity|]. split; [discriminate|]. intros _.
    exists p. split; [reflexivity|].
    pose proof (List.find_some _ _ Hfind) as [Hin _].
    apply (proj1 (sort_In compare _ _)) in Hin.
    split; [exact Hin|].
    assert (Hperm : Permutation
              (List.filter (fun q => negb (String.eqb (id q) (id p))) (sort compare (waitlist st)))
              (otherIds p (waitlist st))).
    { unfold otherIds. apply filter_perm, sort_perm. }
    split; [exact Hperm|].
    intros Hnd. rewrite Hperm. now apply otherIds_unique.
  - split; [reflexivity|]. split; [|discriminate]. intros _.
    split; [reflexivity | apply sort_perm].
Qed.

Lemma handleCancellation_frame_witness :
  exists p,
    patient (fst (handleCancellation (initialState 1700000000000) "Friday afternoon, 2:30 PM")) = Some p /\
    Permutation (waitlist (initialState 1700000000000))
      (p :: waitlist (snd (handleCancellation (initialState 1700000000000) "Friday afternoon, 2:30 PM"))).
Proof.
  destruct (handleCancellation_frame (initialState 1700000000000) "Friday afternoon, 2:30 PM")
    as [_ [_ Hfilled]].
  destruct (Hfilled eq_refl) as [p [Hp [_ [_ Huniq]]]].
  exists p. split; [exact Hp|].
  apply Huniq. apply NoDup_ListNoDup, (bool_decide_unpack _). vm_compute. reflexivity.
Defined.

(** C9, as the spec words it, fails: of two entries that carry the same id,
    the booking of one removes the other as well. *)
Lemma handleCancellation_removes_same_id :
  exists a b,
    patient (fst (handleCancellation sameMillisecond "Tonight, evening slot")) = Some a /\
    In b (waitlist sameMillisecond) /\
    name a = "Ana Ruiz" /\ name b = "Ben Ito" /\
    ~ In b (waitlist (snd (handleCancellation sameMillisecond "Tonight, evening slot"))) /\
    List.length (waitlist sameMillisecond) = 5%nat /\
    List.length (waitlist (snd (handleCancellation sameMillisecond "Tonight, evening slot"))) = 3%nat.
Proof.
  eexists. eexists.
  split; [vm_compute; reflexivity|].
  split; [vm_compute; right; right; right; right; left; reflexivity|].
  split; [reflexivity|]. split; [reflexivity|].
  split; [|split; reflexivity].
  vm_compute. intros [H | [H | [H | []]]]; discriminate H.
Qed.

End WaitlistFacts.

(** ** Dates and recalls *)

Section RecallFacts.
Import JS JSDate RecallAutomator.

(** From 1970-01-01 to 2069-12-31 the closed forms of the calendar agree
    with the year and month tables of the language definition. *)
Lemma civil_agrees_1970_2069 :
  civilAgreesFrom (DayFromYear 1970) (Z.to_nat (DayFromYear 2070 - DayFromYear 1970)) = true.
Proof. vm_compute. reflexivity. Qed.

Lemma Day_MakeDate (day time : Z) :
  0 <= time < msPerDay -> Day (MakeDate day time) = day.
Proof.
  intros H. unfold Day, MakeDate. unfold msPerDay in *.
  rewrite Z.add_comm, Z.div_add by lia. rewrite Z.div_small by lia. lia.
Qed.

Lemma TimeWithinDay_MakeDate (day time : Z) :
  0 <= time < msPerDay -> TimeWithinDay (MakeDate day time) = time.
Proof.
  intros H. unfold TimeWithinDay, MakeDate. unfold msPerDay in *.
  rewrite Z.add_comm, Z.mod_add by lia. apply Z.mod_small. lia.
Qed.

Lemma setMonth_localDate (y m d time month : Z) :
  0 <= time < msPerDay ->
  setMonth (localDate y m d time) (Some month) =
  let '(y', _, d') := civilFromDays (daysFromCivil y m d) in
  TimeClip (MakeDate (MakeDay y' month d') time).
Proof.
  intros H. unfold setMonth, localDate, YearFromTime, DateFromTime.
  rewrite Day_MakeDate, TimeWithinDay_MakeDate by assumption.
  destruct (civilFromDays (daysFromCivil y m d)) as [[y' m'] d']. reflexivity.
Qed.

Lemma getMonth_localDate (y m d time : Z) :
  0 <= time < msPerDay ->
  getMonth (localDate y m d time) =
  Some (snd (fst (civilFromDays (daysFromCivil y m d))) - 1).
Proof.
  intros H. unfold getMonth, localDate, MonthFromTime.
  now rewrite Day_MakeDate.
Qed.

(** Days beyond the month carry over: 31 January plus one month. *)
Example setMonth_carries :
  setMonth (localDate 2024 1 31 0) (Some 1) = localDate 2024 3 2 0.
Proof. reflexivity. Qed.

(** C6. [addPatientRecall] for a cleaning whose last visit was on
    2024-02-15 appends a recall that is due on 2024-08-15, at the same time
    of the day: the last visit plus the 6 months configured for a cleaning. *)
Theorem addPatientRecall_cleaning_nextDue
    (patientRecalls : list PatientRecall) (now time : Z) (patientData : PatientData) :
  data_procedure patientData = "cleaning" ->
  0 <= time < msPerDay ->
  data_lastVisit patientData = localDate 2024 2 15 time ->
  option_map interval (getRecallConfig "cleaning") = Some 6 /\
  exists r,
    addPatientRecall patientRecalls now patientData = (patientRecalls ++ [r])%list /\
    procedure r = "cleaning" /\
    lastVisit r = localDate 2024 2 15 time /\
    nextDue r = localDate 2024 8 15 time.
Proof.
  intros Hproc Htime Hvisit. split; [reflexivity|].
  eexists. split; [reflexivity|]. simpl.
  split; [assumption|]. split; [assumption|].
  rewrite Hproc, Hvisit. unfold copy.
  rewrite getMonth_localDate by assumption.
  change (addNumbers _ _) with (Some 7).
  rewrite setMonth_localDate by assumption.
  change (civilFromDays (daysFromCivil 2024 2 15)) with (2024, 2, 15).
  cbv beta iota. change (MakeDay 2024 7 15) with (daysFromCivil 2024 8 15).
  unfold TimeClip, localDate, MakeDate.
  change (daysFromCivil 2024 8 15) with 19950. unfold msPerDay in *.
  destruct (Z.leb_spec (Z.abs (19950 * 86400000 + time)) 8640000000000000) as [_|Hbad];
    [reflexivity | lia].
Qed.

Lemma addPatientRecall_cleaning_nextDue_witness :
  exists r,
    addPatientRecall [] 1722470400000
      {| data_patientName := "Sarah Johnson"; data_procedure := "cleaning";
         data_lastVisit := localDate 2024 2 15 0; data_preferredContact := sms;
         data_estimatedRevenue := Some 180 |} = [r] /\
    nextDue r = localDate 2024 8 15 0.
Proof.
  destruct (addPatientRecall_cleaning_nextDue [] 1722470400000 0
              {| data_patientName := "Sarah Johnson"; data_procedure := "cleaning";
                 data_lastVisit := localDate 2024 2 15 0; data_preferredContact := sms;
                 data_estimatedRevenue := Some 180 |} eq_refl ltac:(vm_compute; split; congruence) eq_refl)
    as [_ [r [Hadd [_ [_ Hdue]]]]].
  exists r. split; [exact Hadd | exact Hdue].
Defined.

End RecallFacts.

(** ** The recall interval of the dental service *)

Section DentalServiceFacts.
Import JS DentalConfig DentalService.

Lemma intervals_positive (key : string) (interval : Z) :
  recallSettings_intervals !! key = Some interval -> 0 < interval.
Proof.
  unfold recallSettings_intervals. intros H.
  apply elem_of_list_to_map_2 in H.
  repeat (apply elem_of_cons in H as [H | H]; [injection H as -> ->; lia|]).
  now apply elem_of_nil in H.
Qed.

Lemma initialize_ready (st : State) (now : Z) :
  fst (if initialized st then (true, st) else initialize st now) = true.
Proof.
  unfold initialize. destruct (initialized st); reflexivity.
Qed.

Lemma length_zero_empty (s : string) : (String.length s =? 0)%nat = true -> s = EmptyString.
Proof. destruct s; [reflexivity | discriminate]. Qed.

(** C7. [scheduleRecall] completes normally on every string, in every state
    of the service: with the interval of the table when the lowercased,
    trimmed procedure is one of its keys, and with the default 6 otherwise. *)
Theorem scheduleRecall_never_throws (st : State) (now : Z) (procedure : string) :
  exists st',
    scheduleRecall st now procedure =
    (Return (match configuredInterval procedure with
             | Some interval => interval
             | None => 6
             end), st').
Proof.
  unfold scheduleRecall, scheduleRecall_try, configuredInterval.
  pose proof (initialize_ready st now) as Hready.
  destruct (if initialized st then (true, st) else initialize st now) as [ready st1].
  simpl in Hready. subst ready. simpl.
  destruct (String.eqb procedure EmptyString) eqn:Hempty.
  { apply String.eqb_eq in Hempty. subst procedure. eexists. reflexivity. }
  destruct (String.length (trim (toLowerCase procedure)) =? 0)%nat eqn:Hlen.
  { apply length_zero_empty in Hlen. rewrite Hlen. eexists. reflexivity. }
  unfold getProperty.
  destruct (recallSettings_intervals !! trim (toLowerCase procedure)) as [interval|] eqn:Hget.
  - apply intervals_positive in Hget.
    destruct (Z.leb_spec interval 0) as [Hbad|_]; [lia|]. eexists. reflexivity.
  - destruct (List.existsb _ objectPrototypeKeys); eexists; reflexivity.
Qed.

Example scheduleRecall_padded_capitals :
  fst (scheduleRecall initialState 0 "  Surgery ") = Return 1.
Proof. reflexivity. Qed.

Example scheduleRecall_unknown :
  fst (scheduleRecall initialState 0 "whitening") = Return 6.
Proof. reflexivity. Qed.

(** A name of [Object.prototype] is not a key of the table: the member found
    is not a number, the [catch] clause answers. *)
Example scheduleRecall_constructor :
  scheduleRecall initialState 5 "constructor" =
  (Return 6,
   {| initialized := true;
      errorLog := [ {| timestamp := 5; error := "Invalid interval for procedure constructor: [object]";
                       context := "scheduleRecall"; severity := medium |} ];
      initializationAttempts := 1; retryTimers := [] |}).
Proof. reflexivity. Qed.

End DentalServiceFacts.

(** ** Reconnection of the voice session *)

Section ReconnectFacts.
Import JS UseVapi.

(** One error: either no reconnection is scheduled and the counter stays, or
    the error is one to retry, the counter was below the maximum and goes up
    by one, and the attempt is scheduled after 2000 ms times the new count. *)
Lemma onError_step (active : bool) (st : State) (now : Z) (e : VapiError) :
  (reconnectAttempts (onError active st now e) = reconnectAttempts st /\
   retryDelays (onError active st now e) = retryDelays st) \/
  (snd (classify e) = true /\ active = true /\
   reconnectAttempts st < maxReconnectAttempts /\
   reconnectAttempts (onError active st now e) = reconnectAttempts st + 1 /\
   retryDelays (onError active st now e) =
     (retryDelays st ++ [2000 * (reconnectAttempts st + 1)])%list).
Proof.
  unfold onError. destruct (meetingEnded e).
  { left. split; [reflexivity|]. unfold retryDelays, addTimer. simpl.
    rewrite List.filter_app, List.map_app. simpl. apply List.app_nil_r. }
  destruct (classify e) as [errorMessage shouldRetry]. simpl.
  destruct shouldRetry; simpl.
  - destruct (reconnectAttempts st <? maxReconnectAttempts) eqn:Hlt; simpl.
    + destruct active; simpl.
      * right. apply Z.ltb_lt in Hlt. repeat split; try assumption.
        unfold retryDelays, addTimer. simpl.
        rewrite List.filter_app, List.map_app. reflexivity.
      * left. split; reflexivity.
    + left. split; reflexivity.
  - left. split; [reflexivity|]. unfold retryDelays, addTimer. simpl.
    rewrite List.filter_app, List.map_app. simpl. apply List.app_nil_r.
Qed.

Lemma backoff_cons (from : Z) (count : nat) :
  backoff from (S count) = 2000 * (from + 1) :: backoff (from + 1) count.
Proof.
  unfold backoff. simpl. f_equal.
  rewrite <- List.seq_shift, List.map_map. apply List.map_ext. intros n. f_equal. lia.
Qed.

(** A session of errors: the counter goes up by the number [count] of
    reconnections scheduled, never beyond the maximum, and their delays
    follow the schedule. *)
Lemma errors_schedule (active : bool) (events : list (Z * VapiError)) (st : State) :
  exists count : nat,
    reconnectAttempts (errors active st events) = reconnectAttempts st + Z.of_nat count /\
    (count = 0%nat \/ reconnectAttempts st + Z.of_nat count <= maxReconnectAttempts) /\
    retryDelays (errors active st events) =
      (retryDelays st ++ backoff (reconnectAttempts st) count)%list.
Proof.
  revert st. induction events as [|[now e] rest IH]; intros st; simpl.
  - exists 0%nat. split; [lia|]. split; [now left|]. unfold backoff. simpl.
    now rewrite List.app_nil_r.
  - destruct (IH (onError active st now e)) as [count [Hcount [Hmax Hdelays]]].
    destruct (onError_step active st now e) as [[Hsame Hd] | [_ [_ [Hlt [Hinc Hd]]]]].
    + exists count. rewrite Hcount, Hdelays, Hsame, Hd. rewrite Hsame in Hmax. auto.
    + exists (S count). rewrite Hcount, Hdelays, Hinc, Hd. rewrite Hinc in Hmax.
      split; [lia|]. split.
      * right. destruct Hmax as [-> | Hmax]; lia.
      * rewrite backoff_cons, <- List.app_assoc. reflexivity.
Qed.

(** C8. In a session of voice errors that starts with the counter of
    reconnections at 0, the hook schedules at most 3 ([maxReconnectAttempts])
    reconnections; the n-th is scheduled after 2000 * n milliseconds; and in a
    state where the counter has reached 3 a further error schedules none.
    This holds for either value of [isCallActive] seen by the handler. *)
Theorem reconnect_at_most_three_linear_backoff
    (active : bool) (st : State) (events : list (Z * VapiError)) :
  reconnectAttempts st = 0 ->
  retryDelays st = [] ->
  (exists count : nat,
     (count <= 3)%nat /\
     reconnectAttempts (errors active st events) = Z.of_nat count /\
     retryDelays (errors active st events) =
       List.map (fun n => 2000 * Z.of_nat n) (List.seq 1 count)) /\
  (forall (st3 : State) (now : Z) (e : VapiError),
     maxReconnectAttempts <= reconnectAttempts st3 ->
     retryDelays (onError active st3 now e) = retryDelays st3 /\
     reconnectAttempts (onError active st3 now e) = reconnectAttempts st3).
Proof.
  intros Hzero Hnone. split.
  - destruct (errors_schedule active events st) as [count [Hcount [Hmax Hdelays]]].
    rewrite Hzero in *. rewrite Hnone in Hdelays. simpl in Hdelays.
    exists count. unfold maxReconnectAttempts in Hmax.
    split; [lia|]. split; [lia|]. exact Hdelays.
  - intros st3 now e Hreached.
    destruct (onError_step active st3 now e) as [[Hsame Hd] | [_ [_ [Hlt _]]]]; [auto | lia].
Qed.

Lemma reconnect_at_most_three_linear_backoff_witness :
  retryDelays
    (errors true inCall
       [ (1700000001000, joinError); (1700000004000, joinError);
         (1700000009000, joinError); (1700000016000, joinError);
         (1700000025000, joinError) ])
  = [2000; 4000; 6000].
Proof.
  destruct (reconnect_at_most_three_linear_backoff true inCall
              [ (1700000001000, joinError); (1700000004000, joinError);
                (1700000009000, joinError); (1700000016000, joinError);
                (1700000025000, joinError) ] eq_refl eq_refl)
    as [[count [_ [Hcount Hdelays]]] _].
  change (3 = Z.of_nat count) in Hcount.
  assert (count = 3%nat) as -> by lia.
  exact Hdelays.
Defined.

(** X28. The handler as the hook registers it sees [isCallActive] as it was in
    the first render: with that value no reconnection is scheduled at all. *)
Lemma mounted_handler_schedules_no_retry (events : list (Z * VapiError)) (st : State) :
  retryDelays (errors mountedIsCallActive st events) = retryDelays st.
Proof.
  revert st. induction events as [|[now e] rest IH]; intros st; simpl; [reflexivity|].
  rewrite IH.
  destruct (onError_step mountedIsCallActive st now e) as [[_ Hd] | [_ [Hactive _]]];
    [exact Hd | discriminate Hactive].
Qed.

End ReconnectFacts.

(** ** Redaction *)

Section RedactionFacts.
Import JS RegExp HIPAAShield.

Example replaceAll_empty_matches :
  replaceAll (g [Repeat [Char "a"] 0 None]) "baaac" "-" = "-b--c-".
Proof. reflexivity. Qed.

Example redactPHI_mixed :
  fst (redactPHI [] 0 "SSN 123-45-6789, mrn12345, (555) 123-4567, a.b@c-d.org") =
  {| redactedText := "SSN [SSN-REDACTED], [MRN-REDACTED], (555) 123-4567, [EMAIL-REDACTED]";
     redactionCount := 3;
     dataTypesFound := [ "ssn"; "email"; "medical_record" ] |}.
Proof. vm_compute. reflexivity. Qed.

Lemma scan_no_match (re : RegExp) (s : string) (prev : option ascii) :
  matchesOf (scan re O prev s) = [] <->
  (forall before rest, s = before ++ rest -> matchAt re (lastChar prev before) rest = None).
Proof.
  revert prev. induction s as [|c s IH]; intros prev; simpl.
  - split.
    + intros H before rest E.
      destruct before; [|discriminate]. change (EmptyString = rest) in E. subst rest. simpl.
      destruct (matchAt re prev EmptyString) as [[|n]|]; [discriminate H .. | reflexivity].
    + intros H. pose proof (H EmptyString EmptyString eq_refl) as Hm.
      simpl in Hm. rewrite Hm. reflexivity.
  - split.
    + intros H before rest E.
      destruct (matchAt re prev (String c s)) as [[|n]|] eqn:Hm; [discriminate H .. |].
      simpl in H. destruct before as [|b before].
      * change (String c s = rest) in E. subst rest. exact Hm.
      * change (String c s = String b (before ++ rest)) in E.
        injection E as <- E. simpl. exact (proj1 (IH (Some c)) H before rest E).
    + intros H. pose proof (H EmptyString (String c s) eq_refl) as Hm.
      simpl in Hm. rewrite Hm. simpl.
      apply IH. intros before rest E.
      apply (H (String c before) rest). now rewrite E.
Qed.

(** [text.match(re)] is [null] exactly when [re] has no match in [text]. *)
Lemma matchAll_nil_iff (re : RegExp) (text : string) :
  matchAll re text = [] <-> ~ hasMatch re text.
Proof.
  unfold matchAll, hasMatch. rewrite scan_no_match. split.
  - intros H [before [rest [n [E Hm]]]]. rewrite (H before rest E) in Hm. discriminate.
  - intros H before rest E.
    destruct (matchAt re (lastChar None before) rest) as [n|] eqn:Hm; [|reflexivity].
    exfalso. apply H. now exists before, rest, n.
Qed.

Lemma applyRule_no_match (text : string) (acc : Redaction) (rule : Rule) :
  matchAll (pattern rule) text = [] -> applyRule text acc rule = acc.
Proof. unfold applyRule. now intros ->. Qed.

Lemma fold_applyRule_no_match (text : string) (rules : list Rule) (acc : Redaction) :
  (forall rule, In rule rules -> matchAll (pattern rule) text = []) ->
  List.fold_left (applyRule text) rules acc = acc.
Proof.
  revert acc. induction rules as [|rule rules IH]; intros acc H; simpl; [reflexivity|].
  rewrite applyRule_no_match by (apply H; now left).
  apply IH. intros r Hr. apply H. now right.
Qed.

(** C10. On a text in which no redaction pattern has a match, [redactPHI]
    returns the text as it is, counts no redaction and finds no data type. *)
Theorem redactPHI_identity_without_match
    (auditLog : list AuditEntry) (now : Z) (text : string) :
  (forall rule, In rule redactionRules -> ~ hasMatch (pattern rule) text) ->
  redactedText (fst (redactPHI auditLog now text)) = text /\
  redactionCount (fst (redactPHI auditLog now text)) = 0 /\
  dataTypesFound (fst (redactPHI auditLog now text)) = [].
Proof.
  intros Hnone. change (fst (redactPHI auditLog now text)) with (applyRules text).
  unfold applyRules. rewrite fold_applyRule_no_match; [repeat split|].
  intros rule Hin. apply matchAll_nil_iff. now apply Hnone.
Qed.

Lemma redactPHI_identity_without_match_witness :
  redactedText (fst (redactPHI [] 1700000000000 "Patient asked about a cleaning on Friday"))
    = "Patient asked about a cleaning on Friday" /\
  redactionCount (fst (redactPHI [] 1700000000000 "Patient asked about a cleaning on Friday")) = 0 /\
  dataTypesFound (fst (redactPHI [] 1700000000000 "Patient asked about a cleaning on Friday")) = [].
Proof.
  apply redactPHI_identity_without_match.
  intros rule Hin. apply matchAll_nil_iff.
  simpl in Hin. repeat (destruct Hin as [<- | Hin]; [vm_compute; reflexivity|]).
  destruct Hin.
Defined.

Lemma redactPHI_call_phone (auditLog : list AuditEntry) (now : Z) :
  fst (redactPHI auditLog now "call 555-123-4567") =
  {| redactedText := "call [PHONE-REDACTED]"; redactionCount := 1;
     dataTypesFound := [ "phone" ] |}.
Proof.
  change (fst (redactPHI auditLog now "call 555-123-4567"))
    with (applyRules "call 555-123-4567").
  vm_compute. reflexivity.
Qed.

(** C2. The redaction of "call 555-123-4567" contains the token
    "[PHONE-REDACTED]" and no longer contains "555-123-4567". *)
Theorem redactPHI_phone_number (auditLog : list AuditEntry) (now : Z) :
  occursIn "[PHONE-REDACTED]"
    (redactedText (fst (redactPHI auditLog now "call 555-123-4567"))) /\
  ~ occursIn "555-123-4567"
    (redactedText (fst (redactPHI auditLog now "call 555-123-4567"))).
Proof.
  rewrite redactPHI_call_phone. simpl redactedText. split.
  - apply includes_spec. reflexivity.
  - apply includes_false_spec. reflexivity.
Qed.

End RedactionFacts.

(** ** More on the triage: symptoms, score and booking *)

Section TriageBookingFacts.
Import JS JSDate EmergencyTriage TriageBooking.

Lemma lowerChar_idempotent (c : ascii) : lowerChar (lowerChar c) = lowerChar c.
Proof. destruct c as [[] [] [] [] [] [] [] []]; reflexivity. Qed.

Lemma toLowerCase_idempotent (s : string) : toLowerCase (toLowerCase s) = toLowerCase s.
Proof.
  induction s as [|c s IH]; simpl; [reflexivity|].
  now rewrite lowerChar_idempotent, IH.
Qed.

(** X1. The analysis does not depend on the case of the letters: an utterance
    and its lowercased form are analysed alike. *)
Theorem analyzeEmergency_case_insensitive (u : string) :
  analyzeEmergency (toLowerCase u) = analyzeEmergency u.
Proof.
  unfold analyzeEmergency. now rewrite toLowerCase_idempotent.
Qed.

Lemma analyzeEmergency_symptoms_eq (u : string) :
  symptoms (analyzeEmergency u) = foundKeywords (toLowerCase u).
Proof.
  unfold analyzeEmergency.
  destruct (foundKeywords (toLowerCase u)); reflexivity.
Qed.

(** X2. The symptoms reported are exactly the configured keywords that occur
    in the lowercased utterance, each once. *)
Theorem analyzeEmergency_symptoms_exact (u : string) :
  (forall kw, In kw (symptoms (analyzeEmergency u)) <->
              In kw emergencyKeywords /\ occursIn kw (toLowerCase u)) /\
  List.NoDup (symptoms (analyzeEmergency u)).
Proof.
  rewrite analyzeEmergency_symptoms_eq. unfold foundKeywords. split.
  - intros kw. rewrite filter_In, includes_spec. reflexivity.
  - apply List.NoDup_filter.
    apply NoDup_ListNoDup, (bool_decide_unpack _). vm_compute. reflexivity.
Qed.


Lemma setHours_shift (t k : Z) :
  setHours (Some t) (option_map (fun h => h + k) (getHours (Some t))) =
  TimeClip (t + k * msPerHour).
Proof.
  unfold setHours, getHours. simpl. f_equal.
  unfold MakeDate, MakeTime, Day, HourFromTime, MinFromTime, SecFromTime, msFromTime,
    msPerDay, msPerHour, msPerMinute, msPerSecond.
  Z.div_mod_to_equations. lia.
Qed.



End TriageBookingFacts.

(** ** More on the waitlist: filling, revenue, order *)

Section WaitlistMore.
Import JS NoShowDefender.

Lemma sort_sorted_id {A : Type} (cmp : A -> A -> Z) (l : list A) :
  StronglySorted (cmp_le cmp) l -> sort cmp l = l.
Proof.
  unfold sort. induction 1 as [|x l Hs IH Hall]; simpl; [reflexivity|].
  rewrite IH. destruct l as [|y l]; [reflexivity|]. simpl.
  inversion Hall as [|? ? Hxy _]; subst. unfold cmp_le in Hxy.
  destruct (Z.leb_spec (cmp x y) 0); [reflexivity | lia].
Qed.

Lemma filter_sorted {A : Type} (cmp : A -> A -> Z) (f : A -> bool) (l : list A) :
  StronglySorted (cmp_le cmp) l -> StronglySorted (cmp_le cmp) (List.filter f l).
Proof.
  induction 1 as [|x l Hs IH Hall]; simpl; [constructor|].
  destruct (f x); [|assumption]. constructor; [assumption|].
  apply List.Forall_forall. intros y Hy. apply filter_In in Hy as [Hy _].
  exact (proj1 (List.Forall_forall _ _) Hall y Hy).
Qed.

Lemma find_available_none (slot : string) (l : list WaitlistPatient) :
  List.find (patientAvailable (toLowerCase slot)) l = None <->
  (forall p, In p l -> ~ eligible slot p).
Proof.
  split.
  - intros Hnone p Hin Hel. apply patientAvailable_spec in Hel.
    pose proof (List.find_none _ _ Hnone p Hin) as Hf. congruence.
  - intros Hall. destruct (List.find _ l) as [p|] eqn:Hfind; [|reflexivity].
    apply List.find_some in Hfind as [Hin Hav].
    apply patientAvailable_spec in Hav. now destruct (Hall p Hin).
Qed.

(** X4. A cancelled slot is filled exactly when filling is switched on and some
    entry of the waitlist is eligible for it. *)
Theorem handleCancellation_filled_iff (st : State) (appointmentSlot : string) :
  filled (fst (handleCancellation st appointmentSlot)) = true <->
  waitlist_autoFill (config st) = true /\
  exists p, In p (waitlist st) /\ eligible appointmentSlot p.
Proof.
  unfold handleCancellation.
  destruct (waitlist_autoFill (config st)); simpl.
  2:{ split; [discriminate | intros [H _]; discriminate H]. }
  destruct (List.find _ _) as [p|] eqn:Hfind; simpl.
  - split; [intros _ | reflexivity]. split; [reflexivity|].
    apply List.find_some in Hfind as [Hin Hav]. exists p. split.
    + now apply (sort_In compare).
    + now apply patientAvailable_spec.
  - split; [discriminate|]. intros [_ [p [Hin Hel]]]. exfalso.
    apply (proj1 (find_available_none _ _) Hfind p); [|exact Hel].
    now apply (sort_In compare).
Qed.

Lemma calculateRevenueRecovered_range (slot : string) :
  350 <= calculateRevenueRecovered slot <= 580.
Proof.
  unfold calculateRevenueRecovered, slotValues. simpl.
  repeat match goal with |- context [if ?b then _ else _] => destruct b end; lia.
Qed.

(** X5. The revenue reported is 0 when the slot is not filled; when it is
    filled it is the value of the slot, between 350 and 580, and 380
    whenever the slot description mentions the morning. *)
Theorem handleCancellation_revenue (st : State) (appointmentSlot : string) :
  let r := fst (handleCancellation st appointmentSlot) in
  (filled r = false -> revenueRecovered r = 0) /\
  (filled r = true ->
     350 <= revenueRecovered r <= 580 /\
     (occursIn "morning" (toLowerCase appointmentSlot) -> revenueRecovered r = 380)).
Proof.
  unfold handleCancellation.
  destruct (waitlist_autoFill (config st)); simpl.
  2:{ split; [reflexivity | discriminate]. }
  destruct (List.find _ _) as [p|]; simpl.
  - split; [discriminate|]. intros _. split; [apply calculateRevenueRecovered_range|].
    intros Hm. apply includes_spec in Hm.
    unfold calculateRevenueRecovered, slotValues. simpl. now rewrite Hm.
  - split; [reflexivity | discriminate].
Qed.

Lemma handleCancellation_revenue_witness :
  revenueRecovered (fst (handleCancellation (initialState 1700000000000) "Tomorrow MORNING 10:00"))
  = 380.
Proof.
  destruct (handleCancellation_revenue (initialState 1700000000000) "Tomorrow MORNING 10:00")
    as [_ Hfilled].
  apply (Hfilled eq_refl). apply includes_spec. reflexivity.
Defined.

(** X6. A patient who got a slot is off the waitlist: no entry with that id is
    left, and a later cancellation never returns an entry with that id. *)
Theorem handleCancellation_no_double_booking
    (st : State) (slot1 slot2 : string) (p1 p2 : WaitlistPatient) :
  patient (fst (handleCancellation st slot1)) = Some p1 ->
  patient (fst (handleCancellation (snd (handleCancellation st slot1)) slot2)) = Some p2 ->
  (forall q, In q (waitlist (snd (handleCancellation st slot1))) -> id q <> id p1) /\
  id p2 <> id p1.
Proof.
  intros H1 H2.
  assert (Hgone : forall q, In q (waitlist (snd (handleCancellation st slot1))) -> id q <> id p1).
  { revert H1. unfold handleCancellation.
    destruct (waitlist_autoFill (config st)); simpl; [|discriminate].
    destruct (List.find _ _) as [p|]; simpl; [|discriminate].
    intros E q Hq. injection E as <-.
    apply filter_In in Hq as [_ Hq]. apply negb_true_iff in Hq.
    now apply String.eqb_neq. }
  split; [exact Hgone|]. apply Hgone.
  revert H2. generalize (snd (handleCancellation st slot1)). intros st1.
  unfold handleCancellation.
  destruct (waitlist_autoFill (config st1)); simpl; [|discriminate].
  destruct (List.find _ _) as [p|] eqn:Hfind; simpl; [|discriminate].
  intros E. injection E as <-.
  apply List.find_some in Hfind as [Hin _]. now apply (sort_In compare).
Qed.

Lemma handleCancellation_no_double_booking_witness :
  exists p1 p2,
    patient (fst (handleCancellation (initialState 1700000000000) "Monday morning")) = Some p1 /\
    patient (fst (handleCancellation
                    (snd (handleCancellation (initialState 1700000000000) "Monday morning"))
                    "Tuesday morning")) = Some p2 /\
    name p1 = "Sarah Johnson" /\ name p2 = "Emma Davis" /\ id p2 <> id p1.
Proof.
  eexists. eexists.
  split; [reflexivity|]. split; [reflexivity|]. split; [reflexivity|]. split; [reflexivity|].
  exact (proj2 (handleCancellation_no_double_booking (initialState 1700000000000)
                  "Monday morning" "Tuesday morning" _ _ eq_refl eq_refl)).
Defined.

(** X7. With filling switched on, a cancellation leaves the waitlist ordered by
    tier and time of addition; on a waitlist that is so ordered it changes
    nothing but the removal of the entries with the id of the patient booked. *)
Theorem handleCancellation_keeps_order (st : State) (appointmentSlot : string) :
  let r := fst (handleCancellation st appointmentSlot) in
  let st' := snd (handleCancellation st appointmentSlot) in
  (waitlist_autoFill (config st) = true -> StronglySorted (cmp_le compare) (waitlist st')) /\
  (StronglySorted (cmp_le compare) (waitlist st) ->
     waitlist st' =
     match patient r with
     | Some p => otherIds p (waitlist st)
     | None => waitlist st
     end).
Proof.
  unfold handleCancellation.
  destruct (waitlist_autoFill (config st)); simpl.
  2:{ split; [discriminate | reflexivity]. }
  pose proof (sort_sorted compare compare_total compare_trans (waitlist st)) as Hsorted.
  destruct (List.find _ _) as [p|]; simpl.
  - split.
    + intros _. now apply filter_sorted.
    + intros Hs. unfold otherIds. now rewrite (sort_sorted_id compare).
  - split; [intros _; exact Hsorted|]. intros Hs. now apply sort_sorted_id.
Qed.

Lemma handleCancellation_keeps_order_witness :
  waitlist (snd (handleCancellation
                   (snd (handleCancellation (initialState 1700000000000) "Monday evening"))
                   "Tuesday evening"))
  = waitlist (snd (handleCancellation (initialState 1700000000000) "Monday evening")).
Proof.
  destruct (handleCancellation_keeps_order (initialState 1700000000000) "Monday evening")
    as [Hsorted _].
  destruct (handleCancellation_keeps_order
              (snd (handleCancellation (initialState 1700000000000) "Monday evening"))
              "Tuesday evening") as [_ Hfixed].
  exact (Hfixed (Hsorted eq_refl)).
Defined.

Lemma slots_miss_timesOfDay (slot time : string) :
  In slot slots -> In time timesOfDay -> includes (toLowerCase slot) time = false.
Proof.
  unfold slots, timesOfDay. simpl. intros Hs Ht.
  repeat (destruct Hs as [<- | Hs]; [repeat (destruct Ht as [<- | Ht]; [reflexivity|]); destruct Ht|]).
  destruct Hs.
Qed.

(** X8. On a waitlist whose entries prefer times of the day (morning, afternoon,
    evening), the simulated cancellation fills no slot, whichever of its
    three slots is drawn: every entry stays on the waitlist. *)
Theorem simulateCancellation_fills_nothing (st : State) (pick : nat) :
  (forall p time, In p (waitlist st) -> In time (preferredTimes p) -> In time timesOfDay) ->
  Permutation (waitlist (simulateCancellation st pick)) (waitlist st) /\
  (forall randomSlot, List.nth_error slots pick = Some randomSlot ->
     filled (fst (handleCancellation st randomSlot)) = false).
Proof.
  intros Htimes.
  assert (Hnone : forall randomSlot, In randomSlot slots ->
            List.find (patientAvailable (toLowerCase randomSlot)) (sort compare (waitlist st)) = None).
  { intros randomSlot Hslot. apply find_available_none. intros p Hin [time [Ht Hocc]].
    apply (proj1 (sort_In compare _ _)) in Hin. apply includes_spec in Hocc.
    rewrite (slots_miss_timesOfDay randomSlot time Hslot (Htimes p time Hin Ht)) in Hocc.
    discriminate. }
  unfold simulateCancellation. split.
  - destruct (List.nth_error slots pick) as [randomSlot|] eqn:Hpick; [|reflexivity].
    apply List.nth_error_In in Hpick. unfold handleCancellation.
    destruct (waitlist_autoFill (config st)); simpl; [|reflexivity].
    rewrite (Hnone randomSlot Hpick). simpl. apply sort_perm.
  - intros randomSlot Hpick. apply List.nth_error_In in Hpick. unfold handleCancellation.
    destruct (waitlist_autoFill (config st)); simpl; [|reflexivity].
    now rewrite (Hnone randomSlot Hpick).
Qed.

Lemma simulateCancellation_fills_nothing_witness :
  Permutation (waitlist (simulateCancellation (initialState 1700000000000) 0))
              (waitlist (initialState 1700000000000)).
Proof.
  apply (simulateCancellation_fills_nothing (initialState 1700000000000) 0).
  intros p time Hp Ht. simpl in Hp.
  repeat (destruct Hp as [<- | Hp]; [simpl in Ht; unfold timesOfDay; simpl; tauto|]).
  destruct Hp.
Defined.

End WaitlistMore.

(** ** The recall listings *)

Section RecallListings.
Import JS JSDate RecallAutomator.

Lemma insertSorted_ext {A : Type} (c1 c2 : A -> A -> Z) (x : A) (l : list A) :
  (forall y, In y l -> c1 x y = c2 x y) -> insertSorted c1 x l = insertSorted c2 x l.
Proof.
  induction l as [|y l IH]; intros H; simpl; [reflexivity|].
  rewrite (H y (or_introl eq_refl)).
  destruct (c2 x y <=? 0); [reflexivity|]. f_equal. apply IH.
  intros z Hz. apply H. now right.
Qed.

(** Sorting looks at the comparator on the elements of the list only. *)
Lemma sort_ext_in {A : Type} (c1 c2 : A -> A -> Z) (l : list A) :
  (forall x y, In x l -> In y l -> c1 x y = c2 x y) -> sort c1 l = sort c2 l.
Proof.
  unfold sort. induction l as [|x l IH]; intros H; simpl; [reflexivity|].
  rewrite IH by (intros a b Ha Hb; apply H; now right).
  apply insertSorted_ext. intros y Hy. apply H; [now left|].
  right. now apply (sort_In c2).
Qed.

Lemma sort_valid_dates (l : list PatientRecall) :
  (forall r, In r l -> exists t, nextDue r = Some t) ->
  sort byNextDue l = sort byDueTime l /\
  StronglySorted dueNoLater (sort byNextDue l).
Proof.
  intros Hvalid.
  assert (Heq : sort byNextDue l = sort byDueTime l).
  { apply sort_ext_in. intros a b Ha Hb.
    destruct (Hvalid a Ha) as [x Hx], (Hvalid b Hb) as [y Hy].
    unfold byNextDue, byDueTime, dueTime, getTime. now rewrite Hx, Hy. }
  split; [exact Heq|].
  assert (Hs : StronglySorted (cmp_le byDueTime) (sort byDueTime l)).
  { apply sort_sorted; unfold byDueTime; intros; lia. }
  rewrite Heq.
  assert (Hin : forall r, In r (sort byDueTime l) -> exists t, nextDue r = Some t).
  { intros r Hr. apply Hvalid. now apply (sort_In byDueTime). }
  revert Hs Hin. generalize (sort byDueTime l). intros l'.
  induction 1 as [|a l'' Hs IH Hall]; intros Hin; constructor.
  - apply IH. intros r Hr. apply Hin. now right.
  - apply List.Forall_forall. intros b Hb.
    pose proof (proj1 (List.Forall_forall _ _) Hall b Hb) as Hab.
    destruct (Hin a (or_introl eq_refl)) as [x Hx].
    destruct (Hin b (or_intror Hb)) as [y Hy].
    exists x, y. repeat split; try assumption.
    unfold cmp_le, byDueTime, dueTime in Hab. rewrite Hx, Hy in Hab. lia.
Qed.

Lemma pastDue_dueWithin30Days (today : Z) (r : PatientRecall) :
  pastDue today r = true -> dueWithin30Days today r = true.
Proof.
  unfold pastDue, dueWithin30Days, getTime. destruct (nextDue r) as [dueAt|]; [|discriminate].
  intros H. apply Z.ltb_lt in H. apply Z.leb_le. unfold msPerDay.
  Z.div_mod_to_equations. lia.
Qed.

Lemma filter_filter_length {A : Type} (f g : A -> bool) (l : list A) :
  (forall x, f x = true -> g x = true) ->
  (List.length (List.filter f l) <= List.length (List.filter g l))%nat.
Proof.
  intros H. induction l as [|x l IH]; simpl; [lia|].
  destruct (f x) eqn:Hf.
  - rewrite (H x Hf). simpl. lia.
  - destruct (g x); simpl; lia.
Qed.

(** X9. The recalls listed as due are those due within 30 days or overdue, the
    recalls listed as overdue those whose due date has passed; both listings
    are in the order of the due dates; and every overdue recall is also
    listed as due, so that there are at most as many. Recalls with an invalid
    due date are in neither listing. *)
Theorem overdue_recalls_are_due (patientRecalls : list PatientRecall) (today : Z) :
  (forall r, In r (getDueRecalls patientRecalls today) <->
             In r patientRecalls /\
             exists dueAt, nextDue r = Some dueAt /\ -30 <= (today - dueAt) / msPerDay) /\
  (forall r, In r (getOverdueRecalls patientRecalls today) <->
             In r patientRecalls /\ exists dueAt, nextDue r = Some dueAt /\ dueAt < today) /\
  (forall r, In r (getOverdueRecalls patientRecalls today) ->
             In r (getDueRecalls patientRecalls today)) /\
  (List.length (getOverdueRecalls patientRecalls today)
   <= List.length (getDueRecalls patientRecalls today))%nat /\
  StronglySorted dueNoLater (getDueRecalls patientRecalls today) /\
  StronglySorted dueNoLater (getOverdueRecalls patientRecalls today).
Proof.
  unfold getDueRecalls, getOverdueRecalls.
  assert (Hdue : forall r, In r (sort byNextDue (List.filter (dueWithin30Days today) patientRecalls)) <->
            In r patientRecalls /\
            exists dueAt, nextDue r = Some dueAt /\ -30 <= (today - dueAt) / msPerDay).
  { intros r. rewrite (sort_In byNextDue), filter_In. unfold dueWithin30Days, getTime.
    split; intros [Hin H]; (split; [exact Hin|]).
    - destruct (nextDue r) as [dueAt|]; [|discriminate]. exists dueAt. split; [reflexivity|].
      now apply Z.leb_le.
    - destruct H as [dueAt [-> H]]. now apply Z.leb_le. }
  assert (Hover : forall r, In r (sort byNextDue (List.filter (pastDue today) patientRecalls)) <->
            In r patientRecalls /\ exists dueAt, nextDue r = Some dueAt /\ dueAt < today).
  { intros r. rewrite (sort_In byNextDue), filter_In. unfold pastDue, getTime.
    split; intros [Hin H]; (split; [exact Hin|]).
    - destruct (nextDue r) as [dueAt|]; [|discriminate]. exists dueAt. split; [reflexivity|].
      now apply Z.ltb_lt.
    - destruct H as [dueAt [-> H]]. now apply Z.ltb_lt. }
  split; [exact Hdue|]. split; [exact Hover|]. split; [|split; [|split]].
  - intros r Hr. apply (proj1 (sort_In byNextDue _ _)) in Hr. apply (sort_In byNextDue).
    apply filter_In in Hr as [Hin Hp]. apply filter_In. split; [exact Hin|].
    now apply pastDue_dueWithin30Days.
  - rewrite (Permutation_length (sort_perm byNextDue _)).
    rewrite (Permutation_length (sort_perm byNextDue _)).
    apply filter_filter_length. apply pastDue_dueWithin30Days.
  - apply sort_valid_dates. intros r Hr. apply filter_In in Hr as [_ Hr].
    unfold dueWithin30Days, getTime in Hr. destruct (nextDue r) as [t|]; [now exists t | discriminate].
  - apply sort_valid_dates. intros r Hr. apply filter_In in Hr as [_ Hr].
    unfold pastDue, getTime in Hr. destruct (nextDue r) as [t|]; [now exists t | discriminate].
Qed.

End RecallListings.

(** ** The recall campaign *)

Section CampaignFacts.
Import JS JSDate RecallAutomator RecallCampaign.

Lemma indexedFrom_In (l : list PatientRecall) (k i : nat) (r : PatientRecall) :
  In (i, r) (indexedFrom k l) <-> (k <= i)%nat /\ l !! (i - k)%nat = Some r.
Proof.
  revert k. induction l as [|x l IH]; intros k; simpl.
  - split; [intros [] | intros [_ H]; discriminate H].
  - rewrite IH. split.
    + intros [E | [Hle Hl]].
      * injection E as -> ->. split; [lia|]. now rewrite Nat.sub_diag.
      * split; [lia|]. replace (i - k)%nat with (S (i - S k)) by lia. exact Hl.
    + intros [Hle Hl]. destruct (Nat.eq_dec i k) as [->|Hne].
      * left. rewrite Nat.sub_diag in Hl. simpl in Hl. now injection Hl as ->.
      * right. split; [lia|]. replace (i - k)%nat with (S (i - S k)) in Hl by lia. exact Hl.
Qed.

Lemma indexedFrom_NoDup (l : list PatientRecall) (k : nat) :
  List.NoDup (List.map fst (indexedFrom k l)).
Proof.
  revert k. induction l as [|x l IH]; intros k; simpl; constructor; [|apply IH].
  intros Hin. apply in_map_iff in Hin as [[i r] [E Hin]]. simpl in E. subst i.
  apply indexedFrom_In in Hin. lia.
Qed.

Lemma indexedFrom_snd (l : list PatientRecall) (k : nat) :
  List.map snd (indexedFrom k l) = l.
Proof. revert k. induction l as [|x l IH]; intros k; simpl; [reflexivity | now rewrite IH]. Qed.

Lemma filter_fst_NoDup {A B : Type} (f : A * B -> bool) (l : list (A * B)) :
  List.NoDup (List.map fst l) -> List.NoDup (List.map fst (List.filter f l)).
Proof.
  induction l as [|x l IH]; simpl; intros H; [constructor|].
  inversion H as [|? ? Hx Hl]; subst.
  destruct (f x); simpl; [constructor|]; try now apply IH.
  intros Hin. apply Hx. apply in_map_iff in Hin as [y [E Hy]].
  apply filter_In in Hy as [Hy _]. apply in_map_iff. now exists y.
Qed.

Lemma filter_snd_length {A B : Type} (f : B -> bool) (l : list (A * B)) :
  List.length (List.filter (fun p => f (snd p)) l) = List.length (List.filter f (List.map snd l)).
Proof.
  induction l as [|x l IH]; simpl; [reflexivity|]. destruct (f (snd x)); simpl; now rewrite IH.
Qed.

Lemma filter_fst_length {A B : Type} (f : A -> bool) (l : list (A * B)) :
  List.length (List.filter f (List.map fst l)) = List.length (List.filter (fun p => f (fst p)) l).
Proof.
  induction l as [|x l IH]; simpl; [reflexivity|]. destruct (f (fst x)); simpl; now rewrite IH.
Qed.

Lemma filter_filter_and {A : Type} (f g : A -> bool) (l : list A) :
  List.filter f (List.filter g l) = List.filter (fun x => g x && f x) l.
Proof.
  induction l as [|x l IH]; simpl; [reflexivity|].
  destruct (g x); simpl; [destruct (f x)|]; now rewrite IH.
Qed.

(** The due objects: each position once, those of the recalls that are due. *)
Lemma dueRecalls_spec (patientRecalls : list PatientRecall) (today : Z) :
  List.NoDup (dueRecalls patientRecalls today) /\
  (forall i, In i (dueRecalls patientRecalls today) <->
     exists r, patientRecalls !! i = Some r /\ dueWithin30Days today r = true) /\
  List.length (List.filter (attemptsLeft patientRecalls) (dueRecalls patientRecalls today)) =
  List.length (List.filter (contactable today) patientRecalls).
Proof.
  unfold dueRecalls.
  set (cmp := fun a b : nat * PatientRecall => byNextDue (snd a) (snd b)).
  set (F := List.filter (fun ir => dueWithin30Days today (snd ir)) (indexedFrom 0 patientRecalls)).
  pose proof (sort_perm cmp F) as Hperm.
  assert (HF : forall i r, In (i, r) F <->
             patientRecalls !! i = Some r /\ dueWithin30Days today r = true).
  { intros i r. unfold F. rewrite filter_In, indexedFrom_In. simpl.
    rewrite Nat.sub_0_r. split; [intros [[_ H] H']; auto | intros [H H']; repeat split; auto; lia]. }
  split; [|split].
  - apply (Permutation_NoDup (l := List.map fst F)).
    + apply Permutation_map. now symmetry.
    + apply filter_fst_NoDup, indexedFrom_NoDup.
  - intros i. rewrite in_map_iff. split.
    + intros [[j r] [E Hin]]. simpl in E. subst j.
      apply (Permutation_in _ Hperm) in Hin. exists r. now apply HF.
    + intros [r Hr]. exists (i, r). split; [reflexivity|].
      apply (Permutation_in _ (Permutation_sym Hperm)). now apply HF.
  - rewrite filter_fst_length.
    rewrite (Permutation_length (filter_perm _ _ _ Hperm)).
    rewrite (List.filter_ext_in (fun p => attemptsLeft patientRecalls (fst p))
               (fun p => contactAttempts (snd p) <? 3)).
    2:{ intros [i r] Hin. apply HF in Hin as [Hl _]. unfold attemptsLeft. simpl. now rewrite Hl. }
    unfold F. rewrite filter_filter_and.
    transitivity (List.length (List.filter (fun p => contactable today (snd p))
                                 (indexedFrom 0 patientRecalls))); [reflexivity|].
    now rewrite filter_snd_length, indexedFrom_snd.
Qed.

Lemma attemptsLeft_insert (store : list PatientRecall) (i j : nat) (r : PatientRecall) :
  i <> j -> attemptsLeft (<[i := r]> store) j = attemptsLeft store j.
Proof. intros H. unfold attemptsLeft. now rewrite list_lookup_insert_ne. Qed.

Lemma campaignLoop_counts (draws : nat -> float) (due : list nat) :
  List.NoDup due ->
  forall store acc,
  let c := fst (campaignLoop due draws store acc) in
  let store' := snd (campaignLoop due draws store acc) in
  List.length store' = List.length store /\
  campaign_contacted c =
    campaign_contacted acc + Z.of_nat (List.length (List.filter (attemptsLeft store) due)) /\
  Z.of_nat (List.length (campaignResults c)) =
    Z.of_nat (List.length (campaignResults acc))
    + Z.of_nat (List.length (List.filter (attemptsLeft store) due)) /\
  campaign_scheduled c - successes (campaignResults c) =
    campaign_scheduled acc - successes (campaignResults acc) /\
  potentialRevenue c - totalRevenue (campaignResults c) =
    potentialRevenue acc - totalRevenue (campaignResults acc).
Proof.
  induction 1 as [|i rest Hi Hnd IH]; intros store acc; cbn [campaignLoop List.filter].
  { simpl. repeat split; lia. }
  assert (Ha : attemptsLeft store i =
               match store !! i with Some r => contactAttempts r <? 3 | None => false end)
    by reflexivity.
  rewrite Ha. clear Ha.
  destruct (store !! i) as [recall|] eqn:Hl; [|apply IH].
  destruct (contactAttempts recall <? 3) eqn:Hlt; [|apply IH].
  set (b := contactPatient recall (draws (Z.to_nat (campaign_contacted acc)))).
  match goal with |- context [campaignLoop rest draws ?s ?a] =>
    specialize (IH s a); destruct IH as [IH1 [IH2 [IH3 [IH4 IH5]]]] end.
  cbn [campaign_contacted campaign_scheduled potentialRevenue campaignResults] in *.
  assert (Hfilter : List.filter (attemptsLeft (<[i := afterContact b recall]> store)) rest
                  = List.filter (attemptsLeft store) rest).
  { apply List.filter_ext_in. intros j Hj. apply attemptsLeft_insert. intros ->. contradiction. }
  rewrite Hfilter in IH2, IH3. rewrite length_insert in IH1.
  rewrite List.length_app in IH3. simpl in IH3 |- *.
  unfold successes in *. rewrite List.filter_app, List.length_app in IH4.
  assert (Htot : forall l x, totalRevenue (l ++ [x]) = totalRevenue l + revenue x).
  { intros l x. unfold totalRevenue. induction l as [|y l IHl]; simpl; [lia|]. rewrite IHl. lia. }
  rewrite Htot in IH5. simpl in IH4, IH5.
  repeat split; try lia.
  - destruct b; simpl in IH4; lia.
  - destruct b; simpl in IH5; lia.
Qed.

Lemma campaignLoop_store (draws : nat -> float) (due : list nat) :
  List.NoDup due ->
  forall store acc i,
  let store' := snd (campaignLoop due draws store acc) in
  (In i due /\ exists r b, store !! i = Some r /\ contactAttempts r < 3 /\
                           store' !! i = Some (afterContact b r)) \/
  ((~ In i due \/ attemptsLeft store i = false) /\ store' !! i = store !! i).
Proof.
  induction 1 as [|i0 rest Hi Hnd IH]; intros store acc i; simpl.
  { right. split; [left; tauto | reflexivity]. }
  destruct (store !! i0) as [recall|] eqn:Hl.
  2:{ destruct (IH store acc i) as [[Hin H] | [Hno H]]; [left; split; [now right | exact H]|].
      right. split; [|exact H]. destruct (Nat.eq_dec i0 i) as [->|Hne].
      - right. unfold attemptsLeft. now rewrite Hl.
      - destruct Hno as [Hno | Hno]; [left; intros [E | Hin]; [congruence | tauto] | now right]. }
  destruct (contactAttempts recall <? 3) eqn:Hlt.
  2:{ destruct (IH store acc i) as [[Hin H] | [Hno H]]; [left; split; [now right | exact H]|].
      right. split; [|exact H]. destruct (Nat.eq_dec i0 i) as [->|Hne].
      - right. unfold attemptsLeft. now rewrite Hl.
      - destruct Hno as [Hno | Hno]; [left; intros [E | Hin]; [congruence | tauto] | now right]. }
  set (b := contactPatient recall (draws (Z.to_nat (campaign_contacted acc)))).
  match goal with |- context [campaignLoop rest draws ?s ?a] =>
    destruct (IH s a i) as [[Hin [r [b' [Hr [Hlt' Hs]]]]] | [Hno Hs]] end.
  - assert (Hne : i0 <> i) by (intros ->; contradiction).
    rewrite list_lookup_insert_ne in Hr by exact Hne.
    left. split; [now right|]. exists r, b'. auto.
  - destruct (Nat.eq_dec i0 i) as [->|Hne].
    + left. split; [now left|]. exists recall, b. split; [exact Hl|].
      split; [now apply Z.ltb_lt|]. rewrite Hs.
      apply list_lookup_insert_eq. now apply lookup_lt_Some in Hl.
    + right. rewrite list_lookup_insert_ne in Hs by exact Hne.
      rewrite attemptsLeft_insert in Hno by exact Hne. split; [|exact Hs].
      destruct Hno as [Hno | Hno]; [left; intros [E | Hin]; [congruence | tauto] | now right].
Qed.

Lemma processRecallCampaign_store_at
    (patientRecalls : list PatientRecall) (today : Z) (draws : nat -> float)
    (i : nat) (r : PatientRecall) :
  patientRecalls !! i = Some r ->
  if contactable today r
  then exists b, snd (processRecallCampaign patientRecalls today draws) !! i
                 = Some (afterContact b r)
  else snd (processRecallCampaign patientRecalls today draws) !! i = Some r.
Proof.
  intros Hr. unfold processRecallCampaign.
  destruct (dueRecalls_spec patientRecalls today) as [Hnd [Hdue _]].
  destruct (campaignLoop_store draws _ Hnd patientRecalls
              {| campaign_contacted := 0; campaign_scheduled := 0; potentialRevenue := 0;
                 campaignResults := [] |} i)
    as [[Hin [r0 [b [Hr0 [Hlt Hs]]]]] | [Hno Hs]].
  - rewrite Hr in Hr0. injection Hr0 as <-.
    apply Hdue in Hin as [r1 [Hr1 Hd]]. rewrite Hr in Hr1. injection Hr1 as <-.
    unfold contactable. rewrite Hd. apply Z.ltb_lt in Hlt. rewrite Hlt. simpl.
    now exists b.
  - rewrite Hr in Hs.
    assert (Hfalse : contactable today r = false).
    { unfold contactable. destruct Hno as [Hno | Hno].
      - destruct (dueWithin30Days today r) eqn:Hd; [|reflexivity].
        exfalso. apply Hno. apply Hdue. now exists r.
      - unfold attemptsLeft in Hno. rewrite Hr in Hno. rewrite Hno. apply andb_false_r. }
    now rewrite Hfalse.
Qed.

Lemma processRecallCampaign_length
    (patientRecalls : list PatientRecall) (today : Z) (draws : nat -> float) :
  List.length (snd (processRecallCampaign patientRecalls today draws))
  = List.length patientRecalls.
Proof.
  unfold processRecallCampaign.
  destruct (dueRecalls_spec patientRecalls today) as [Hnd _].
  exact (proj1 (campaignLoop_counts draws _ Hnd patientRecalls _)).
Qed.


(** X11. A campaign never takes a recall beyond 3 contact attempts. *)
Theorem processRecallCampaign_attempts_capped
    (patientRecalls : list PatientRecall) (today : Z) (draws : nat -> float) :
  (forall r, In r patientRecalls -> contactAttempts r <= 3) ->
  forall r', In r' (snd (processRecallCampaign patientRecalls today draws)) ->
             contactAttempts r' <= 3.
Proof.
  intros Hcap r' Hin.
  apply list_elem_of_In, list_elem_of_lookup in Hin as [i Hi].
  assert (Hlt : (i < List.length patientRecalls)%nat).
  { rewrite <- (processRecallCampaign_length patientRecalls today draws).
    now apply lookup_lt_Some in Hi. }
  apply lookup_lt_is_Some in Hlt as [r Hr].
  pose proof (processRecallCampaign_store_at patientRecalls today draws i r Hr) as Hcase.
  assert (Hr3 : contactAttempts r <= 3).
  { apply Hcap. apply list_elem_of_In, list_elem_of_lookup. now exists i. }
  destruct (contactable today r) eqn:Hc.
  - destruct Hcase as [b Hb]. rewrite Hb in Hi. injection Hi as <-. simpl.
    unfold contactable in Hc. apply andb_true_iff in Hc as [_ Hc]. apply Z.ltb_lt in Hc. lia.
  - rewrite Hcase in Hi. now injection Hi as <-.
Qed.

Lemma processRecallCampaign_attempts_capped_witness :
  List.Forall (fun r' => contactAttempts r' <= 3)
    (snd (processRecallCampaign seededRecalls 1735000000000 (fun _ => 0.5%float))).
Proof.
  apply List.Forall_forall.
  apply (processRecallCampaign_attempts_capped seededRecalls 1735000000000 (fun _ => 0.5%float)).
  intros r Hr. simpl in Hr.
  repeat (destruct Hr as [<- | Hr]; [simpl; lia|]). destruct Hr.
Defined.

End CampaignFacts.

(** ** More on the redaction: counts, data types, audit log, compliance *)

Section RedactionMore.
Import JS RegExp HIPAAShield.

Lemma dataTypeOf_rule (rule : Rule) : In rule redactionRules -> In (dataTypeOf (replace rule)) dataTypes.
Proof.
  intros H. simpl in H.
  repeat (destruct H as [<- | H]; [vm_compute; tauto|]). destruct H.
Qed.

Lemma applyRule_consistent (text : string) (acc : Redaction) (rule : Rule) :
  In rule redactionRules -> consistent acc -> consistent (applyRule text acc rule).
Proof.
  intros Hrule [Hpos [Hzero [Hnd Hknown]]]. unfold applyRule.
  destruct (matchAll (pattern rule) text) as [|m ms] eqn:Hm; [repeat split; tauto|].
  unfold consistent. cbn [redactionCount dataTypesFound].
  assert (Hlen : 0 < Z.of_nat (List.length (m :: ms))) by (simpl; lia).
  destruct (List.existsb (String.eqb (dataTypeOf (replace rule))) (dataTypesFound acc)) eqn:Hex.
  - split; [lia|]. split; [|split; assumption].
    split; [lia|]. intros E. rewrite E in Hex. discriminate Hex.
  - split; [lia|]. split; [|split].
    + split; [lia|]. intros E. destruct (dataTypesFound acc); discriminate E.
    + apply NoDup_ListNoDup, NoDup_app. repeat split.
      * now apply NoDup_ListNoDup.
      * intros t Ht Ht'. apply list_elem_of_In in Ht. apply list_elem_of_In in Ht'.
        destruct Ht' as [<- | []].
        assert (Htrue : List.existsb (String.eqb (dataTypeOf (replace rule))) (dataTypesFound acc) = true).
        { apply existsb_exists. exists (dataTypeOf (replace rule)). split; [exact Ht|].
          apply String.eqb_refl. }
        congruence.
      * apply NoDup_ListNoDup. repeat constructor. intros [].
    + intros t Ht. apply in_app_or in Ht as [Ht | [<- | []]]; [now apply Hknown|].
      now apply dataTypeOf_rule.
Qed.

Lemma scan_match_found (re : RegExp) (s : string) (prev : option ascii) :
  matchesOf (scan re O prev s) <> [] ->
  exists before rest n, s = before ++ rest /\ matchAt re (lastChar prev before) rest = Some n.
Proof.
  revert prev. induction s as [|c s IH]; intros prev; simpl.
  - destruct (matchAt re prev EmptyString) as [n|] eqn:Hm.
    + intros _. now exists EmptyString, EmptyString, n.
    + intros H. now destruct H.
  - destruct (matchAt re prev (String c s)) as [n|] eqn:Hm.
    + intros _. now exists EmptyString, (String c s), n.
    + simpl. intros H. destruct (IH (Some c) H) as [before [rest [n [E Hn]]]].
      exists (String c before), rest, n. split; [|exact Hn].
      change (String c s = String c (before ++ rest)). now rewrite E.
Qed.

Lemma matchAll_cons_hasMatch (re : RegExp) (text : string) :
  matchAll re text <> [] -> hasMatch re text.
Proof. apply scan_match_found. Qed.

Lemma applyRule_count (text : string) (acc : Redaction) (rule : Rule) :
  redactionCount (applyRule text acc rule) =
  redactionCount acc + Z.of_nat (List.length (matchAll (pattern rule) text)).
Proof.
  unfold applyRule. destruct (matchAll (pattern rule) text); simpl; lia.
Qed.

Lemma fold_applyRule_spec (text : string) (rules : list Rule) (acc : Redaction) :
  (forall rule, In rule rules -> In rule redactionRules) ->
  consistent acc ->
  consistent (List.fold_left (applyRule text) rules acc) /\
  redactionCount (List.fold_left (applyRule text) rules acc) =
    redactionCount acc
    + List.fold_right (fun rule n => Z.of_nat (List.length (matchAll (pattern rule) text)) + n)
        0 rules.
Proof.
  revert acc. induction rules as [|rule rules IH]; intros acc Hsub Hacc; simpl.
  - split; [exact Hacc | lia].
  - destruct (IH (applyRule text acc rule)) as [Hc Hn].
    + intros r Hr. apply Hsub. now right.
    + apply applyRule_consistent; [apply Hsub; now left | exact Hacc].
    + split; [exact Hc|]. rewrite Hn, applyRule_count. lia.
Qed.

Lemma applyRules_spec (text : string) :
  consistent (applyRules text) /\
  (0 < redactionCount (applyRules text) <->
   exists rule, In rule redactionRules /\ hasMatch (pattern rule) text).
Proof.
  unfold applyRules.
  destruct (fold_applyRule_spec text redactionRules
              {| redactedText := text; redactionCount := 0; dataTypesFound := [] |})
    as [Hc Hn].
  { auto. }
  { unfold consistent. simpl. repeat split; try lia; try constructor; try tauto. }
  split; [exact Hc|]. rewrite Hn. cbn [redactionCount]. clear Hc Hn.
  generalize redactionRules as rules. induction rules as [|rule rules IH]; simpl.
  - split; [lia | intros [r [[] _]]].
  - split.
    + intros Hpos. destruct (matchAll (pattern rule) text) as [|m ms] eqn:Hm.
      * simpl in Hpos. destruct (proj1 IH) as [r [Hr Hmatch]]; [lia|].
        exists r. split; [now right | exact Hmatch].
      * exists rule. split; [now left|]. apply matchAll_cons_hasMatch. now rewrite Hm.
    + intros [r [[<- | Hr] Hmatch]].
      * destruct (matchAll (pattern rule) text) as [|m ms] eqn:Hm.
        -- exfalso. now apply (proj1 (matchAll_nil_iff (pattern rule) text) Hm).
        -- assert (Hge : 0 <= List.fold_right
                      (fun rule n => Z.of_nat (List.length (matchAll (pattern rule) text)) + n) 0 rules).
           { clear. induction rules; simpl; lia. }
           simpl List.length. lia.
      * assert (Hpos : 0 < List.fold_right
                      (fun rule n => Z.of_nat (List.length (matchAll (pattern rule) text)) + n) 0 rules).
        { apply IH. now exists r. }
        lia.
Qed.

(** X12. The findings of a redaction agree with each other: the count is not
    negative, it is 0 exactly when no data type is reported and positive
    exactly when some rule has a match in the text; the data types reported
    are distinct names of the seven types; and the audit log grows by one
    entry that records the lengths of the text before and after and whether
    anything was redacted. *)
Theorem redactPHI_findings (auditLog : list AuditEntry) (now : Z) (text : string) :
  let r := fst (redactPHI auditLog now text) in
  0 <= redactionCount r /\
  (redactionCount r = 0 <-> dataTypesFound r = []) /\
  (0 < redactionCount r <->
     exists rule, In rule redactionRules /\ hasMatch (pattern rule) text) /\
  List.NoDup (dataTypesFound r) /\
  (forall t, In t (dataTypesFound r) -> In t dataTypes) /\
  exists entry,
    snd (redactPHI auditLog now text) = (auditLog ++ [entry])%list /\
    timestamp entry = now /\
    redacted entry = (0 <? redactionCount r) /\
    originalLength entry = Z.of_nat (String.length text) /\
    redactedLength entry = Z.of_nat (String.length (redactedText r)).
Proof.
  change (fst (redactPHI auditLog now text)) with (applyRules text). cbv zeta.
  destruct (applyRules_spec text) as [[Hpos [Hzero [Hnd Hknown]]] Hmatch].
  repeat (split; [assumption|]).
  eexists. split; [reflexivity|]. repeat split.
Qed.

(** X13. A transcript is found compliant exactly when no redaction rule has a
    match in it, and then there is no violation and no recommendation; there
    are always as many recommendations as violations, three at most. *)
Theorem validateHIPAACompliance_compliant_iff
    (auditLog : list AuditEntry) (now : Z) (transcript : string) :
  let c := fst (validateHIPAACompliance auditLog now transcript) in
  (isCompliant c = true <->
     forall rule, In rule redactionRules -> ~ hasMatch (pattern rule) transcript) /\
  (isCompliant c = true -> violations c = [] /\ recommendations c = []) /\
  List.length (recommendations c) = List.length (violations c) /\
  (List.length (violations c) <= 3)%nat /\
  snd (validateHIPAACompliance auditLog now transcript) = snd (redactPHI auditLog now transcript).
Proof.
  unfold validateHIPAACompliance, redactPHI. cbv zeta beta iota.
  pose proof (applyRules_spec transcript) as Hspec. unfold consistent in Hspec.
  revert Hspec. generalize (applyRules transcript) as r. intros r.
  intros [[Hpos [Hzero [Hnd Hknown]]] Hmatch].
  cbn [fst snd isCompliant violations recommendations].
  set (count := redactionCount r) in *.
  set (types := dataTypesFound r) in *.
  assert (Hempty : count = 0 ->
            (0 <? count) = false /\ List.existsb (String.eqb "ssn") types = false /\
            List.existsb (String.eqb "credit_card") types = false).
  { intros Hc. rewrite (proj1 Hzero Hc). split; [apply Z.ltb_ge; lia | split; reflexivity]. }
  split; [|split; [|split; [|split; [|reflexivity]]]].
  - split.
    + intros Hcomp rule Hrule Hm.
      assert (Hc : 0 < count) by (apply Hmatch; now exists rule).
      apply Z.ltb_lt in Hc. rewrite Hc in Hcomp. discriminate Hcomp.
    + intros Hnone.
      assert (Hc : count = 0).
      { destruct (Z.eq_dec count 0) as [E|E]; [exact E|]. exfalso.
        assert (Hc : 0 < count) by lia. apply Hmatch in Hc as [rule [Hr Hm]].
        exact (Hnone rule Hr Hm). }
      destruct (Hempty Hc) as [-> [-> ->]]. reflexivity.
  - intros Hcomp.
    destruct (0 <? count); [discriminate Hcomp|].
    destruct (List.existsb (String.eqb "ssn") types); [discriminate Hcomp|].
    destruct (List.existsb (String.eqb "credit_card") types); [discriminate Hcomp|].
    split; reflexivity.
  - destruct (0 <? count), (List.existsb (String.eqb "ssn") types),
      (List.existsb (String.eqb "credit_card") types); reflexivity.
  - destruct (0 <? count), (List.existsb (String.eqb "ssn") types),
      (List.existsb (String.eqb "credit_card") types); cbn [List.length List.app]; lia.
Qed.

End RedactionMore.

(** ** More on the dental service: the error log and the health report *)

Section DentalServiceMore.
Import JS DentalConfig DentalService.

Lemma logError_errorLog (st : State) (now : Z) (context error : string) (severity : Severity) :
  errorLog (logError st now context error severity) =
  logged (errorLog st)
    {| timestamp := now; error := error; context := context; severity := severity |}.
Proof. reflexivity. Qed.

Lemma logged_spec (log : list ErrorEntry) (entry : ErrorEntry) :
  (List.length (logged log entry) <= 100)%nat /\
  (exists dropped kept, log = (dropped ++ kept)%list /\ logged log entry = (kept ++ [entry])%list) /\
  ((List.length log < 100)%nat -> logged log entry = (log ++ [entry])%list).
Proof.
  unfold logged. rewrite List.length_app. simpl.
  destruct (Nat.ltb_spec 100 (List.length log + 1)) as [Hbig | Hsmall].
  - split; [|split].
    + rewrite List.length_skipn, List.length_app. simpl. lia.
    + exists (List.firstn (List.length log + 1 - 100) log),
             (List.skipn (List.length log + 1 - 100) log).
      split; [now rewrite List.firstn_skipn|].
      rewrite List.skipn_app.
      replace (List.length log + 1 - 100 - List.length log)%nat with 0%nat by lia.
      reflexivity.
    + lia.
  - split; [rewrite List.length_app; simpl; lia|]. split; [|reflexivity].
    now exists [], log.
Qed.

(** X14. An entry written by [logError] is the last of the log; the entries
    before it are the latest of the log as it was; and the log never holds
    more than 100 entries afterwards. *)
Theorem logError_keeps_last_100
    (st : State) (now : Z) (context error : string) (severity : Severity) :
  let entry := {| timestamp := now; error := error; context := context; severity := severity |} in
  let st' := logError st now context error severity in
  (List.length (errorLog st') <= 100)%nat /\
  (exists dropped kept,
     errorLog st = (dropped ++ kept)%list /\ errorLog st' = (kept ++ [entry])%list) /\
  ((List.length (errorLog st) < 100)%nat -> errorLog st' = (errorLog st ++ [entry])%list) /\
  initialized st' = initialized st.
Proof.
  cbv zeta. rewrite logError_errorLog.
  destruct (logged_spec (errorLog st)
              {| timestamp := now; error := error; context := context; severity := severity |})
    as [H1 [H2 H3]].
  repeat split; assumption.
Qed.

Lemma initialize_effect (st : State) (now : Z) :
  let st1 := snd (if initialized st then (true, st) else initialize st now) in
  initialized st1 = true /\ errorLog st1 = errorLog st.
Proof.
  unfold initialize. destruct (initialized st) eqn:Hi; simpl; [split; auto|].
  split; reflexivity.
Qed.

(** X15. What a lookup of a recall interval leaves behind: the service is
    initialised; a procedure of the table leaves the error log as it was;
    any other argument adds one entry of context "scheduleRecall", of low
    severity for a name that is simply unknown and of medium severity
    otherwise; the log stays within 100 entries. *)
Theorem scheduleRecall_error_log (st : State) (now : Z) (procedure : string) :
  let st' := snd (scheduleRecall st now procedure) in
  initialized st' = true /\
  (is_Some (configuredInterval procedure) -> errorLog st' = errorLog st) /\
  (configuredInterval procedure = None ->
     exists message severity,
       errorLog st' =
         logged (errorLog st)
           {| timestamp := now; error := message; context := "scheduleRecall";
              severity := severity |} /\
       (severity = low \/ severity = medium)) /\
  ((List.length (errorLog st) <= 100)%nat -> (List.length (errorLog st') <= 100)%nat).
Proof.
  unfold scheduleRecall, scheduleRecall_try, configuredInterval.
  pose proof (initialize_ready st now) as Hready.
  pose proof (initialize_effect st now) as [Hinit Hlog]. cbv zeta in Hinit, Hlog.
  destruct (if initialized st then (true, st) else initialize st now) as [ready st1].
  simpl in Hready, Hinit, Hlog. subst ready. simpl.
  assert (Hcase :
    forall message sev,
      let st' := logError st1 now "scheduleRecall" message sev in
      recallSettings_intervals !! trim (toLowerCase procedure) = None ->
      (sev = low \/ sev = medium) ->
      initialized st' = true /\
      (is_Some (recallSettings_intervals !! trim (toLowerCase procedure)) ->
         errorLog st' = errorLog st) /\
      (recallSettings_intervals !! trim (toLowerCase procedure) = None ->
         exists message severity,
           errorLog st' =
             logged (errorLog st)
               {| timestamp := now; error := message; context := "scheduleRecall";
                  severity := severity |} /\
           (severity = low \/ severity = medium)) /\
      ((List.length (errorLog st) <= 100)%nat -> (List.length (errorLog st') <= 100)%nat)).
  { intros message sev st' Hnone Hsev. subst st'.
    rewrite logError_errorLog, Hlog. split; [exact Hinit|]. split; [|split].
    - rewrite Hnone. intros [x Hx]. discriminate Hx.
    - intros _. now exists message, sev.
    - intros _. apply logged_spec. }
  destruct (String.eqb procedure EmptyString) eqn:Hempty.
  { apply String.eqb_eq in Hempty. subst procedure. simpl. apply Hcase; [reflexivity | now right]. }
  destruct (String.length (trim (toLowerCase procedure)) =? 0)%nat eqn:Hlen.
  { simpl. apply Hcase; [|now right].
    apply length_zero_empty in Hlen. rewrite Hlen. reflexivity. }
  unfold getProperty.
  destruct (recallSettings_intervals !! trim (toLowerCase procedure)) as [interval|] eqn:Hget.
  - apply intervals_positive in Hget.
    destruct (Z.leb_spec interval 0) as [Hbad|_]; [lia|]. simpl.
    split; [exact Hinit|]. split; [intros _; exact Hlog|].
    split; [discriminate|]. now rewrite Hlog.
  - destruct (List.existsb _ objectPrototypeKeys); simpl.
    + apply Hcase; [reflexivity | now right].
    + apply Hcase; [reflexivity | now left].
Qed.

Lemma tally_from (contexts : list string) (counts : gmap string Z) :
  (forall c, In c contexts -> ~ In c objectPrototypeKeys) ->
  exists counts',
    List.fold_left tallyStep contexts (Some counts) = Some counts' /\
    forall c,
      counts' !! c =
      match counts !! c with
      | Some n => Some (n + occurrences c contexts)
      | None => if occurrences c contexts =? 0 then None else Some (occurrences c contexts)
      end.
Proof.
  revert counts. induction contexts as [|x contexts IH]; intros counts Hok; cbn [List.fold_left].
  - exists counts. split; [reflexivity|]. intros c. unfold occurrences. simpl.
    destruct (counts !! c); [f_equal; lia | reflexivity].
  - assert (Hx : List.existsb (String.eqb x) objectPrototypeKeys = false).
    { destruct (List.existsb (String.eqb x) objectPrototypeKeys) eqn:E; [|reflexivity].
      apply existsb_exists in E as [k [Hk E]]. apply String.eqb_eq in E. subst k.
      now destruct (Hok x (or_introl eq_refl)). }
    assert (Hstep : exists counts1,
              tallyStep (Some counts) x = Some counts1 /\
              forall c, counts1 !! c =
                if String.eqb c x then Some (match counts !! x with Some n => n + 1 | None => 1 end)
                else counts !! c).
    { unfold tallyStep, getProperty. rewrite Hx.
      destruct (counts !! x) as [n|] eqn:Hn; eexists; (split; [reflexivity|]); intros c;
        (destruct (String.eqb_spec c x) as [->|Hne];
         [now rewrite lookup_insert_eq | rewrite lookup_insert_ne by congruence; reflexivity]). }
    destruct Hstep as [counts1 [-> Hc1]].
    destruct (IH counts1) as [counts' [Hfold Hc']].
    { intros c Hc. apply Hok. now right. }
    exists counts'. split; [exact Hfold|]. intros c. rewrite Hc', Hc1.
    unfold occurrences. simpl. rewrite (String.eqb_sym c x).
    destruct (String.eqb_spec x c) as [->|Hne]; simpl.
    + destruct (counts !! c) as [n|]; f_equal; lia.
    + reflexivity.
Qed.

(** X16. The health report: it lists the latest 20 entries of the log at most;
    a high-severity entry younger than a minute makes the status critical,
    and a healthy status means no such entry and at most 5 entries in the
    last minute; when no context names a member of [Object.prototype], the
    categories count every entry of the log under its context; and after
    [clearErrorLog] the report is healthy, without errors and with uptime 0. *)
Theorem getSystemHealth_report (st : State) (now : Z) :
  let h := getSystemHealth st now in
  ((List.length (errors h) <= 20)%nat /\
   exists older, errorLog st = (older ++ errors h)%list) /\
  ((exists e, In e (errorLog st) /\ severity e = high /\ now - timestamp e < 60000) ->
     status h = critical) /\
  (status h = healthy ->
     (List.length (List.filter (recent now) (errorLog st)) <= 5)%nat /\
     forall e, In e (errorLog st) -> now - timestamp e < 60000 -> severity e <> high) /\
  ((forall e, In e (errorLog st) -> ~ In (context e) objectPrototypeKeys) ->
     exists counts, errorsByCategory h = Some counts /\
       forall c, counts !! c =
                 if occurrences c (List.map context (errorLog st)) =? 0 then None
                 else Some (occurrences c (List.map context (errorLog st)))) /\
  (status (getSystemHealth (clearErrorLog st) now) = healthy /\
   errors (getSystemHealth (clearErrorLog st) now) = [] /\
   uptime (getSystemHealth (clearErrorLog st) now) = 0 /\
   lastError (getSystemHealth (clearErrorLog st) now) = None).
Proof.
  cbv zeta. unfold getSystemHealth. cbn [status errors uptime lastError errorsByCategory].
  assert (Hhigh : forall e, In e (errorLog st) -> severity e = high -> now - timestamp e < 60000 ->
            (0 <? List.length (List.filter isHigh (List.filter (recent now) (errorLog st))))%nat = true).
  { intros e Hin Hsev Hrec. apply Nat.ltb_lt.
    assert (Hf : In e (List.filter isHigh (List.filter (recent now) (errorLog st)))).
    { apply filter_In. split; [apply filter_In; split; [exact Hin|]|].
      - unfold recent. now apply Z.ltb_lt.
      - unfold isHigh. now rewrite Hsev. }
    destruct (List.filter isHigh _); [destruct Hf | simpl; lia]. }
  split; [|split; [|split; [|split]]].
  - split.
    + rewrite List.length_skipn. lia.
    + exists (List.firstn (List.length (errorLog st) - 20) (errorLog st)).
      now rewrite List.firstn_skipn.
  - intros [e [Hin [Hsev Hrec]]]. now rewrite (Hhigh e Hin Hsev Hrec).
  - intros Hhealthy. split.
    + destruct (0 <? _)%nat; [discriminate Hhealthy|]. simpl in Hhealthy.
      destruct (Nat.ltb_spec 10 (List.length (List.filter (recent now) (errorLog st))));
        [discriminate Hhealthy|].
      destruct (2 <? _)%nat; [discriminate Hhealthy|]. simpl in Hhealthy.
      destruct (Nat.ltb_spec 5 (List.length (List.filter (recent now) (errorLog st))));
        [discriminate Hhealthy | lia].
    + intros e Hin Hrec Hsev. rewrite (Hhigh e Hin Hsev Hrec) in Hhealthy. discriminate Hhealthy.
  - intros Hok. unfold tally.
    destruct (tally_from (List.map context (errorLog st)) ∅) as [counts [Hfold Hc]].
    { intros c Hc. apply in_map_iff in Hc as [e [<- He]]. now apply Hok. }
    exists counts. split; [exact Hfold|]. intros c. rewrite Hc, lookup_empty. reflexivity.
  - simpl. destruct (initialized st); repeat split.
Qed.

Lemma getSystemHealth_report_witness :
  status (getSystemHealth
            (logError DentalService.initialState 1700000000000 "Initialization failed"
               "recallSettings is missing or invalid" high)
            1700000030000) = critical.
Proof.
  destruct (getSystemHealth_report
              (logError DentalService.initialState 1700000000000 "Initialization failed"
                 "recallSettings is missing or invalid" high)
              1700000030000) as [_ [Hcritical _]].
  apply Hcritical. eexists. split; [left; reflexivity|]. split; [reflexivity|]. simpl. lia.
Defined.

End DentalServiceMore.

(** ** The edit distance of the fuzzy matching *)

Section FuzzyFacts.
Import JS FuzzyMatch.

Lemma editDistance_nil_r (s : string) : editDistance s EmptyString = len s.
Proof. destruct s; reflexivity. Qed.

Lemma editDistance_cons (a b : ascii) (s t : string) :
  editDistance (String a s) (String b t) =
  Z.min (Z.min (editDistance s (String b t) + 1) (editDistance (String a s) t + 1))
        (editDistance s t + indicator a b).
Proof. reflexivity. Qed.

Lemma len_cons (a : ascii) (s : string) : len (String a s) = len s + 1.
Proof. unfold len. simpl. lia. Qed.

Lemma countFrom_rowOf (p str1 : string) :
  countFrom (len p) str1 = rowOf p str1 EmptyString.
Proof.
  revert p. induction str1 as [|c rest IH]; intros p; simpl; rewrite editDistance_nil_r.
  - reflexivity.
  - f_equal. rewrite <- IH. now rewrite len_cons.
Qed.

Lemma fillRow_rowOf (str1 : string) (c2 : ascii) (p q : string) :
  editDistance p (String c2 q) :: fillRow str1 c2 (rowOf p str1 q) (editDistance p (String c2 q))
  = rowOf p str1 (String c2 q).
Proof.
  revert p. induction str1 as [|c1 rest IH]; intros p; [reflexivity|].
  cbn [rowOf]. f_equal. rewrite <- IH.
  destruct rest as [|c rest']; cbn [rowOf fillRow]; rewrite editDistance_cons; f_equal.
Qed.

Lemma matrixRows_rowOf (str1 str2 q : string) :
  matrixRows str1 str2 (rowOf EmptyString str1 q) (len q + 1)
  = rowOf EmptyString str1 (reverseOnto str2 q).
Proof.
  revert q. induction str2 as [|c2 rest IH]; intros q; cbn [matrixRows reverseOnto];
    [reflexivity|].
  rewrite <- (len_cons c2 q).
  change (len (String c2 q) :: fillRow str1 c2 (rowOf EmptyString str1 q) (len (String c2 q)))
    with (editDistance EmptyString (String c2 q)
          :: fillRow str1 c2 (rowOf EmptyString str1 q) (editDistance EmptyString (String c2 q))).
  rewrite fillRow_rowOf. apply IH.
Qed.

Lemma last_rowOf (p str1 q : string) :
  List.last (rowOf p str1 q) 0 = editDistance (reverseOnto str1 p) q.
Proof.
  revert p. induction str1 as [|c rest IH]; intros p; [reflexivity|].
  cbn [rowOf reverseOnto]. rewrite <- IH.
  destruct rest; reflexivity.
Qed.

(** The matrix computes the recurrence, on the strings read backwards. *)
Lemma levenshteinDistance_editDistance (str1 str2 : string) :
  levenshteinDistance str1 str2 = editDistance (reverse str1) (reverse str2).
Proof.
  unfold levenshteinDistance, reverse.
  change 0 with (len EmptyString) at 1. rewrite countFrom_rowOf.
  change 1 with (len EmptyString + 1). rewrite matrixRows_rowOf. apply last_rowOf.
Qed.

Lemma indicator_range (a b : ascii) : 0 <= indicator a b <= 1.
Proof. unfold indicator. destruct (Ascii.eqb a b); lia. Qed.

Lemma indicator_zero (a b : ascii) : indicator a b = 0 <-> a = b.
Proof.
  unfold indicator. destruct (Ascii.eqb_spec a b); split; intros; try easy. 
Qed.

Lemma len_nonneg (s : string) : 0 <= len s.
Proof. unfold len. lia. Qed.

Lemma len_zero (s : string) : len s = 0 -> s = EmptyString.
Proof. destruct s; [reflexivity|]. rewrite len_cons. pose proof (len_nonneg s). lia. Qed.

Lemma editDistance_range (s t : string) :
  Z.abs (len s - len t) <= editDistance s t <= Z.max (len s) (len t).
Proof.
  revert t. induction s as [|a s IHs]; intros t.
  - cbn [editDistance]. change (len EmptyString) with 0. pose proof (len_nonneg t). lia.
  - induction t as [|b t IHt].
    + rewrite editDistance_nil_r. change (len EmptyString) with 0.
      pose proof (len_nonneg (String a s)). lia.
    + rewrite editDistance_cons. rewrite !len_cons in *.
      pose proof (IHs (String b t)) as H1. pose proof (IHs t) as H2.
      rewrite len_cons in H1. pose proof (indicator_range a b).
      pose proof (len_nonneg s). pose proof (len_nonneg t). lia.
Qed.

Lemma editDistance_refl (s : string) : editDistance s s = 0.
Proof.
  induction s as [|a s IH]; [reflexivity|].
  rewrite editDistance_cons.
  pose proof (editDistance_range s (String a s)) as H1.
  pose proof (editDistance_range (String a s) s) as H2.
  assert (indicator a a = 0) as -> by now apply indicator_zero.
  rewrite len_cons in *. lia.
Qed.

Lemma editDistance_zero (s t : string) : editDistance s t = 0 -> s = t.
Proof.
  revert t. induction s as [|a s IHs]; intros t.
  - cbn [editDistance]. intros H. symmetry. now apply len_zero.
  - destruct t as [|b t].
    + rewrite editDistance_nil_r. apply len_zero.
    + rewrite editDistance_cons. intros H.
      pose proof (editDistance_range s (String b t)) as H1.
      pose proof (editDistance_range (String a s) t) as H2.
      pose proof (editDistance_range s t) as H3.
      pose proof (indicator_range a b) as H4.
      assert (editDistance s t = 0 /\ indicator a b = 0) as [Hd Hi] by lia.
      apply indicator_zero in Hi. apply IHs in Hd. congruence.
Qed.

Lemma len_reverseOnto (s acc : string) : len (reverseOnto s acc) = len s + len acc.
Proof.
  revert acc. induction s as [|c s IH]; intros acc; cbn [reverseOnto].
  - change (len EmptyString) with 0. lia.
  - rewrite IH, !len_cons. lia.
Qed.

Lemma len_reverse (s : string) : len (reverse s) = len s.
Proof. unfold reverse. rewrite len_reverseOnto. change (len EmptyString) with 0. lia. Qed.

Lemma reverseOnto_twice (s acc : string) :
  reverseOnto (reverseOnto s acc) EmptyString = reverseOnto acc s.
Proof.
  revert acc. induction s as [|c s IH]; intros acc; cbn [reverseOnto]; [reflexivity|].
  now rewrite IH.
Qed.

Lemma reverse_involutive (s : string) : reverse (reverse s) = s.
Proof. unfold reverse. now rewrite reverseOnto_twice. Qed.

(** X17. [levenshteinDistance] is zero exactly on equal strings, never
    below the difference of the lengths and never above the greater length. *)
Theorem levenshteinDistance_bounds (str1 str2 : string) :
  Z.abs (len str1 - len str2) <= levenshteinDistance str1 str2
                              <= Z.max (len str1) (len str2)
  /\ (levenshteinDistance str1 str2 = 0 <-> str1 = str2).
Proof.
  rewrite levenshteinDistance_editDistance.
  pose proof (editDistance_range (reverse str1) (reverse str2)) as H.
  rewrite !len_reverse in H. split; [exact H|]. split.
  - intros H0. apply editDistance_zero in H0.
    rewrite <- (reverse_involutive str1), <- (reverse_involutive str2). now rewrite H0.
  - intros ->. apply editDistance_refl.
Qed.

End FuzzyFacts.

(** ** The emergency path of the dental service *)

Section EmergencyFacts.
Import JS JSDate DentalConfig DentalService FuzzyMatch DentalProcedures DentalEmergency.

Lemma civilAgreesFrom_spec (count : nat) (from day : Z) :
  civilAgreesFrom from count = true ->
  from <= day < from + Z.of_nat count ->
  civilAgrees day = true.
Proof.
  revert from. induction count as [|n IH]; intros from Hall Hday; [lia|].
  cbn [civilAgreesFrom] in Hall. apply andb_true_iff in Hall as [Hfrom Hrest].
  destruct (Z.eq_dec day from) as [->|Hne]; [exact Hfrom|].
  apply (IH (from + 1)); [exact Hrest | lia].
Qed.

Lemma civilAgrees_1970_2069 (day : Z) :
  0 <= day < DayFromYear 2070 -> civilAgrees day = true.
Proof.
  intros H. apply (civilAgreesFrom_spec _ _ _ civil_agrees_1970_2069).
  change (DayFromYear 1970) with 0. change (DayFromYear 2070) with 36525 in *. lia.
Qed.

Lemma tableMonth_range (dayWithinYear leap : Z) :
  0 <= dayWithinYear -> 0 <= tableMonth dayWithinYear leap <= 11.
Proof.
  intros H. unfold tableMonth.
  set (reached := fun start => start <=? dayWithinYear).
  pose proof (List.filter_length_le reached (monthStarts leap)) as Hle.
  change (List.length (monthStarts leap)) with 12%nat in Hle.
  assert (1 <= List.length (List.filter reached (monthStarts leap)))%nat.
  { unfold monthStarts. cbn [List.filter]. unfold reached at 1.
    destruct (Z.leb_spec 0 dayWithinYear); [cbn [List.length]; lia | lia]. }
  lia.
Qed.

Lemma daysFromCivil_date (y m d : Z) :
  daysFromCivil y m d = daysFromCivil y m 1 + d - 1.
Proof. unfold daysFromCivil. cbv zeta. lia. Qed.

(** One day later on the calendar is one day later on the clock. *)
Lemma setDate_next (t : Z) :
  0 <= Day t < DayFromYear 2070 ->
  setDate (Some t) (option_map (fun d => d + 1) (getDate (Some t))) = TimeClip (t + msPerDay).
Proof.
  intros Hday. pose proof (civilAgrees_1970_2069 _ Hday) as Hagree.
  unfold setDate, getDate, option_map, YearFromTime, MonthFromTime, DateFromTime.
  unfold civilAgrees in Hagree.
  destruct (civilFromDays (Day t)) as [[y m] d]. cbn [fst snd].
  repeat (apply andb_true_iff in Hagree as [Hagree ?]).
  assert (Hm : 0 <= m - 1 <= 11).
  { replace (m - 1) with (tableMonth (Day t - DayFromYear y) (DaysInYear y - 365)) by lia.
    apply tableMonth_range. lia. }
  f_equal. unfold MakeDay.
  replace ((m - 1) / 12) with 0 by (symmetry; apply Z.div_small; lia).
  rewrite (Z.mod_small (m - 1) 12) by lia.
  replace (y + 0) with y by lia. replace (m - 1 + 1) with m by lia.
  assert (Hround : daysFromCivil y m d = Day t) by lia.
  rewrite daysFromCivil_date in Hround.
  replace (daysFromCivil y m 1 + (d + 1) - 1) with (Day t + 1) by lia.
  unfold MakeDate, TimeWithinDay, Day, msPerDay. Z.div_mod_to_equations. lia.
Qed.

Lemma TimeClip_valid (t : Z) : Z.abs t <= 8640000000000000 -> TimeClip t = Some t.
Proof. intros H. unfold TimeClip. destruct (Z.leb_spec (Z.abs t) 8640000000000000); [reflexivity|lia]. Qed.

Lemma emergencySlot_settled (now hours : Z) :
  0 <= now -> 0 <= hours <= 24 -> now < MakeDate (DayFromYear 2069) 0 ->
  emergencySlot now hours = Return (Some (settled (now + hours * msPerHour))).
Proof.
  intros Hnow Hhours Hend.
  change (MakeDate (DayFromYear 2069) 0) with 3124224000000 in Hend.
  unfold emergencySlot, current. rewrite setHours_shift.
  set (ahead := now + hours * msPerHour).
  assert (Hahead : 0 <= ahead < 3124224000000 + 24 * 3600000) by (unfold ahead, msPerHour; lia).
  rewrite TimeClip_valid by lia.
  cbn [getHours option_map]. unfold settled.
  destruct ((HourFromTime ahead <? 8) || (20 <? HourFromTime ahead)); [|reflexivity].
  rewrite setDate_next.
  2:{ change (DayFromYear 2070) with 36525. unfold Day, msPerDay. Z.div_mod_to_equations. lia. }
  unfold msPerDay. rewrite TimeClip_valid by lia.
  unfold setHours4.
  assert (Hd : Day (ahead + 86400000) = Day ahead + 1).
  { unfold Day, msPerDay. Z.div_mod_to_equations. lia. }
  rewrite Hd.
  assert (Hday : 0 <= Day ahead < 36525).
  { unfold Day, msPerDay. Z.div_mod_to_equations. lia. }
  change (MakeTime 8 0 0 0) with (8 * msPerHour).
  rewrite TimeClip_valid; [reflexivity|].
  unfold MakeDate, msPerDay, msPerHour. lia.
Qed.

Lemma settled_hours (ahead : Z) :
  8 <= HourFromTime (settled ahead) <= 20.
Proof.
  unfold settled.
  destruct (Z.ltb_spec (HourFromTime ahead) 8); cbn [orb].
  - unfold HourFromTime, MakeDate, msPerDay, msPerHour. Z.div_mod_to_equations. lia.
  - destruct (Z.ltb_spec 20 (HourFromTime ahead)).
    + unfold HourFromTime, MakeDate, msPerDay, msPerHour. Z.div_mod_to_equations. lia.
    + lia.
Qed.

Lemma settled_wait (ahead : Z) :
  ahead <= settled ahead <= ahead + 32 * msPerHour.
Proof.
  unfold settled.
  destruct (Z.ltb_spec (HourFromTime ahead) 8); cbn [orb].
  - unfold HourFromTime, MakeDate, Day, msPerDay, msPerHour in *. Z.div_mod_to_equations. lia.
  - destruct (Z.ltb_spec 20 (HourFromTime ahead)).
    + unfold HourFromTime, MakeDate, Day, msPerDay, msPerHour in *. Z.div_mod_to_equations. lia.
    + unfold msPerHour. lia.
Qed.

Lemma urgencyOf_high (keywords : list string) :
  urgencyOf keywords = highUrgency <->
  exists keyword urgent,
    In keyword keywords /\ In urgent highUrgencyKeywords /\ occursIn urgent keyword.
Proof.
  unfold urgencyOf.
  destruct (List.existsb _ keywords) eqn:E.
  - split; [intros _|reflexivity].
    apply existsb_exists in E as [keyword [Hin E]].
    apply existsb_exists in E as [urgent [Hu E]].
    exists keyword, urgent. repeat split; try assumption. now apply includes_spec.
  - split; [discriminate|]. intros [keyword [urgent [Hin [Hu Hocc]]]].
    assert (List.existsb
              (fun keyword => List.existsb (fun urgent => includes keyword urgent)
                                highUrgencyKeywords) keywords = true) as Htrue.
    { apply existsb_exists. exists keyword. split; [assumption|].
      apply existsb_exists. exists urgent. split; [assumption|]. now apply includes_spec. }
    congruence.
Qed.

(** X18. On a clock between 1970 and 2068 the booking of the dental service
    succeeds for every list of keywords. The slot is 2 hours ahead when some
    keyword contains a word of high urgency and 6 hours ahead otherwise, and
    is moved to 8:00 of the following day when that hour is before 8 or after
    20: it always lies between 8 and 20 o'clock, not before the time ahead
    and at most 32 hours after it. *)
Theorem dentalService_bookEmergencyAppointment_slot
    (st : State) (env : Environment) (now : Z) (keywords : list string) :
  0 <= now < MakeDate (DayFromYear 2069) 0 ->
  let hours := hoursToAdd (urgencyOf keywords) in
  let ahead := now + hours * msPerHour in
  exists details,
    fst (bookEmergencyAppointment st env now keywords)
    = {| success := true; appointmentDetails := Some details; bookingError := None |} /\
    appointmentTime details = Some (settled ahead) /\
    symptoms details = keywords /\
    8 <= HourFromTime (settled ahead) <= 20 /\
    ahead <= settled ahead <= ahead + 32 * msPerHour /\
    (hours = 2 \/ hours = 6) /\
    (hours = 2 <->
     exists keyword urgent,
       In keyword keywords /\ In urgent highUrgencyKeywords /\ occursIn urgent keyword).
Proof.
  intros [Hnow Hend] hours ahead.
  assert (Hhours : hours = 2 \/ hours = 6).
  { unfold hours. destruct (urgencyOf keywords); [left|right]; reflexivity. }
  unfold bookEmergencyAppointment.
  rewrite (emergencySlot_settled now (hoursToAdd (urgencyOf keywords)) Hnow) by (fold hours; lia).
  eexists. split; [reflexivity|]. cbn [appointmentTime symptoms].
  split; [reflexivity|]. split; [reflexivity|].
  split; [apply settled_hours|]. split; [apply settled_wait|]. split; [exact Hhours|].
  rewrite <- urgencyOf_high. unfold hours.
  destruct (urgencyOf keywords); cbn [hoursToAdd]; split; intros; (reflexivity || discriminate).
Qed.

Lemma dentalService_bookEmergencyAppointment_slot_witness :
  exists details,
    fst (bookEmergencyAppointment initialState None 1700000000000 [ "broken" ])
    = {| success := true; appointmentDetails := Some details; bookingError := None |} /\
    appointmentTime details = Some 1700121600000.
Proof.
  destruct (dentalService_bookEmergencyAppointment_slot initialState None 1700000000000
              [ "broken" ] ltac:(vm_compute; split; congruence))
    as [details [Hbook [Htime _]]].
  exists details. split; [exact Hbook | exact Htime].
Defined.

Lemma booking_succeeds (st : State) (env : Environment) (now : Z) (keywords : list string) :
  0 <= now < MakeDate (DayFromYear 2069) 0 ->
  bookEmergencyAppointment st env now keywords
  = ({| success := true;
        appointmentDetails :=
          Some {| appointmentTime :=
                    Some (settled (now + hoursToAdd (urgencyOf keywords) * msPerHour));
                  urgencyLevel := urgencyOf keywords;
                  symptoms := keywords;
                  estimatedDuration := 60;
                  patientInstructions := generateEmergencyInstructions keywords |};
        bookingError := None |},
     notifyPracticeManagementSystem st env now).
Proof.
  intros [Hnow Hend]. unfold bookEmergencyAppointment.
  rewrite (emergencySlot_settled now (hoursToAdd (urgencyOf keywords)) Hnow);
    [reflexivity | destruct (urgencyOf keywords); cbn [hoursToAdd]; lia | exact Hend].
Qed.

(** The state in which the service works: that of the call, initialised. *)
Lemma ready_state (st : State) (now : Z) :
  exists st1,
    (if initialized st then (true, st) else initialize st now) = (true, st1) /\
    initialized st1 = true /\ errorLog st1 = errorLog st.
Proof.
  unfold initialize. destruct (initialized st) eqn:E.
  - exists st. auto.
  - eexists. split; [reflexivity|]. split; reflexivity.
Qed.

Lemma no_hit_on_empty (keyword : string) :
  In keyword emergencyKeywords -> keywordHit 0.8 EmptyString keyword = false.
Proof.
  revert keyword. apply List.Forall_forall.
  repeat (apply List.Forall_cons; [vm_compute; reflexivity|]). apply List.Forall_nil.
Qed.

Lemma emergencyKeywords_lowercase (keyword : string) :
  In keyword emergencyKeywords -> toLowerCase keyword = keyword.
Proof.
  revert keyword. apply List.Forall_forall.
  repeat (apply List.Forall_cons; [reflexivity|]). apply List.Forall_nil.
Qed.

Lemma keywordMatches_nonempty (cleanUtterance : string) :
  (0 <? List.length (keywordMatches cleanUtterance))%nat = true <->
  exists keyword, In keyword emergencyKeywords /\ keywordHit 0.8 cleanUtterance keyword = true.
Proof.
  unfold keywordMatches. split.
  - intros H. destruct (List.filter _ emergencyKeywords) as [|keyword rest] eqn:E;
      [discriminate|].
    exists keyword. apply filter_In. rewrite E. now left.
  - intros [keyword Hk]. apply filter_In in Hk.
    destruct (List.filter _ emergencyKeywords); [contradiction | reflexivity].
Qed.

Lemma logError_initialized (st : State) (now : Z) (context error : string) (severity : Severity) :
  initialized (logError st now context error severity) = initialized st.
Proof. reflexivity. Qed.

Lemma handleEmergency_answer
    (st : State) (env : Environment) (now : Z) (utterance : string) :
  0 <= now < MakeDate (DayFromYear 2069) 0 ->
  fst (handleEmergency st env now utterance) = true <->
  exists keyword,
    In keyword emergencyKeywords /\
    keywordHit 0.8 (toLowerCase (trim utterance)) keyword = true.
Proof.
  intros Hclock. unfold handleEmergency.
  destruct (ready_state st now) as [st1 [-> [_ _]]]. cbn [negb].
  destruct (String.eqb_spec utterance EmptyString) as [-> | Hne].
  - cbn [fst]. split; [discriminate|]. intros [keyword [Hin Hhit]].
    change (toLowerCase (trim EmptyString)) with EmptyString in Hhit.
    rewrite no_hit_on_empty in Hhit by assumption. discriminate.
  - destruct (String.length (toLowerCase (trim utterance)) =? 0)%nat eqn:Hlen.
    + apply length_zero_empty in Hlen. rewrite Hlen. cbn [fst].
      split; [discriminate|]. intros [keyword [Hin Hhit]].
      rewrite no_hit_on_empty in Hhit by assumption. discriminate.
    + rewrite <- keywordMatches_nonempty.
      destruct (0 <? List.length (keywordMatches (toLowerCase (trim utterance))))%nat.
      * rewrite booking_succeeds by assumption. cbn [success fst]. tauto.
      * cbn [fst]. tauto.
Qed.

(** X19. On a clock between 1970 and 2068, [handleEmergency] answers [true]
    exactly when some configured emergency keyword occurs in the trimmed,
    lowercased utterance or is close to it as a whole ([fuzzyMatch] above
    0.8), whatever the state of the service and whatever the practice system
    and the SMS service do; in particular when a keyword occurs. *)
Theorem handleEmergency_true_iff
    (st : State) (env : Environment) (now : Z) (utterance : string) :
  0 <= now < MakeDate (DayFromYear 2069) 0 ->
  (fst (handleEmergency st env now utterance) = true <->
   exists keyword,
     In keyword emergencyKeywords /\
     keywordHit 0.8 (toLowerCase (trim utterance)) keyword = true) /\
  (mentions (toLowerCase (trim utterance)) emergencyKeywords ->
   fst (handleEmergency st env now utterance) = true).
Proof.
  intros Hclock. pose proof (handleEmergency_answer st env now utterance Hclock) as Hiff.
  split; [exact Hiff|].
  intros [keyword [Hin Hocc]]. apply Hiff. exists keyword. split; [assumption|].
  unfold keywordHit. rewrite (emergencyKeywords_lowercase keyword) by assumption.
  apply includes_spec in Hocc. now rewrite Hocc.
Qed.

Lemma handleEmergency_true_iff_witness :
  fst (handleEmergency initialState None 1700000000000 "  My tooth is BROKEN  ") = true.
Proof.
  apply (handleEmergency_true_iff initialState None 1700000000000 "  My tooth is BROKEN  ");
    [vm_compute; split; congruence|].
  exists "broken". split; [vm_compute; tauto|].
  apply includes_spec. reflexivity.
Defined.

(** X20. What [handleEmergency] leaves in the service, on a clock between
    1970 and 2068: the service is initialised; an empty utterance is logged
    with severity medium and one of white space only with severity low; an
    utterance that is no emergency leaves the log as it is; and an emergency
    adds an entry only for a practice system or an SMS service that throws,
    two entries of severity medium at most. *)
Theorem handleEmergency_error_log
    (st : State) (env : Environment) (now : Z) (utterance : string) :
  0 <= now < MakeDate (DayFromYear 2069) 0 ->
  let result := handleEmergency st env now utterance in
  initialized (snd result) = true /\
  (utterance = EmptyString ->
   errorLog (snd result)
   = logged (errorLog st)
       {| timestamp := now;
          error := "Invalid utterance parameter: must be a non-empty string";
          context := "handleEmergency"; severity := medium |}) /\
  (utterance <> EmptyString -> trim utterance = EmptyString ->
   errorLog (snd result)
   = logged (errorLog st)
       {| timestamp := now; error := "Empty utterance provided";
          context := "handleEmergency"; severity := low |}) /\
  (trim utterance <> EmptyString -> fst result = false ->
   errorLog (snd result) = errorLog st) /\
  (fst result = true ->
   exists entries,
     errorLog (snd result) = List.fold_left logged entries (errorLog st) /\
     (List.length entries <= 2)%nat /\
     (forall entry, In entry entries -> severity entry = medium /\ timestamp entry = now) /\
     (quiet env = true -> entries = [])).
Proof.
  intros Hclock result. subst result. unfold handleEmergency.
  destruct (ready_state st now) as [st1 [-> [Hinit Hlog]]]. cbn [negb].
  destruct (String.eqb_spec utterance EmptyString) as [-> | Hne].
  { cbn [fst snd]. rewrite logError_initialized, logError_errorLog, Hlog.
    split; [assumption|]. split; [reflexivity|]. split; [congruence|].
    split; [intros H; now elim H | discriminate]. }
  destruct (String.length (toLowerCase (trim utterance)) =? 0)%nat eqn:Hlen.
  { apply length_zero_empty in Hlen.
    assert (Htrim : trim utterance = EmptyString).
    { destruct (trim utterance); [reflexivity | discriminate]. }
    cbn [fst snd]. rewrite logError_initialized, logError_errorLog, Hlog.
    split; [assumption|]. split; [congruence|]. split; [reflexivity|].
    split; [congruence | discriminate]. }
  assert (Htrim : trim utterance <> EmptyString).
  { intros E. rewrite E in Hlen. discriminate. }
  destruct (0 <? List.length (keywordMatches (toLowerCase (trim utterance))))%nat.
  2:{ cbn [fst snd]. split; [assumption|]. split; [congruence|]. split; [congruence|].
      split; [intros _ _; exact Hlog | discriminate]. }
  rewrite booking_succeeds by assumption. cbn [success appointmentDetails fst snd].
  unfold sendEmergencySMS. cbn [appointmentTime].
  unfold sendSMSMessage, notifyPracticeManagementSystem.
  split.
  { destruct env as [window|]; [|assumption].
    destruct (dentalPMS window), (smsService window); assumption. }
  split; [congruence|]. split; [congruence|]. split; [discriminate|]. intros _.
  destruct env as [window|]; [|exists []; rewrite Hlog; repeat split; auto; contradiction].
  unfold quiet.
  destruct (dentalPMS window) as [| |pmsThrown], (smsService window) as [| |smsThrown];
    rewrite ?logError_errorLog, ?Hlog;
    try (exists []; repeat split; auto; contradiction).
  - eexists [_]. split; [reflexivity|]. split; [simpl; lia|].
    split; [|discriminate]. intros entry [<- | []]. split; reflexivity.
  - eexists [_]. split; [reflexivity|]. split; [simpl; lia|].
    split; [|discriminate]. intros entry [<- | []]. split; reflexivity.
  - eexists [_]. split; [reflexivity|]. split; [simpl; lia|].
    split; [|discriminate]. intros entry [<- | []]. split; reflexivity.
  - eexists [_]. split; [reflexivity|]. split; [simpl; lia|].
    split; [|discriminate]. intros entry [<- | []]. split; reflexivity.
  - eexists [_; _]. split; [reflexivity|]. split; [simpl; lia|].
    split; [|discriminate]. intros entry [<- | [<- | []]]; split; reflexivity.
Qed.

Lemma handleEmergency_error_log_witness :
  errorLog (snd (handleEmergency initialState None 1700000000000 "   "))
  = [ {| timestamp := 1700000000000; error := "Empty utterance provided";
         context := "handleEmergency"; severity := low |} ].
Proof.
  destruct (handleEmergency_error_log initialState None 1700000000000 "   "
              ltac:(vm_compute; split; congruence)) as [_ [_ [Hblank _]]].
  apply Hblank; [discriminate | reflexivity].
Defined.

End EmergencyFacts.

(** ** Procedures: identification and lookup *)

Section ProcedureFacts.
Import JS DentalConfig DentalService FuzzyMatch DentalProcedures.

Lemma procedures_lowercase (procedure : string) :
  In procedure procedures -> toLowerCase procedure = procedure.
Proof.
  revert procedure. apply List.Forall_forall.
  repeat (apply List.Forall_cons; [reflexivity|]). apply List.Forall_nil.
Qed.

Lemma procedures_normal (procedure : string) :
  In procedure procedures ->
  procedure <> EmptyString /\ trim (toLowerCase procedure) = procedure.
Proof.
  revert procedure. apply List.Forall_forall.
  repeat (apply List.Forall_cons; [split; [discriminate | reflexivity]|]). apply List.Forall_nil.
Qed.

Lemma ownConfig_spec (key : string) (config : ProcedureConfig) :
  ownConfig key = Some config <-> In (key, config) procedureConfig.
Proof.
  split.
  - unfold ownConfig. intros H.
    destruct (List.find _ procedureConfig) as [[k c]|] eqn:E; [|discriminate].
    apply List.find_some in E as [Hin Hk]. cbn [fst] in Hk.
    apply String.eqb_eq in Hk. cbn in H. congruence.
  - revert key config.
    assert (H : List.Forall (fun entry => ownConfig (fst entry) = Some (snd entry)) procedureConfig).
    { repeat (apply List.Forall_cons; [reflexivity|]). apply List.Forall_nil. }
    intros key config Hin. apply (proj1 (List.Forall_forall _ _) H (key, config) Hin).
Qed.

Lemma ownConfig_none (key : string) :
  ownConfig key = None <-> ~ In key procedures.
Proof.
  unfold ownConfig, procedures. split.
  - intros H Hin. apply in_map_iff in Hin as [[k c] [Hk Hin]]. cbn [fst] in Hk. subst k.
    apply ownConfig_spec in Hin. unfold ownConfig in Hin. congruence.
  - intros H. destruct (List.find _ procedureConfig) as [[k c]|] eqn:E; [|reflexivity].
    apply List.find_some in E as [Hin Hk]. cbn [fst] in Hk. apply String.eqb_eq in Hk. subst k.
    elim H. apply in_map_iff. now exists (key, c).
Qed.

Lemma no_procedure_on_empty :
  List.find (fun procedure => includes EmptyString (toLowerCase procedure)) procedures = None /\
  List.find (fun entry => List.existsb (keywordHit 0.85 EmptyString) (keywords (snd entry)))
            procedureConfig = None.
Proof. split; vm_compute; reflexivity. Qed.

(** X21. [identifyProcedure] answers with a key of [procedureConfig] whose
    name occurs in the trimmed, lowercased utterance or one of whose keywords
    is hit (it occurs, or [fuzzyMatch] is above 0.85), and with [null] only
    when no name occurs and no keyword is hit. Apart from the empty
    utterance, which is logged, the service is left as it was. *)
Theorem identifyProcedure_sound (st : State) (now : Z) (utterance : string) :
  let cleanUtterance := toLowerCase (trim utterance) in
  match fst (identifyProcedure st now utterance) with
  | Some procedure =>
      exists config,
        In (procedure, config) procedureConfig /\
        (occursIn procedure cleanUtterance \/
         exists keyword,
           In keyword (keywords config) /\ keywordHit 0.85 cleanUtterance keyword = true)
  | None =>
      forall procedure config,
        In (procedure, config) procedureConfig ->
        ~ occursIn procedure cleanUtterance /\
        forall keyword,
          In keyword (keywords config) -> keywordHit 0.85 cleanUtterance keyword = false
  end /\
  (utterance <> EmptyString -> snd (identifyProcedure st now utterance) = st).
Proof.
  intros cleanUtterance.
  assert (Hnone :
    List.find (fun procedure => includes cleanUtterance (toLowerCase procedure)) procedures = None ->
    List.find (fun entry => List.existsb (keywordHit 0.85 cleanUtterance) (keywords (snd entry)))
              procedureConfig = None ->
    forall procedure config,
      In (procedure, config) procedureConfig ->
      ~ occursIn procedure cleanUtterance /\
      forall keyword,
        In keyword (keywords config) -> keywordHit 0.85 cleanUtterance keyword = false).
  { intros Hname Hkey procedure config Hin. split.
    - assert (Hp : In procedure procedures).
      { apply in_map_iff. now exists (procedure, config). }
      pose proof (List.find_none _ _ Hname procedure Hp) as Hno. cbv beta in Hno.
      rewrite (procedures_lowercase procedure Hp) in Hno. now apply includes_false_spec.
    - intros keyword Hk.
      pose proof (List.find_none _ _ Hkey (procedure, config) Hin) as Hno. cbv beta in Hno.
      cbn [snd] in Hno.
      destruct (keywordHit 0.85 cleanUtterance keyword) eqn:E; [|reflexivity].
      assert (List.existsb (keywordHit 0.85 cleanUtterance) (keywords config) = true) as Ht.
      { apply existsb_exists. now exists keyword. }
      congruence. }
  unfold identifyProcedure. fold cleanUtterance.
  destruct (String.eqb_spec utterance EmptyString) as [Hu | Hu].
  { cbn [fst snd]. split; [|congruence]. subst utterance. subst cleanUtterance.
    change (toLowerCase (trim EmptyString)) with EmptyString in *.
    destruct no_procedure_on_empty as [H1 H2]. now apply Hnone. }
  destruct (String.length cleanUtterance =? 0)%nat eqn:Hlen.
  { cbn [fst snd]. split; [|reflexivity]. apply length_zero_empty in Hlen.
    revert Hnone. rewrite Hlen. intros Hnone.
    destruct no_procedure_on_empty as [H1 H2]. now apply Hnone. }
  destruct (List.find (fun procedure => includes cleanUtterance (toLowerCase procedure)) procedures)
    as [procedure|] eqn:Hname.
  { cbn [fst snd]. split; [|reflexivity].
    apply List.find_some in Hname as [Hp Hocc].
    rewrite (procedures_lowercase procedure Hp) in Hocc.
    apply in_map_iff in Hp as [[p config] [Hfst Hin]]. cbn [fst] in Hfst. subst p.
    exists config. split; [assumption|]. left. now apply includes_spec. }
  destruct (List.find (fun entry => List.existsb (keywordHit 0.85 cleanUtterance)
                                      (keywords (snd entry))) procedureConfig)
    as [[procedure config]|] eqn:Hkey.
  { cbn [fst snd]. split; [|reflexivity].
    apply List.find_some in Hkey as [Hin Hhit]. cbn [snd] in Hhit.
    apply existsb_exists in Hhit as [keyword [Hk Hhit]].
    exists config. split; [assumption|]. right. now exists keyword. }
  cbn [fst snd]. split; [|reflexivity]. now apply Hnone.
Qed.

(** X22. A name of a procedure in the utterance goes before any keyword: when
    names occur, [identifyProcedure] answers with the first of them in the
    order of [procedureConfig]. *)
Theorem identifyProcedure_direct_match_first
    (st : State) (now : Z) (utterance named : string) :
  In named procedures ->
  occursIn named (toLowerCase (trim utterance)) ->
  exists before procedure after,
    procedures = (before ++ procedure :: after)%list /\
    fst (identifyProcedure st now utterance) = Some procedure /\
    occursIn procedure (toLowerCase (trim utterance)) /\
    forall earlier, In earlier before -> ~ occursIn earlier (toLowerCase (trim utterance)).
Proof.
  intros Hnamed Hocc. unfold identifyProcedure.
  set (cleanUtterance := toLowerCase (trim utterance)) in *.
  assert (Hclean : cleanUtterance <> EmptyString).
  { intros E. rewrite E in Hocc. destruct Hocc as [pre [post Hocc]].
    destruct (procedures_normal named Hnamed) as [Hne _].
    destruct pre; [destruct named; [congruence | discriminate] | discriminate]. }
  destruct (String.eqb_spec utterance EmptyString) as [Hu | Hu].
  { subst utterance. now elim Hclean. }
  destruct (String.length cleanUtterance =? 0)%nat eqn:Hlen.
  { apply length_zero_empty in Hlen. contradiction. }
  assert (Hfind : forall l,
    In named l -> (forall p, In p l -> In p procedures) ->
    exists before procedure after,
      l = (before ++ procedure :: after)%list /\
      List.find (fun procedure => includes cleanUtterance (toLowerCase procedure)) l
      = Some procedure /\
      occursIn procedure cleanUtterance /\
      forall earlier, In earlier before -> ~ occursIn earlier cleanUtterance).
  { induction l as [|p l IH]; intros Hin Hsub; [contradiction|].
    cbn [List.find].
    assert (Hp : toLowerCase p = p) by (apply procedures_lowercase, Hsub; now left).
    rewrite Hp. destruct (includes cleanUtterance p) eqn:E.
    - exists [], p, l. split; [reflexivity|]. split; [reflexivity|].
      split; [now apply includes_spec | contradiction].
    - destruct Hin as [-> | Hin].
      + apply includes_spec in Hocc. congruence.
      + destruct (IH Hin (fun q Hq => Hsub q (or_intror Hq)))
          as [before [procedure [after [Hl [Hf [Ho Hb]]]]]].
        exists (p :: before), procedure, after.
        split; [now rewrite Hl|]. split; [assumption|]. split; [assumption|].
        intros earlier [<- | He]; [now apply includes_false_spec | now apply Hb]. }
  destruct (Hfind procedures Hnamed (fun p Hp => Hp))
    as [before [procedure [after [Hl [Hf [Ho Hb]]]]]].
  exists before, procedure, after. rewrite Hf. cbn [fst]. auto.
Qed.

Lemma identifyProcedure_direct_match_first_witness :
  exists before procedure after,
    procedures = (before ++ procedure :: after)%list /\
    fst (identifyProcedure initialState 0 "Is a Crown an emergency?") = Some procedure /\
    occursIn procedure (toLowerCase (trim "Is a Crown an emergency?")) /\
    forall earlier, In earlier before ->
                    ~ occursIn earlier (toLowerCase (trim "Is a Crown an emergency?")).
Proof.
  apply (identifyProcedure_direct_match_first initialState 0 "Is a Crown an emergency?" "crown").
  - vm_compute. tauto.
  - apply includes_spec. reflexivity.
Defined.

(** X23. What [getProcedureInfo] returns for the lowercased, trimmed name:
    the configuration of a key of [procedureConfig]; [Object.prototype] for
    [__proto__]; and [null] for every other name, with one entry in the error
    log. A configuration or [Object.prototype] is returned without a trace. *)
Theorem getProcedureInfo_result (st : State) (now : Z) (procedure : string) :
  let normalizedProcedure := trim (toLowerCase procedure) in
  match fst (getProcedureInfo st now procedure) with
  | Config config =>
      procedure <> EmptyString /\ In (normalizedProcedure, config) procedureConfig /\
      snd (getProcedureInfo st now procedure) = st
  | ObjectPrototype =>
      normalizedProcedure = "__proto__" /\ snd (getProcedureInfo st now procedure) = st
  | Null =>
      (procedure = EmptyString \/
       (~ In normalizedProcedure procedures /\ normalizedProcedure <> "__proto__")) /\
      exists entry,
        errorLog (snd (getProcedureInfo st now procedure)) = logged (errorLog st) entry /\
        context entry = "getProcedureInfo" /\ timestamp entry = now
  end.
Proof.
  intros normalizedProcedure. unfold getProcedureInfo. fold normalizedProcedure.
  destruct (String.eqb_spec procedure EmptyString) as [Hp | Hp].
  { cbn [fst snd]. split; [now left|]. eexists. rewrite logError_errorLog.
    split; [reflexivity|]. split; reflexivity. }
  destruct (ownConfig normalizedProcedure) as [config|] eqn:Hown.
  { cbn [fst snd]. apply ownConfig_spec in Hown. auto. }
  apply ownConfig_none in Hown.
  destruct (List.existsb (String.eqb normalizedProcedure) objectPrototypeKeys) eqn:Hproto'.
  - destruct (String.eqb_spec normalizedProcedure "__proto__") as [Hproto | Hproto].
    + cbn [fst snd]. auto.
    + cbn [fst snd]. split; [right; auto|]. eexists. rewrite logError_errorLog.
      split; [reflexivity|]. split; reflexivity.
  - cbn [fst snd]. split.
    + right. split; [assumption|]. intros E.
      rewrite E in Hproto'. discriminate.
    + eexists. rewrite logError_errorLog. split; [reflexivity|]. split; reflexivity.
Qed.

Lemma identifyProcedure_some (st : State) (now : Z) (utterance procedure : string) :
  fst (identifyProcedure st now utterance) = Some procedure -> In procedure procedures.
Proof.
  unfold identifyProcedure.
  destruct (String.eqb utterance EmptyString); [discriminate|].
  destruct (String.length (toLowerCase (trim utterance)) =? 0)%nat; [discriminate|].
  destruct (List.find _ procedures) as [p|] eqn:Hname.
  { cbn [fst]. intros [= <-]. now apply List.find_some in Hname as [Hp _]. }
  destruct (List.find _ procedureConfig) as [[p config]|] eqn:Hkey; [|discriminate].
  cbn [fst]. intros [= <-]. apply List.find_some in Hkey as [Hin _].
  apply in_map_iff. now exists (p, config).
Qed.

(** X24. Whatever [identifyProcedure] answers is known to the rest of the
    service: [getProcedureInfo] returns its configuration and logs nothing,
    and [scheduleRecall] returns the interval the table has for it and logs
    nothing; the one exception is the procedure [emergency], for which the
    table has no interval: [scheduleRecall] answers with the default 6 and
    logs the procedure as unknown. *)
Theorem identified_procedure_is_configured
    (st st' : State) (now now' : Z) (utterance procedure : string) :
  fst (identifyProcedure st now utterance) = Some procedure ->
  (exists config,
     In (procedure, config) procedureConfig /\
     getProcedureInfo st' now' procedure = (Config config, st')) /\
  (procedure <> "emergency" ->
   exists interval,
     configuredInterval procedure = Some interval /\
     fst (scheduleRecall st' now' procedure) = Return interval /\
     errorLog (snd (scheduleRecall st' now' procedure)) = errorLog st') /\
  (procedure = "emergency" ->
   configuredInterval procedure = None /\
   fst (scheduleRecall st' now' procedure) = Return 6 /\
   errorLog (snd (scheduleRecall st' now' procedure))
   = logged (errorLog st')
       {| timestamp := now'; error := "Unknown procedure: emergency";
          context := "scheduleRecall"; severity := low |}).
Proof.
  intros Hid. apply identifyProcedure_some in Hid.
  split; [|split].
  - assert (Hp : In procedure procedures) by assumption.
    apply in_map_iff in Hp as [[p config] [Hfst Hin]]. cbn [fst] in Hfst. subst p.
    exists config. split; [assumption|].
    unfold getProcedureInfo.
    destruct (procedures_normal procedure Hid) as [Hne Hnormal].
    destruct (String.eqb_spec procedure EmptyString) as [|_]; [contradiction|].
    rewrite Hnormal. apply ownConfig_spec in Hin. now rewrite Hin.
  - intros Hne.
    change procedures
      with [ "cleaning"; "emergency"; "surgery"; "consultation"; "filling"; "crown";
             "periodontal" ] in Hid.
    repeat (destruct Hid as [<- | Hid];
            [first [ exfalso; apply Hne; reflexivity
                   | eexists; split; [vm_compute; reflexivity|];
                     unfold scheduleRecall, scheduleRecall_try, initialize;
                     destruct (initialized st'); split; reflexivity ]|]).
    destruct Hid.
  - intros ->. split; [vm_compute; reflexivity|].
    unfold scheduleRecall, scheduleRecall_try, initialize.
    destruct (initialized st'); split; reflexivity.
Qed.

Lemma identified_procedure_is_configured_witness :
  exists interval,
    configuredInterval "consultation" = Some interval /\
    fst (scheduleRecall initialState 1 "consultation") = Return interval /\
    errorLog (snd (scheduleRecall initialState 1 "consultation")) = errorLog initialState.
Proof.
  destruct (identified_procedure_is_configured initialState initialState 0 1
              "chekup" "consultation" ltac:(vm_compute; reflexivity)) as [_ [Hrecall _]].
  apply Hrecall. discriminate.
Defined.

End ProcedureFacts.

(** ** The two triages agree *)

Section TriageAgreement.
Import JS JSDate DentalConfig DentalService FuzzyMatch DentalProcedures DentalEmergency.

Lemma isWhiteSpace_lowerChar (c : ascii) : isWhiteSpace (lowerChar c) = isWhiteSpace c.
Proof. destruct c as [[] [] [] [] [] [] [] []]; reflexivity. Qed.

Lemma trimStart_toLowerCase (s : string) :
  trimStart (toLowerCase s) = toLowerCase (trimStart s).
Proof.
  induction s as [|c s IH]; [reflexivity|].
  cbn [toLowerCase trimStart]. rewrite isWhiteSpace_lowerChar.
  destruct (isWhiteSpace c); [exact IH | reflexivity].
Qed.

Lemma trimEnd_toLowerCase (s : string) :
  trimEnd (toLowerCase s) = toLowerCase (trimEnd s).
Proof.
  induction s as [|c s IH]; [reflexivity|].
  cbn [toLowerCase trimEnd]. rewrite IH, isWhiteSpace_lowerChar.
  destruct (trimEnd s); cbn [toLowerCase]; [destruct (isWhiteSpace c)|]; reflexivity.
Qed.

Lemma trim_toLowerCase (s : string) : trim (toLowerCase s) = toLowerCase (trim s).
Proof. unfold trim. now rewrite trimStart_toLowerCase, trimEnd_toLowerCase. Qed.

Lemma startsWith_nil (s : string) : startsWith s EmptyString = true.
Proof. destruct s; reflexivity. Qed.

Lemma includes_cons (c : ascii) (s kw : string) :
  includes (String c s) kw = startsWith (String c s) kw || includes s kw.
Proof. reflexivity. Qed.

Lemma includes_trimStart (s kw : string) :
  startsBlack kw = true -> includes (trimStart s) kw = includes s kw.
Proof.
  intros Hkw. destruct kw as [|k kw']; [discriminate|]. cbn [startsBlack] in Hkw.
  induction s as [|c s IH]; [reflexivity|].
  cbn [trimStart]. destruct (isWhiteSpace c) eqn:Hc; [|reflexivity].
  rewrite IH, includes_cons. cbn [startsWith].
  destruct (Ascii.eqb_spec k c) as [->|_]; [|reflexivity].
  rewrite Hc in Hkw. discriminate.
Qed.

Lemma startsWith_white (c k : ascii) :
  isWhiteSpace c = true -> isWhiteSpace k = false -> Ascii.eqb k c = false.
Proof. intros Hc Hk. destruct (Ascii.eqb_spec k c) as [->|]; [congruence | reflexivity]. Qed.

Lemma startsWith_trimEnd (s kw : string) :
  endsBlack kw = true -> startsWith (trimEnd s) kw = startsWith s kw.
Proof.
  revert kw. induction s as [|c s IH]; intros kw Hkw; [reflexivity|].
  destruct kw as [|k kw']; [discriminate|].
  cbn [trimEnd]. destruct kw' as [|k' kw''].
  - cbn [endsBlack] in Hkw. apply negb_true_iff in Hkw.
    cbn [startsWith]. rewrite ?startsWith_nil.
    destruct (trimEnd s).
    + destruct (isWhiteSpace c) eqn:Hc; cbn [startsWith].
      * now rewrite (startsWith_white c k Hc Hkw).
      * reflexivity.
    + cbn [startsWith]. now rewrite ?startsWith_nil.
  - assert (Hrest : endsBlack (String k' kw'') = true) by exact Hkw.
    specialize (IH _ Hrest).
    change (startsWith (String c s) (String k (String k' kw'')))
      with (Ascii.eqb k c && startsWith s (String k' kw'')).
    rewrite <- IH.
    destruct (trimEnd s).
    + destruct (isWhiteSpace c); cbn [startsWith]; [now rewrite andb_false_r | reflexivity].
    + reflexivity.
Qed.

Lemma includes_trimEnd (s kw : string) :
  endsBlack kw = true -> includes (trimEnd s) kw = includes s kw.
Proof.
  intros Hkw. induction s as [|c s IH]; [reflexivity|].
  rewrite includes_cons, <- (startsWith_trimEnd (String c s) kw Hkw), <- IH.
  cbn [trimEnd].
  destruct kw as [|k kw']; [discriminate|].
  destruct (trimEnd s).
  - destruct (isWhiteSpace c); reflexivity.
  - reflexivity.
Qed.

(** Trimming loses no word that has no white space at its ends. *)
Lemma includes_trim (s kw : string) :
  startsBlack kw = true -> endsBlack kw = true -> includes (trim s) kw = includes s kw.
Proof.
  intros Hs He. unfold trim. now rewrite includes_trimEnd, includes_trimStart.
Qed.

Lemma triage_keywords_configured (keyword : string) :
  In keyword EmergencyTriage.emergencyKeywords ->
  In keyword emergencyKeywords /\ startsBlack keyword = true /\ endsBlack keyword = true.
Proof.
  revert keyword. apply List.Forall_forall.
  repeat (apply List.Forall_cons; [split; [vm_compute; tauto | split; reflexivity]|]).
  apply List.Forall_nil.
Qed.

(** X25. The two triages agree on the emergencies of the first: an
    utterance that [EmergencyTriage.analyzeEmergency] classifies as an
    emergency is answered with [true] by [DentalService.handleEmergency], on
    a clock between 1970 and 2068. *)
Theorem analyzed_emergency_is_handled
    (st : State) (env : Environment) (now : Z) (utterance : string) :
  0 <= now < MakeDate (DayFromYear 2069) 0 ->
  EmergencyTriage.isEmergency (EmergencyTriage.analyzeEmergency utterance) = true ->
  fst (handleEmergency st env now utterance) = true.
Proof.
  intros Hclock Hemergency.
  apply analyzeEmergency_isEmergency in Hemergency.
  unfold EmergencyTriage.foundKeywords in Hemergency.
  destruct (List.filter _ EmergencyTriage.emergencyKeywords) as [|keyword rest] eqn:E;
    [congruence|].
  assert (Hin : In keyword (List.filter
                  (fun keyword => includes (toLowerCase utterance) keyword)
                  EmergencyTriage.emergencyKeywords)) by (rewrite E; now left).
  apply filter_In in Hin as [Hin Hocc].
  destruct (triage_keywords_configured keyword Hin) as [Hconf [Hs He]].
  apply (handleEmergency_answer st env now utterance Hclock).
  exists keyword. split; [assumption|].
  unfold keywordHit. rewrite (emergencyKeywords_lowercase keyword Hconf).
  rewrite <- trim_toLowerCase, includes_trim by assumption. now rewrite Hocc.
Qed.

Lemma analyzed_emergency_is_handled_witness :
  fst (handleEmergency initialState None 1700000000000 "The pain is unbearable") = true.
Proof.
  apply analyzed_emergency_is_handled; [vm_compute; split; congruence | reflexivity].
Defined.

End TriageAgreement.

(** ** The transcript of the voice hook *)

Section TranscriptFacts.
Import JS UseVapi Transcript.

Lemma ForallOrdPairs_app_one {A : Type} (R : A -> A -> Prop) (l : list A) (x : A) :
  List.ForallOrdPairs R l -> (forall a, In a l -> R a x) -> List.ForallOrdPairs R (l ++ [x]).
Proof.
  induction 1 as [|a l Ha Hl IH]; intros Hx; cbn [List.app].
  - constructor; [constructor | constructor].
  - constructor.
    + apply List.Forall_app. split; [assumption|]. constructor; [|constructor].
      apply Hx. now left.
    + apply IH. intros b Hb. apply Hx. now right.
Qed.

Lemma ForallOrdPairs_skipn {A : Type} (R : A -> A -> Prop) (n : nat) (l : list A) :
  List.ForallOrdPairs R l -> List.ForallOrdPairs R (List.skipn n l).
Proof.
  revert l. induction n as [|n IH]; intros l H; [exact H|].
  destruct H as [|a l Ha Hl]; [constructor|]. cbn [List.skipn]. now apply IH.
Qed.

Lemma lastFifty_length {A : Type} (l : list A) : (List.length (lastFifty l) <= 50)%nat.
Proof. unfold lastFifty. rewrite List.length_skipn. lia. Qed.

Lemma lastFifty_suffix {A : Type} (l : list A) :
  exists dropped, l = (dropped ++ lastFifty l)%list.
Proof.
  exists (List.firstn (List.length l - 50) l). unfold lastFifty.
  now rewrite List.firstn_skipn.
Qed.

Lemma addEntry_invariant (prev : list TranscriptEntry) (entry : TranscriptEntry) :
  (List.length prev <= 50)%nat -> noRepeats prev ->
  (List.length (addEntry prev entry) <= 50)%nat /\ noRepeats (addEntry prev entry).
Proof.
  intros Hlen Hno. unfold addEntry.
  destruct (List.existsb (isDuplicateOf entry) prev) eqn:E; [auto|].
  split; [apply lastFifty_length|].
  unfold noRepeats, lastFifty. apply ForallOrdPairs_skipn.
  apply ForallOrdPairs_app_one; [exact Hno|].
  intros a Ha. destruct (isDuplicateOf entry a) eqn:Hdup; [|reflexivity].
  assert (List.existsb (isDuplicateOf entry) prev = true) as Ht.
  { apply existsb_exists. now exists a. }
  congruence.
Qed.

Lemma addEntry_last (prev : list TranscriptEntry) (entry : TranscriptEntry) :
  List.existsb (isDuplicateOf entry) prev = false ->
  exists kept, addEntry prev entry = (kept ++ [entry])%list.
Proof.
  intros E. unfold addEntry. rewrite E. unfold lastFifty.
  rewrite List.length_app. cbn [List.length].
  rewrite List.skipn_app.
  replace (List.length prev + 1 - 50 - List.length prev)%nat with 0%nat by lia.
  cbn [List.skipn]. eexists. reflexivity.
Qed.

(** X26. The transcript of a call never holds more than 50 entries and no
    entry in it repeats an earlier one (same text and speaker less than a
    second apart), whatever messages arrive; and a message that repeats no
    entry of the transcript becomes its last entry. *)
Theorem transcript_invariant (messages : list (Z * string * Message)) :
  (List.length (received messages) <= 50)%nat /\
  noRepeats (received messages) /\
  forall now suffix message,
    List.existsb (isDuplicateOf (newEntry now suffix message)) (received messages) = false ->
    exists kept,
      received (messages ++ [(now, suffix, message)])
      = (kept ++ [newEntry now suffix message])%list.
Proof.
  unfold received.
  assert (Hinv : forall start,
    (List.length start <= 50)%nat -> noRepeats start ->
    (List.length (List.fold_left
       (fun prev '(now, suffix, message) => addEntry prev (newEntry now suffix message))
       messages start) <= 50)%nat /\
    noRepeats (List.fold_left
       (fun prev '(now, suffix, message) => addEntry prev (newEntry now suffix message))
       messages start)).
  { induction messages as [|[[now suffix] message] rest IH]; intros start Hlen Hno.
    - auto.
    - cbn [List.fold_left].
      destruct (addEntry_invariant start (newEntry now suffix message) Hlen Hno) as [H1 H2].
      now apply IH. }
  destruct (Hinv [] ltac:(cbn; lia) ltac:(constructor)) as [Hlen Hno].
  split; [exact Hlen|]. split; [exact Hno|].
  intros now suffix message Hnew.
  rewrite List.fold_left_app. cbn [List.fold_left].
  now apply addEntry_last.
Qed.

End TranscriptFacts.

(** ** Redaction before triage *)

Section PipelineFacts.
Import JS UseVapi EmergencyTriage RegExp HIPAAShield VapiIntegration.

Lemma toLowerCase_app (s t : string) :
  toLowerCase (s ++ t) = toLowerCase s ++ toLowerCase t.
Proof.
  induction s as [|c s IH]; [reflexivity|].
  change (toLowerCase (String c (s ++ t)) = String (lowerChar c) (toLowerCase s ++ toLowerCase t)).
  cbn [toLowerCase]. now rewrite IH.
Qed.

(** Every replacement token opens with a bracket. *)
Lemma replace_opens (rule : Rule) :
  In rule redactionRules -> exists rest, replace rule = String "["%char rest.
Proof.
  revert rule. apply List.Forall_forall.
  repeat (apply List.Forall_cons; [eexists; reflexivity|]). apply List.Forall_nil.
Qed.

(** No keyword of the triage has a bracket, is empty, or begins inside a
    replacement token. *)
Lemma keyword_apart (rule : Rule) (keyword : string) :
  In rule redactionRules -> In keyword emergencyKeywords ->
  avoids "["%char keyword = true /\ keyword <> EmptyString /\
  forall rest, includes (toLowerCase (replace rule ++ rest)) keyword
               = includes (toLowerCase rest) keyword.
Proof.
  intros Hrule. revert keyword. apply List.Forall_forall.
  revert rule Hrule. apply List.Forall_forall.
  repeat (apply List.Forall_cons;
          [repeat (apply List.Forall_cons;
                   [split; [reflexivity | split; [discriminate | intros rest; reflexivity]]|]);
           apply List.Forall_nil|]).
  apply List.Forall_nil.
Qed.

Lemma startsWith_substituted (re : RegExp) (replacement : string) (word : string)
    (prev : option ascii) (s : string) :
  (exists rest, replacement = String "["%char rest) ->
  avoids "["%char word = true ->
  startsWith (toLowerCase (substitute replacement (scan re O prev s))) word = true ->
  startsWith (toLowerCase s) word = true.
Proof.
  intros [rest ->]. revert word prev.
  induction s as [|c s IH]; intros word prev Hword H;
    (destruct word as [|a word']; [reflexivity|]);
    cbn [avoids] in Hword; apply andb_true_iff in Hword as [Ha Hword'];
    apply negb_true_iff in Ha.
  - cbn [scan] in H. destruct (matchAt re prev EmptyString) as [[|n]|];
      cbn [substitute] in H.
    + change (Ascii.eqb a "["%char && startsWith (toLowerCase (rest ++ EmptyString)) word' = true) in H.
      rewrite Ha in H. discriminate.
    + change (Ascii.eqb a "["%char && startsWith (toLowerCase (rest ++ EmptyString)) word' = true) in H.
      rewrite Ha in H. discriminate.
    + discriminate.
  - cbn [scan] in H. destruct (matchAt re prev (String c s)) as [[|n]|];
      cbn [substitute] in H.
    + match type of H with
      | startsWith (toLowerCase (String "["%char rest ++ ?t)) _ = true =>
          change (Ascii.eqb a "["%char && startsWith (toLowerCase (rest ++ t)) word' = true) in H
      end.
      rewrite Ha in H. discriminate.
    + match type of H with
      | startsWith (toLowerCase (String "["%char rest ++ ?t)) _ = true =>
          change (Ascii.eqb a "["%char && startsWith (toLowerCase (rest ++ t)) word' = true) in H
      end.
      rewrite Ha in H. discriminate.
    + cbn [toLowerCase startsWith] in *.
      apply andb_true_iff in H as [Hc H]. rewrite Hc. cbn [andb].
      now apply (IH word' (Some c)).
Qed.

Lemma includes_head (c : ascii) (s kw : string) :
  includes (String c s) kw = startsWith (String c s) kw || includes s kw.
Proof. reflexivity. Qed.

Lemma includes_substituted (re : RegExp) (replacement : string) (keyword : string)
    (s : string) :
  (exists rest, replacement = String "["%char rest) ->
  avoids "["%char keyword = true -> keyword <> EmptyString ->
  (forall rest, includes (toLowerCase (replacement ++ rest)) keyword
                = includes (toLowerCase rest) keyword) ->
  forall skip prev,
    includes (toLowerCase (substitute replacement (scan re skip prev s))) keyword = true ->
    includes (toLowerCase s) keyword = true.
Proof.
  intros Hopen Hword Hne Htoken.
  assert (Hkept : forall c prev' s',
    (forall skip prev,
       includes (toLowerCase (substitute replacement (scan re skip prev s'))) keyword = true ->
       includes (toLowerCase s') keyword = true) ->
    includes (toLowerCase (String c (substitute replacement (scan re O prev' s')))) keyword = true ->
    includes (toLowerCase (String c s')) keyword = true).
  { intros c prev' s' IH H. cbn [toLowerCase] in *. rewrite includes_head in *.
    apply orb_true_iff in H as [H | H]; apply orb_true_iff.
    - left. destruct keyword as [|a word']; [now elim Hne|].
      cbn [startsWith] in *. apply andb_true_iff in H as [Ha H]. rewrite Ha. cbn [andb].
      cbn [avoids] in Hword. apply andb_true_iff in Hword as [_ Hword'].
      now apply (startsWith_substituted re replacement word' prev' s' Hopen Hword').
    - right. now apply (IH O prev'). }
  induction s as [|c s IH]; intros skip prev H.
  - destruct skip as [|k]; cbn [scan] in H.
    + destruct (matchAt re prev EmptyString) as [[|n]|]; cbn [substitute] in H;
        rewrite ?Htoken in H; exact H.
    + exact H.
  - destruct skip as [|k]; cbn [scan] in H.
    + destruct (matchAt re prev (String c s)) as [[|n]|]; cbn [substitute] in H.
      * rewrite Htoken in H. now apply (Hkept c (Some c) s IH).
      * rewrite Htoken in H. apply IH in H.
        cbn [toLowerCase]. rewrite includes_head, H. apply orb_true_r.
      * now apply (Hkept c (Some c) s IH).
    + apply IH in H. cbn [toLowerCase]. rewrite includes_head, H. apply orb_true_r.
Qed.

Lemma applyRule_keeps_out (text keyword : string) (acc : Redaction) (rule : Rule) :
  In rule redactionRules -> In keyword emergencyKeywords ->
  includes (toLowerCase (redactedText (applyRule text acc rule))) keyword = true ->
  includes (toLowerCase (redactedText acc)) keyword = true.
Proof.
  intros Hrule Hkw. unfold applyRule.
  destruct (matchAll (pattern rule) text); [auto|].
  cbn [redactedText]. unfold replaceAll.
  destruct (keyword_apart rule keyword Hrule Hkw) as [Havoid [Hne Htoken]].
  apply includes_substituted; auto. now apply replace_opens.
Qed.

Lemma applyRules_keeps_out (text keyword : string) :
  In keyword emergencyKeywords ->
  includes (toLowerCase (redactedText (applyRules text))) keyword = true ->
  includes (toLowerCase text) keyword = true.
Proof.
  intros Hkw. unfold applyRules.
  assert (Hfold : forall rules acc,
    (forall rule, In rule rules -> In rule redactionRules) ->
    includes (toLowerCase (redactedText (List.fold_left (applyRule text) rules acc))) keyword = true ->
    includes (toLowerCase (redactedText acc)) keyword = true).
  { induction rules as [|rule rules IH]; intros acc Hsub H; [exact H|].
    cbn [List.fold_left] in H.
    apply IH in H; [|intros r Hr; apply Hsub; now right].
    apply (applyRule_keeps_out text keyword acc rule); [apply Hsub; now left | exact Hkw | exact H]. }
  intros H. apply Hfold in H; [exact H | auto].
Qed.

(** X27. Redaction raises no emergency: every symptom the triage finds in
    the redacted text it finds in the text as it came in, so the handler of
    [vapi-integration] books an emergency only for a transcript of the user
    that the triage itself classifies as one. *)
Theorem redaction_raises_no_emergency
    (auditLog : list AuditEntry) (now : Z) (message : Message) :
  (forall keyword,
     In keyword (symptoms (analyzeEmergency
                             (redactedText (fst (redactPHI auditLog now (transcript message)))))) ->
     In keyword (symptoms (analyzeEmergency (transcript message)))) /\
  (fst (onMessage auditLog now message) = true ->
   role message = Some "user" /\ handleEmergencyUtterance (transcript message) = true).
Proof.
  assert (Hsym : forall keyword,
     In keyword (symptoms (analyzeEmergency (redactedText (applyRules (transcript message))))) ->
     In keyword (symptoms (analyzeEmergency (transcript message)))).
  { intros keyword. rewrite !analyzeEmergency_symptoms_eq. unfold foundKeywords.
    rewrite !filter_In. intros [Hkw H]. split; [exact Hkw|].
    now apply applyRules_keeps_out. }
  split; [exact Hsym|].
  unfold onMessage, redactPHI. cbv zeta.
  destruct (equals "transcript" (type message)); [|discriminate].
  destruct (role message) as [r|] eqn:Hrole; [|discriminate]. cbn [equals andb].
  destruct (String.eqb_spec r "user") as [-> | _]; [|discriminate].
  cbn [fst]. unfold handleEmergencyUtterance. intros H. split; [reflexivity|].
  apply analyzeEmergency_isEmergency in H. apply analyzeEmergency_isEmergency.
  intros Hnone. apply H.
  destruct (foundKeywords (toLowerCase (redactedText (applyRules (transcript message)))))
    as [|keyword rest] eqn:E; [reflexivity|].
  exfalso.
  assert (Hin : In keyword (symptoms (analyzeEmergency (transcript message)))).
  { apply Hsym. rewrite analyzeEmergency_symptoms_eq, E. now left. }
  rewrite analyzeEmergency_symptoms_eq, Hnone in Hin. exact Hin.
Qed.

Lemma redaction_raises_no_emergency_witness :
  handleEmergencyUtterance "I am in pain, call 555-123-4567" = true.
Proof.
  apply (redaction_raises_no_emergency [] 0
           {| type := Some "transcript"; role := Some "user";
              transcript := "I am in pain, call 555-123-4567" |}).
  vm_compute. reflexivity.
Defined.

(** The converse fails: a keyword inside a redacted address is lost. *)
Example redaction_can_hide_an_emergency :
  handleEmergencyUtterance "write to pain@home.com" = true /\
  fst (onMessage [] 0 {| type := Some "transcript"; role := Some "user";
                         transcript := "write to pain@home.com" |}) = false.
Proof. split; vm_compute; reflexivity. Qed.

End PipelineFacts.
